(** * Verification of the sampling-distribution engine of clt-working.js

    Shallow embedding of [src/public/shared/clt-working.js] (numeric
    utilities, the seeded generator, the [Engine] class and the control
    handlers that drive it) together with the properties stated for it.

    Number model.  JavaScript numbers are IEEE doubles.  Here a number is
    [num]: [NaN], a signed infinity, or an exact rational.  Rounding and
    signed zero are outside the model; every branch the source takes on
    NaN, on a zero denominator or on [undefined] is kept.  Overflow to an
    infinity is modelled where the source tests for it: in the squared
    deviations that [varianceUnbiased] accumulates, whose result
    [robustSD] checks with [isFinite] ([overflow]); sums of sample values
    are exact.  The integer additions of the seeded generator are rounded
    as doubles are ([roundToDouble]).  Where a bound would be crossed by
    the rounding of a double operation, the property is stated with the
    slack that the rounding needs.  Quantities the
    source only ever computes from finite values with constant or guarded
    denominators (pixel geometry, particle positions, sample values) are
    plain [Q].  Integer code (the 32-bit generator, typed-array cells, bin
    and column indices) is modelled in [Z] with the wrap-around written out.

    [Math.sqrt], [Math.exp] and [Math.log] are parameters of the
    development: the embedding is valid for every choice of them. *)

From Stdlib Require Import ZArith QArith Qabs Qround Lia Lqa List Bool String
  Sorting.Sorted.
From stdpp Require Import base list.
Import ListNotations.

Local Open Scope Z_scope.

(* ================================================================== *)
(** ** JavaScript numbers *)
(* ================================================================== *)

Inductive num : Type :=
| NaN
| Inf (positive : bool)
| Num (q : Q).

Definition Qltb (x y : Q) : bool := negb (Qle_bool y x).

(** [x <= y] and [x < y] of JavaScript: false as soon as one side is NaN. *)
Definition nle (x y : num) : bool :=
  match x, y with
  | NaN, _ | _, NaN => false
  | Inf false, _ => true
  | _, Inf true => true
  | Inf true, _ => false
  | _, Inf false => false
  | Num a, Num b => Qle_bool a b
  end.

Definition nlt (x y : num) : bool :=
  match x, y with
  | NaN, _ | _, NaN => false
  | Inf true, _ => false
  | _, Inf false => false
  | Inf false, _ => true
  | _, Inf true => true
  | Num a, Num b => Qltb a b
  end.

Definition isNaN (x : num) : bool :=
  match x with NaN => true | _ => false end.

Definition isFinite (x : num) : bool :=
  match x with Num _ => true | _ => false end.

(** [Math.max] and [Math.min] on two arguments. *)
Definition Math_max (x y : num) : num :=
  match x, y with
  | NaN, _ | _, NaN => NaN
  | _, _ => if nle x y then y else x
  end.

Definition Math_min (x y : num) : num :=
  match x, y with
  | NaN, _ | _, NaN => NaN
  | _, _ => if nle x y then x else y
  end.

Definition nneg (x : num) : num :=
  match x with
  | NaN => NaN
  | Inf b => Inf (negb b)
  | Num q => Num (- q)
  end.

Definition nadd (x y : num) : num :=
  match x, y with
  | NaN, _ | _, NaN => NaN
  | Inf a, Inf b => if Bool.eqb a b then Inf a else NaN
  | Inf a, Num _ => Inf a
  | Num _, Inf b => Inf b
  | Num a, Num b => Num (a + b)
  end.

Definition nsub (x y : num) : num := nadd x (nneg y).

Definition nmul (x y : num) : num :=
  match x, y with
  | NaN, _ | _, NaN => NaN
  | Inf a, Inf b => Inf (Bool.eqb a b)
  | Inf a, Num q | Num q, Inf a =>
      if Qeq_bool q 0 then NaN else Inf (Bool.eqb a (Qltb 0 q))
  | Num a, Num b => Num (a * b)
  end.

Definition ndiv (x y : num) : num :=
  match x, y with
  | NaN, _ | _, NaN => NaN
  | Inf _, Inf _ => NaN
  | Inf a, Num q => Inf (Bool.eqb a (Qle_bool 0 q))
  | Num _, Inf _ => Num 0
  | Num a, Num b =>
      if Qeq_bool b 0
      then (if Qeq_bool a 0 then NaN else Inf (Qltb 0 a))
      else Num (a / b)
  end.

Definition Math_floor (x : num) : num :=
  match x with
  | Num q => Num (inject_Z (Qfloor q))
  | _ => x
  end.

(** The integer a number denotes when it is used as an array index;
    [None] stands for a key that is no valid integer index. *)
Definition intOf (x : num) : option Z :=
  match x with
  | Num q => if Qeq_bool q (inject_Z (Qfloor q)) then Some (Qfloor q) else None
  | _ => None
  end.

(** [Math.round] on a finite value: round half up. *)
Definition Qround_half_up (q : Q) : Z := Qfloor (q + (1 # 2)).

Definition Qmax (x y : Q) : Q := if Qle_bool x y then y else x.
Definition Qmin (x y : Q) : Q := if Qle_bool x y then x else y.

(* ================================================================== *)
(** ** Typed arrays *)
(* ================================================================== *)

(** A [Uint16Array] or [Uint32Array] is the list of its cells.  A read
    outside the array yields [undefined] ([None]); a write outside the
    array is ignored; a stored value is reduced modulo the cell width.
    The arrays of the engine are all created with [COLS] cells, and the
    source reads them at loop counters below [COLS] and at particle
    columns; [ta_get0] stands for such a read as well as for [a[i] || 0]
    (see [wellFormed] and [run_wellFormed]). *)

Definition toUint16 (z : Z) : Z := z mod 65536.
Definition toUint32 (z : Z) : Z := z mod 4294967296.
Definition toInt32 (z : Z) : Z := (z + 2147483648) mod 4294967296 - 2147483648.

Definition ta_get (a : list Z) (i : Z) : option Z :=
  if i <? 0 then None else a !! Z.to_nat i.

Definition ta_set (wrap : Z -> Z) (a : list Z) (i : Z) (v : Z) : list Z :=
  if i <? 0 then a else <[Z.to_nat i := wrap v]> a.

(** [a[i] || 0], and [a[i]] at an index inside the array *)
Definition ta_get0 (a : list Z) (i : Z) : Z := default 0 (ta_get a i).

(** The same accesses with a JavaScript number as key. *)
Definition ta_getN (a : list Z) (i : num) : option Z :=
  match intOf i with Some k => ta_get a k | None => None end.

Definition ta_setN (wrap : Z -> Z) (a : list Z) (i : num) (v : Z) : list Z :=
  match intOf i with Some k => ta_set wrap a k v | None => a end.

Definition ta_getN0 (a : list Z) (i : num) : Z := default 0 (ta_getN a i).

Fixpoint sumZ (l : list Z) : Z :=
  match l with
  | [] => 0
  | x :: r => x + sumZ r
  end.

(** [a.reduce((s, v) => s + v, 0)] *)
Definition sumQ (l : list Q) : Q := fold_left Qplus l 0%Q.

(* ================================================================== *)
(** ** Constants *)
(* ================================================================== *)

Definition COLS : Z := 60.
Definition STAT_BINS : Z := COLS.
Definition PAD : Q := 16.
Definition TOP_UNITS : Q := 30.
Definition MID_UNITS : Q := 24.
Definition BOT_UNITS : Q := 36.
Definition TOTAL_UNITS : Q := TOP_UNITS + MID_UNITS + BOT_UNITS.

Definition zeros (n : Z) : list Z := repeat 0 (Z.to_nat n).

(* ================================================================== *)
(** ** Utils *)
(* ================================================================== *)

(** *** rngMulberry32

    The closure keeps one variable [t], a double that is never reduced:
    [t += 0x6D2B79F5] is a number addition.  Both operands are integers,
    so the sum is the exact integer sum rounded to the nearest double,
    ties to even: exact up to 2^53, a multiple of 2 from there to 2^54,
    and so on ([roundToDouble]).  The bit operators reduce their operands
    modulo 2^32.  [0x6D2B79F5] is 1831565813. *)

(** The double nearest to the integer [z] (ties to the even mantissa):
    [z] itself below 2^53 in magnitude, otherwise the nearest multiple of
    [2 ^ (log2 |z| - 52)]. *)
Definition roundToDouble (z : Z) : Z :=
  let a := Z.abs z in
  if a <? 2 ^ 53 then z
  else
    let u := 2 ^ (Z.log2 a - 52) in
    let q := a / u in
    let r := a mod u in
    let q' :=
      if 2 * r <? u then q
      else if u <? 2 * r then q + 1
      else if Z.even q then q else q + 1 in
    Z.sgn z * (q' * u).

Definition imul (a b : Z) : Z := toInt32 (toInt32 a * toInt32 b).
Definition xor32 (a b : Z) : Z := Z.lxor (toInt32 a) (toInt32 b).
Definition or32 (a b : Z) : Z := Z.lor (toInt32 a) (toInt32 b).
Definition ushr (a k : Z) : Z := Z.shiftr (toUint32 a) k.

Definition rngMulberry32 (seed : Z) : Z := ushr seed 0.

Definition rng_advance (t : Z) : Z := roundToDouble (t + 1831565813).

Definition rng_output (t : Z) : Q :=
  let r := imul (xor32 t (ushr t 15)) (or32 1 t) in
  let r := xor32 r (r + imul (xor32 r (ushr r 7)) (or32 61 r)) in
  (inject_Z (ushr (xor32 r (ushr r 14)) 0) / 4294967296)%Q.

(** One call of the closure: new closure state and returned value. *)
Definition rng_call (t : Z) : Z * Q :=
  let t' := rng_advance t in (t', rng_output t').

Definition clamp (x a b : num) : num := Math_max a (Math_min b x).

Definition mean (a : list Q) : num :=
  match a with
  | [] => NaN
  | _ => Num (sumQ a / inject_Z (Z.of_nat (length a)))
  end.

(** A double operation whose exact result has magnitude 2^1024 - 2^970
    or more (half an ulp above the largest double) yields an infinity. *)
Definition DBL_OVERFLOW : Q := inject_Z (2 ^ 1024 - 2 ^ 970).

Definition overflow (x : num) : num :=
  match x with
  | Num q => if Qle_bool DBL_OVERFLOW (Qabs q) then Inf (Qltb 0 q) else x
  | _ => x
  end.

(** The accumulation loop [s2 += (a[i] - m) ** 2]: a subtraction, a
    square and an addition, each of which may overflow. *)
Fixpoint sqdev (m : num) (a : list Q) (s2 : num) : num :=
  match a with
  | [] => s2
  | x :: r =>
      let d := overflow (nsub (Num x) m) in
      sqdev m r (overflow (nadd s2 (overflow (nmul d d))))
  end.

Definition varianceUnbiased (a : list Q) : num :=
  let n := Z.of_nat (length a) in
  if n <? 2 then NaN
  else
    let m := mean a in
    ndiv (sqdev m a (Num 0)) (Num (inject_Z (n - 1))).

Inductive ValidationResult : Type :=
| Invalid (message : string)
| Valid.

Definition valid (r : ValidationResult) : bool :=
  match r with Valid => true | Invalid _ => false end.

Definition validateSampleSize (n : num) : ValidationResult :=
  if nlt n (Num 2) then Invalid "Sample size must be at least 2"
  else if nlt (Num 1000) n then Invalid "Sample size too large (max 1000)"
  else Valid.

(** [med]: [a.slice().sort((x, y) => x - y)] is a stable ascending sort. *)
Fixpoint insertQ (x : Q) (l : list Q) : list Q :=
  match l with
  | [] => [x]
  | y :: r => if Qle_bool y x then y :: insertQ x r else x :: y :: r
  end.

Definition sortQ (l : list Q) : list Q :=
  fold_left (fun acc x => insertQ x acc) l [].

(** An array element used in arithmetic: [undefined] behaves as NaN. *)
Definition elemQ (b : list Q) (i : Z) : num :=
  if i <? 0 then NaN
  else match b !! Z.to_nat i with Some v => Num v | None => NaN end.

Definition med (a : list Q) : num :=
  match a with
  | [] => NaN
  | _ =>
      let b := sortQ a in
      let len := Z.of_nat (length b) in
      let m := Z.shiftr len 1 in
      if negb (len mod 2 =? 0) then elemQ b m
      else nmul (Num (1 # 2)) (nadd (elemQ b (m - 1)) (elemQ b m))
  end.

(** The value a column stands for: [(c + 0.5) / COLS]. *)
Definition colValue (c : Z) : Q := ((inject_Z c + (1 # 2)) / inject_Z COLS)%Q.

(** *** Statistic kinds and their domains *)

Inductive Statistic : Type := Mean | Median | Sd | Proportion.

Record Domain : Type := mkDomain { dmin : Q; dmax : Q }.

Definition eps9 : Q := 1 # 1000000000.

(** The sampling-distribution bin of a statistic value (the expression
    shared by [calculateWithGather] and [handleRepeatTurbo]):
    [x01 = clamp((v - min) / (max - min + 1e-9), 0, 1)],
    [bin = clamp(Math.floor(x01 * STAT_BINS), 0, STAT_BINS - 1)]. *)
Definition binOf (v : num) (d : Domain) : num :=
  let x01 :=
    clamp (ndiv (nsub v (Num (dmin d))) (Num (dmax d - dmin d + eps9)))
          (Num 0) (Num 1) in
  clamp (Math_floor (nmul x01 (Num (inject_Z STAT_BINS))))
        (Num 0) (Num (inject_Z (STAT_BINS - 1))).

(** *** Weighted bin choice of [sampleN] *)

(** The inner scan
    [for (c = 0; c < COLS; c++) { acc += weights[c]; if (target <= acc) { chosen = c; break; } }]
    started at column [c] with [k] columns left; [None] when the loop ends
    without a break. *)
Fixpoint scanCols (target : Q) (weights : list Z) (c : Z) (acc : Z) (k : nat)
  : option Z :=
  match k with
  | O => None
  | S k' =>
      let acc' := acc + ta_get0 weights c in
      if Qle_bool target (inject_Z acc') then Some c
      else scanCols target weights (c + 1) acc' k'
  end.

Definition chooseCol (target : Q) (weights : list Z) : Z :=
  default (Z.shiftr COLS 1) (scanCols target weights 0 0 (Z.to_nat COLS)).

(** [total]: [for (i = 0; i < COLS; i++) total += weights[i]]. *)
Fixpoint sumCols (weights : list Z) (c : Z) (k : nat) : Z :=
  match k with
  | O => 0
  | S k' => ta_get0 weights c + sumCols weights (c + 1) k'
  end.

Definition totalWeight (weights : list Z) : Z :=
  sumCols weights 0 (Z.to_nat COLS).

(** One iteration of either sampling loop: the column chosen from one
    generator output [u]. *)
Definition pickCol (weights : list Z) (total : Z) (u : Q) : Z :=
  if total =? 0 then Qfloor (u * inject_Z COLS)
  else chooseCol (u * inject_Z total) weights.

(** The [n] iterations, threading the generator state; returns
    [xs], [cols] and the generator state after the loop. *)
Fixpoint sampleLoop (weights : list Z) (total : Z) (n : nat) (t : Z)
  : list Q * list Z * Z :=
  match n with
  | O => ([], [], t)
  | S k =>
      let '(t1, u) := rng_call t in
      let col := pickCol weights total u in
      let '(xs, cols, t2) := sampleLoop weights total k t1 in
      (colValue col :: xs, col :: cols, t2)
  end.

(** The first [n] values the generator returns from closure state [t]. *)
Fixpoint rngStream (n : nat) (t : Z) : list Q :=
  match n with
  | O => []
  | S k => let '(t1, u) := rng_call t in u :: rngStream k t1
  end.

(* ================================================================== *)
(** ** Engine state *)
(* ================================================================== *)

Inductive Speed : Type := SpeedNormal | SpeedFast.

(** A falling sample particle [{ col, x, y, vy, targetY }]. *)
Record SampleParticle : Type := mkSample {
  sp_col : Z;
  sp_x : Q;
  sp_y : Q;
  sp_vy : Q;
  sp_targetY : Q
}.

(** A falling statistic particle [{ x, y, vy, targetY, bin }]. *)
Record StatParticle : Type := mkStat {
  st_x : num;
  st_y : Q;
  st_vy : Q;
  st_targetY : Q;
  st_bin : num
}.

(** A highlight on the population tier [{ col, y, until }]. *)
Record PopFlash : Type := mkFlash {
  pf_col : Z;
  pf_y : Q;
  pf_until : Q
}.

(** A particle of the gather animation [{ sx, sy, x, y }]. *)
Record GatherParticle : Type := mkGather {
  gp_sx : Q;
  gp_sy : Q;
  gp_x : num;
  gp_y : num
}.

(** [gatherTarget = { x, y, bin }] *)
Record GatherTarget : Type := mkTarget {
  gt_x : num;
  gt_y : Q;
  gt_bin : num
}.

(** [emissionPlan = { start, end, total, emitted, cols, xs }].  [total] is
    set to [cols.length] when the plan is built and never written again,
    so it is read off [p_cols]. *)
Record EmissionPlan : Type := mkPlan {
  p_start : Q;
  p_end : Q;
  p_emitted : nat;
  p_cols : list Z;
  p_xs : list Q
}.

Definition p_total (p : EmissionPlan) : nat := length (p_cols p).

(** One tracked line [{ value, x, visible }]; [None] is [null]. *)
Record Line : Type := mkLine {
  line_value : option num;
  line_x : option num;
  line_visible : bool
}.

Record Lines : Type := mkLines {
  parameter : Line;
  sampleStat : Line;
  samplingMean : Line
}.

(** The fields of the [Engine] object.  [ctx] records whether a drawing
    context was given; [rng] is the variable [t] of the generator
    closure held in [this.rng]. *)
Record Engine : Type := mkEngine {
  ctx : bool;
  plotW : Q;
  gridW : Q;
  colW : Q;
  BOX : Q;
  gridX0 : Q;
  H_TOP : Q;
  H_MID : Q;
  H_BOT : Q;
  marginY : Q;
  BOX_TOP_Y : Q;
  BOX_MID_Y : Q;
  BOX_BOT_Y : Q;
  popCounts : list Z;
  midCounts : list Z;
  botCounts : list Z;
  sampleParticles : list SampleParticle;
  statParticles : list StatParticle;
  popFlashes : list PopFlash;
  gatherParticles : list GatherParticle;
  gatherTarget : option GatherTarget;
  gathering : bool;
  gatherStart : Q;
  gatherDur : Q;
  emissionPlan : option EmissionPlan;
  lastSample : list Q;
  statistic : Statistic;
  threshold : Q;
  speed : Speed;
  showParamLine : bool;
  showNormalFit : bool;
  rng : Z;
  needsRedraw : bool;
  lastGatheringSample : option (list Q);
  lines : Lines
}.

(** Field assignments [this.f = v]. *)

Definition set_BOX_TOP_Y (v : Q) (s : Engine) : Engine :=
  mkEngine (ctx s) (plotW s) (gridW s) (colW s) (BOX s) (gridX0 s) (H_TOP s)
    (H_MID s) (H_BOT s) (marginY s) v (BOX_MID_Y s) (BOX_BOT_Y s)
    (popCounts s) (midCounts s) (botCounts s) (sampleParticles s)
    (statParticles s) (popFlashes s) (gatherParticles s) (gatherTarget s)
    (gathering s) (gatherStart s) (gatherDur s) (emissionPlan s)
    (lastSample s) (statistic s) (threshold s) (speed s) (showParamLine s)
    (showNormalFit s) (rng s) (needsRedraw s) (lastGatheringSample s)
    (lines s).

Definition set_BOX_MID_Y (v : Q) (s : Engine) : Engine :=
  mkEngine (ctx s) (plotW s) (gridW s) (colW s) (BOX s) (gridX0 s) (H_TOP s)
    (H_MID s) (H_BOT s) (marginY s) (BOX_TOP_Y s) v (BOX_BOT_Y s)
    (popCounts s) (midCounts s) (botCounts s) (sampleParticles s)
    (statParticles s) (popFlashes s) (gatherParticles s) (gatherTarget s)
    (gathering s) (gatherStart s) (gatherDur s) (emissionPlan s)
    (lastSample s) (statistic s) (threshold s) (speed s) (showParamLine s)
    (showNormalFit s) (rng s) (needsRedraw s) (lastGatheringSample s)
    (lines s).

Definition set_BOX_BOT_Y (v : Q) (s : Engine) : Engine :=
  mkEngine (ctx s) (plotW s) (gridW s) (colW s) (BOX s) (gridX0 s) (H_TOP s)
    (H_MID s) (H_BOT s) (marginY s) (BOX_TOP_Y s) (BOX_MID_Y s) v
    (popCounts s) (midCounts s) (botCounts s) (sampleParticles s)
    (statParticles s) (popFlashes s) (gatherParticles s) (gatherTarget s)
    (gathering s) (gatherStart s) (gatherDur s) (emissionPlan s)
    (lastSample s) (statistic s) (threshold s) (speed s) (showParamLine s)
    (showNormalFit s) (rng s) (needsRedraw s) (lastGatheringSample s)
    (lines s).

Definition set_popCounts (v : list Z) (s : Engine) : Engine :=
  mkEngine (ctx s) (plotW s) (gridW s) (colW s) (BOX s) (gridX0 s) (H_TOP s)
    (H_MID s) (H_BOT s) (marginY s) (BOX_TOP_Y s) (BOX_MID_Y s)
    (BOX_BOT_Y s) v (midCounts s) (botCounts s) (sampleParticles s)
    (statParticles s) (popFlashes s) (gatherParticles s) (gatherTarget s)
    (gathering s) (gatherStart s) (gatherDur s) (emissionPlan s)
    (lastSample s) (statistic s) (threshold s) (speed s) (showParamLine s)
    (showNormalFit s) (rng s) (needsRedraw s) (lastGatheringSample s)
    (lines s).

Definition set_midCounts (v : list Z) (s : Engine) : Engine :=
  mkEngine (ctx s) (plotW s) (gridW s) (colW s) (BOX s) (gridX0 s) (H_TOP s)
    (H_MID s) (H_BOT s) (marginY s) (BOX_TOP_Y s) (BOX_MID_Y s)
    (BOX_BOT_Y s) (popCounts s) v (botCounts s) (sampleParticles s)
    (statParticles s) (popFlashes s) (gatherParticles s) (gatherTarget s)
    (gathering s) (gatherStart s) (gatherDur s) (emissionPlan s)
    (lastSample s) (statistic s) (threshold s) (speed s) (showParamLine s)
    (showNormalFit s) (rng s) (needsRedraw s) (lastGatheringSample s)
    (lines s).

Definition set_botCounts (v : list Z) (s : Engine) : Engine :=
  mkEngine (ctx s) (plotW s) (gridW s) (colW s) (BOX s) (gridX0 s) (H_TOP s)
    (H_MID s) (H_BOT s) (marginY s) (BOX_TOP_Y s) (BOX_MID_Y s)
    (BOX_BOT_Y s) (popCounts s) (midCounts s) v (sampleParticles s)
    (statParticles s) (popFlashes s) (gatherParticles s) (gatherTarget s)
    (gathering s) (gatherStart s) (gatherDur s) (emissionPlan s)
    (lastSample s) (statistic s) (threshold s) (speed s) (showParamLine s)
    (showNormalFit s) (rng s) (needsRedraw s) (lastGatheringSample s)
    (lines s).

Definition set_sampleParticles (v : list SampleParticle) (s : Engine) : Engine :=
  mkEngine (ctx s) (plotW s) (gridW s) (colW s) (BOX s) (gridX0 s) (H_TOP s)
    (H_MID s) (H_BOT s) (marginY s) (BOX_TOP_Y s) (BOX_MID_Y s)
    (BOX_BOT_Y s) (popCounts s) (midCounts s) (botCounts s) v
    (statParticles s) (popFlashes s) (gatherParticles s) (gatherTarget s)
    (gathering s) (gatherStart s) (gatherDur s) (emissionPlan s)
    (lastSample s) (statistic s) (threshold s) (speed s) (showParamLine s)
    (showNormalFit s) (rng s) (needsRedraw s) (lastGatheringSample s)
    (lines s).

Definition set_statParticles (v : list StatParticle) (s : Engine) : Engine :=
  mkEngine (ctx s) (plotW s) (gridW s) (colW s) (BOX s) (gridX0 s) (H_TOP s)
    (H_MID s) (H_BOT s) (marginY s) (BOX_TOP_Y s) (BOX_MID_Y s)
    (BOX_BOT_Y s) (popCounts s) (midCounts s) (botCounts s)
    (sampleParticles s) v (popFlashes s) (gatherParticles s)
    (gatherTarget s) (gathering s) (gatherStart s) (gatherDur s)
    (emissionPlan s) (lastSample s) (statistic s) (threshold s) (speed s)
    (showParamLine s) (showNormalFit s) (rng s) (needsRedraw s)
    (lastGatheringSample s) (lines s).

Definition set_popFlashes (v : list PopFlash) (s : Engine) : Engine :=
  mkEngine (ctx s) (plotW s) (gridW s) (colW s) (BOX s) (gridX0 s) (H_TOP s)
    (H_MID s) (H_BOT s) (marginY s) (BOX_TOP_Y s) (BOX_MID_Y s)
    (BOX_BOT_Y s) (popCounts s) (midCounts s) (botCounts s)
    (sampleParticles s) (statParticles s) v (gatherParticles s)
    (gatherTarget s) (gathering s) (gatherStart s) (gatherDur s)
    (emissionPlan s) (lastSample s) (statistic s) (threshold s) (speed s)
    (showParamLine s) (showNormalFit s) (rng s) (needsRedraw s)
    (lastGatheringSample s) (lines s).

Definition set_gatherParticles (v : list GatherParticle) (s : Engine) : Engine :=
  mkEngine (ctx s) (plotW s) (gridW s) (colW s) (BOX s) (gridX0 s) (H_TOP s)
    (H_MID s) (H_BOT s) (marginY s) (BOX_TOP_Y s) (BOX_MID_Y s)
    (BOX_BOT_Y s) (popCounts s) (midCounts s) (botCounts s)
    (sampleParticles s) (statParticles s) (popFlashes s) v (gatherTarget s)
    (gathering s) (gatherStart s) (gatherDur s) (emissionPlan s)
    (lastSample s) (statistic s) (threshold s) (speed s) (showParamLine s)
    (showNormalFit s) (rng s) (needsRedraw s) (lastGatheringSample s)
    (lines s).

Definition set_gatherTarget (v : option GatherTarget) (s : Engine) : Engine :=
  mkEngine (ctx s) (plotW s) (gridW s) (colW s) (BOX s) (gridX0 s) (H_TOP s)
    (H_MID s) (H_BOT s) (marginY s) (BOX_TOP_Y s) (BOX_MID_Y s)
    (BOX_BOT_Y s) (popCounts s) (midCounts s) (botCounts s)
    (sampleParticles s) (statParticles s) (popFlashes s) (gatherParticles s)
    v (gathering s) (gatherStart s) (gatherDur s) (emissionPlan s)
    (lastSample s) (statistic s) (threshold s) (speed s) (showParamLine s)
    (showNormalFit s) (rng s) (needsRedraw s) (lastGatheringSample s)
    (lines s).

Definition set_gathering (v : bool) (s : Engine) : Engine :=
  mkEngine (ctx s) (plotW s) (gridW s) (colW s) (BOX s) (gridX0 s) (H_TOP s)
    (H_MID s) (H_BOT s) (marginY s) (BOX_TOP_Y s) (BOX_MID_Y s)
    (BOX_BOT_Y s) (popCounts s) (midCounts s) (botCounts s)
    (sampleParticles s) (statParticles s) (popFlashes s) (gatherParticles s)
    (gatherTarget s) v (gatherStart s) (gatherDur s) (emissionPlan s)
    (lastSample s) (statistic s) (threshold s) (speed s) (showParamLine s)
    (showNormalFit s) (rng s) (needsRedraw s) (lastGatheringSample s)
    (lines s).

Definition set_gatherStart (v : Q) (s : Engine) : Engine :=
  mkEngine (ctx s) (plotW s) (gridW s) (colW s) (BOX s) (gridX0 s) (H_TOP s)
    (H_MID s) (H_BOT s) (marginY s) (BOX_TOP_Y s) (BOX_MID_Y s)
    (BOX_BOT_Y s) (popCounts s) (midCounts s) (botCounts s)
    (sampleParticles s) (statParticles s) (popFlashes s) (gatherParticles s)
    (gatherTarget s) (gathering s) v (gatherDur s) (emissionPlan s)
    (lastSample s) (statistic s) (threshold s) (speed s) (showParamLine s)
    (showNormalFit s) (rng s) (needsRedraw s) (lastGatheringSample s)
    (lines s).

Definition set_gatherDur (v : Q) (s : Engine) : Engine :=
  mkEngine (ctx s) (plotW s) (gridW s) (colW s) (BOX s) (gridX0 s) (H_TOP s)
    (H_MID s) (H_BOT s) (marginY s) (BOX_TOP_Y s) (BOX_MID_Y s)
    (BOX_BOT_Y s) (popCounts s) (midCounts s) (botCounts s)
    (sampleParticles s) (statParticles s) (popFlashes s) (gatherParticles s)
    (gatherTarget s) (gathering s) (gatherStart s) v (emissionPlan s)
    (lastSample s) (statistic s) (threshold s) (speed s) (showParamLine s)
    (showNormalFit s) (rng s) (needsRedraw s) (lastGatheringSample s)
    (lines s).

Definition set_emissionPlan (v : option EmissionPlan) (s : Engine) : Engine :=
  mkEngine (ctx s) (plotW s) (gridW s) (colW s) (BOX s) (gridX0 s) (H_TOP s)
    (H_MID s) (H_BOT s) (marginY s) (BOX_TOP_Y s) (BOX_MID_Y s)
    (BOX_BOT_Y s) (popCounts s) (midCounts s) (botCounts s)
    (sampleParticles s) (statParticles s) (popFlashes s) (gatherParticles s)
    (gatherTarget s) (gathering s) (gatherStart s) (gatherDur s) v
    (lastSample s) (statistic s) (threshold s) (speed s) (showParamLine s)
    (showNormalFit s) (rng s) (needsRedraw s) (lastGatheringSample s)
    (lines s).

Definition set_lastSample (v : list Q) (s : Engine) : Engine :=
  mkEngine (ctx s) (plotW s) (gridW s) (colW s) (BOX s) (gridX0 s) (H_TOP s)
    (H_MID s) (H_BOT s) (marginY s) (BOX_TOP_Y s) (BOX_MID_Y s)
    (BOX_BOT_Y s) (popCounts s) (midCounts s) (botCounts s)
    (sampleParticles s) (statParticles s) (popFlashes s) (gatherParticles s)
    (gatherTarget s) (gathering s) (gatherStart s) (gatherDur s)
    (emissionPlan s) v (statistic s) (threshold s) (speed s)
    (showParamLine s) (showNormalFit s) (rng s) (needsRedraw s)
    (lastGatheringSample s) (lines s).

Definition set_statistic (v : Statistic) (s : Engine) : Engine :=
  mkEngine (ctx s) (plotW s) (gridW s) (colW s) (BOX s) (gridX0 s) (H_TOP s)
    (H_MID s) (H_BOT s) (marginY s) (BOX_TOP_Y s) (BOX_MID_Y s)
    (BOX_BOT_Y s) (popCounts s) (midCounts s) (botCounts s)
    (sampleParticles s) (statParticles s) (popFlashes s) (gatherParticles s)
    (gatherTarget s) (gathering s) (gatherStart s) (gatherDur s)
    (emissionPlan s) (lastSample s) v (threshold s) (speed s)
    (showParamLine s) (showNormalFit s) (rng s) (needsRedraw s)
    (lastGatheringSample s) (lines s).

Definition set_threshold (v : Q) (s : Engine) : Engine :=
  mkEngine (ctx s) (plotW s) (gridW s) (colW s) (BOX s) (gridX0 s) (H_TOP s)
    (H_MID s) (H_BOT s) (marginY s) (BOX_TOP_Y s) (BOX_MID_Y s)
    (BOX_BOT_Y s) (popCounts s) (midCounts s) (botCounts s)
    (sampleParticles s) (statParticles s) (popFlashes s) (gatherParticles s)
    (gatherTarget s) (gathering s) (gatherStart s) (gatherDur s)
    (emissionPlan s) (lastSample s) (statistic s) v (speed s)
    (showParamLine s) (showNormalFit s) (rng s) (needsRedraw s)
    (lastGatheringSample s) (lines s).

Definition set_speed (v : Speed) (s : Engine) : Engine :=
  mkEngine (ctx s) (plotW s) (gridW s) (colW s) (BOX s) (gridX0 s) (H_TOP s)
    (H_MID s) (H_BOT s) (marginY s) (BOX_TOP_Y s) (BOX_MID_Y s)
    (BOX_BOT_Y s) (popCounts s) (midCounts s) (botCounts s)
    (sampleParticles s) (statParticles s) (popFlashes s) (gatherParticles s)
    (gatherTarget s) (gathering s) (gatherStart s) (gatherDur s)
    (emissionPlan s) (lastSample s) (statistic s) (threshold s) v
    (showParamLine s) (showNormalFit s) (rng s) (needsRedraw s)
    (lastGatheringSample s) (lines s).

Definition set_showParamLine (v : bool) (s : Engine) : Engine :=
  mkEngine (ctx s) (plotW s) (gridW s) (colW s) (BOX s) (gridX0 s) (H_TOP s)
    (H_MID s) (H_BOT s) (marginY s) (BOX_TOP_Y s) (BOX_MID_Y s)
    (BOX_BOT_Y s) (popCounts s) (midCounts s) (botCounts s)
    (sampleParticles s) (statParticles s) (popFlashes s) (gatherParticles s)
    (gatherTarget s) (gathering s) (gatherStart s) (gatherDur s)
    (emissionPlan s) (lastSample s) (statistic s) (threshold s) (speed s) v
    (showNormalFit s) (rng s) (needsRedraw s) (lastGatheringSample s)
    (lines s).

Definition set_showNormalFit (v : bool) (s : Engine) : Engine :=
  mkEngine (ctx s) (plotW s) (gridW s) (colW s) (BOX s) (gridX0 s) (H_TOP s)
    (H_MID s) (H_BOT s) (marginY s) (BOX_TOP_Y s) (BOX_MID_Y s)
    (BOX_BOT_Y s) (popCounts s) (midCounts s) (botCounts s)
    (sampleParticles s) (statParticles s) (popFlashes s) (gatherParticles s)
    (gatherTarget s) (gathering s) (gatherStart s) (gatherDur s)
    (emissionPlan s) (lastSample s) (statistic s) (threshold s) (speed s)
    (showParamLine s) v (rng s) (needsRedraw s) (lastGatheringSample s)
    (lines s).

Definition set_rng (v : Z) (s : Engine) : Engine :=
  mkEngine (ctx s) (plotW s) (gridW s) (colW s) (BOX s) (gridX0 s) (H_TOP s)
    (H_MID s) (H_BOT s) (marginY s) (BOX_TOP_Y s) (BOX_MID_Y s)
    (BOX_BOT_Y s) (popCounts s) (midCounts s) (botCounts s)
    (sampleParticles s) (statParticles s) (popFlashes s) (gatherParticles s)
    (gatherTarget s) (gathering s) (gatherStart s) (gatherDur s)
    (emissionPlan s) (lastSample s) (statistic s) (threshold s) (speed s)
    (showParamLine s) (showNormalFit s) v (needsRedraw s)
    (lastGatheringSample s) (lines s).

Definition set_needsRedraw (v : bool) (s : Engine) : Engine :=
  mkEngine (ctx s) (plotW s) (gridW s) (colW s) (BOX s) (gridX0 s) (H_TOP s)
    (H_MID s) (H_BOT s) (marginY s) (BOX_TOP_Y s) (BOX_MID_Y s)
    (BOX_BOT_Y s) (popCounts s) (midCounts s) (botCounts s)
    (sampleParticles s) (statParticles s) (popFlashes s) (gatherParticles s)
    (gatherTarget s) (gathering s) (gatherStart s) (gatherDur s)
    (emissionPlan s) (lastSample s) (statistic s) (threshold s) (speed s)
    (showParamLine s) (showNormalFit s) (rng s) v (lastGatheringSample s)
    (lines s).

Definition set_lastGatheringSample (v : option (list Q)) (s : Engine) : Engine :=
  mkEngine (ctx s) (plotW s) (gridW s) (colW s) (BOX s) (gridX0 s) (H_TOP s)
    (H_MID s) (H_BOT s) (marginY s) (BOX_TOP_Y s) (BOX_MID_Y s)
    (BOX_BOT_Y s) (popCounts s) (midCounts s) (botCounts s)
    (sampleParticles s) (statParticles s) (popFlashes s) (gatherParticles s)
    (gatherTarget s) (gathering s) (gatherStart s) (gatherDur s)
    (emissionPlan s) (lastSample s) (statistic s) (threshold s) (speed s)
    (showParamLine s) (showNormalFit s) (rng s) (needsRedraw s) v (lines s)
    .

Definition set_lines (v : Lines) (s : Engine) : Engine :=
  mkEngine (ctx s) (plotW s) (gridW s) (colW s) (BOX s) (gridX0 s) (H_TOP s)
    (H_MID s) (H_BOT s) (marginY s) (BOX_TOP_Y s) (BOX_MID_Y s)
    (BOX_BOT_Y s) (popCounts s) (midCounts s) (botCounts s)
    (sampleParticles s) (statParticles s) (popFlashes s) (gatherParticles s)
    (gatherTarget s) (gathering s) (gatherStart s) (gatherDur s)
    (emissionPlan s) (lastSample s) (statistic s) (threshold s) (speed s)
    (showParamLine s) (showNormalFit s) (rng s) (needsRedraw s)
    (lastGatheringSample s) v.

Definition isSomeb {A : Type} (o : option A) : bool :=
  match o with Some _ => true | None => false end.

Definition nonemptyb {A : Type} (l : list A) : bool :=
  match l with [] => false | _ => true end.

(** The column indices [0 .. COLS-1] in loop order. *)
Definition colRange : list Z := map Z.of_nat (seq 0 (Z.to_nat COLS)).

(** Strict equality [===] of two numbers. *)
Definition nseq (x y : num) : bool :=
  match x, y with
  | Num a, Num b => Qeq_bool a b
  | Inf a, Inf b => Bool.eqb a b
  | _, _ => false
  end.

Definition clampZ (v a b : Z) : Z := Z.max a (Z.min b v).

(** What a render pass sends to the canvas: the initial [clearRect] and
    the remaining calls of the frame, which are a function of the engine
    state they read. *)
Inductive CanvasOp : Type :=
| ClearRect (x y w h : Q)
| Scene (e : Engine).

(** A pending [setTimeout(() => this.startSample(n, dropMs), 100)]. *)
Record Timer : Type := mkTimer {
  timer_due : Q;
  timer_n : nat;
  timer_dropMs : Q
}.

Inductive Generator : Type :=
| GenNormal | GenUniform | GenBimodal | GenLognormal | GenOther.

Record PopStats : Type := mkPopStats {
  ps_mu : Q;
  ps_sd : num;
  ps_med : Q;
  ps_pthr : Q;
  ps_total : Z
}.

(** The operations of the engine and of its control handlers other than
    the render step. *)
Inductive Action : Type :=
| AResetGeometry (plotW' topH midH botH : Q)
| ALayoutFromViewport (plotW' canvasH : Q)
| AApplyGenerator (name : Generator)
| AUpdateLines
| AClickPopulation (xCanvas yCanvas : Q)
| AAltClickPopulation (xCanvas yCanvas : Q)
| AStartSample (n : nat) (dropMs now : Q)
| ACalculateWithGather (now : Q)
| ADrawSampleWithAutoCalculate (n : nat) (dropMs now : Q)
| AClearTray
| AResetExperiment
| AHandleRepeatTurbo (n : nat)
| ATick (dt now : Q)
| AStatisticChange (value : Statistic)
| AThresholdInput (value : Q)
| AParamLineChange (checked : bool)
| ANormalFitChange (checked : bool)
| ASpeedChange (value : Speed)
| ASeedInput (seed : Z).

Section EngineOps.

(** [Math.sqrt], [Math.exp] and [Math.log] on finite arguments. *)
Variable sqrt : Q -> Q.
Variable exp : Q -> Q.
Variable log : Q -> Q.

Definition Math_sqrt (x : num) : num :=
  match x with
  | NaN => NaN
  | Inf true => Inf true
  | Inf false => NaN
  | Num q => if Qltb q 0 then NaN else Num (sqrt q)
  end.

Definition robustSD (a : list Q) : num :=
  let v := varianceUnbiased a in
  if isFinite v && nle (Num 0) v then Math_sqrt v else Num 0.

(** *** Geometry *)

Definition resetGeometry (plotW' topH midH botH : Q) (s : Engine) : Engine :=
  let innerW := (plotW' - 2 * PAD)%Q in
  let colW' := inject_Z (Qfloor (innerW / inject_Z COLS)) in
  let BOX' := Qmax 6 colW' in
  let gridW' := (BOX' * inject_Z COLS)%Q in
  let gridX0' := inject_Z (Qfloor ((plotW' - gridW') / 2)) in
  mkEngine (ctx s) plotW' gridW' colW' BOX' gridX0' topH midH botH (marginY s)
    (BOX_TOP_Y s) (BOX_MID_Y s) (BOX_BOT_Y s)
    (popCounts s) (midCounts s) (botCounts s)
    (sampleParticles s) (statParticles s) (popFlashes s) (gatherParticles s)
    (gatherTarget s) (gathering s) (gatherStart s) (gatherDur s)
    (emissionPlan s) (lastSample s) (statistic s) (threshold s) (speed s)
    (showParamLine s) (showNormalFit s) (rng s) true
    (lastGatheringSample s) (lines s).

Definition layoutFromViewport (plotW' canvasH : Q) (s : Engine) : Engine :=
  let innerW := Qmax 200 (plotW' - 2 * PAD) in
  let fromWidth := Qmax 6 (inject_Z (Qfloor (innerW / inject_Z COLS))) in
  let fromHeight :=
    Qmax 6 (inject_Z (Qfloor ((canvasH - 2 * 16) / TOTAL_UNITS))) in
  let box := Qmin fromWidth fromHeight in
  resetGeometry plotW' (TOP_UNITS * box) (MID_UNITS * box) (BOT_UNITS * box) s.

(** [new Engine(ctx)] *)
Definition newEngine (hasCtx : bool) : Engine :=
  resetGeometry 960 300 240 360
    (mkEngine hasCtx 960 0 0 8 0 300 240 360 8 8 8 8
       (zeros COLS) (zeros COLS) (zeros STAT_BINS)
       [] [] [] [] None false 0 260 None [] Mean (1 # 2) SpeedNormal
       true false (rngMulberry32 1234) true None
       (mkLines (mkLine None None true) (mkLine None None false)
                (mkLine None None false))).

Definition colLeft (s : Engine) (col : Z) : Q :=
  (gridX0 s + inject_Z col * BOX s)%Q.

Definition colCenter (s : Engine) (col : Z) : Q :=
  (gridX0 s + inject_Z col * BOX s + BOX s / 2)%Q.

(** *** Population statistics (the [popStats] getter) *)

Definition popStats (s : Engine) : PopStats :=
  let pc := popCounts s in
  let total := fold_left (fun t c => t + ta_get0 pc c) colRange 0 in
  let musum :=
    fold_left (fun m c => (m + inject_Z (ta_get0 pc c) * colValue c)%Q)
              colRange 0%Q in
  let mu := if total =? 0 then (1 # 2)%Q else (musum / inject_Z total)%Q in
  let s2 :=
    fold_left
      (fun a c => (a + inject_Z (ta_get0 pc c) * (colValue c - mu) * (colValue c - mu))%Q)
      colRange 0%Q in
  let sdPop :=
    if total =? 0 then Num 0 else Math_sqrt (Num (s2 / inject_Z total)) in
  let medv :=
    if total =? 0 then (1 # 2)%Q
    else
      let half := (inject_Z total / 2)%Q in
      let step (st : Z * option Q) (c : Z) : Z * option Q :=
        match st with
        | (acc, Some m) => (acc, Some m)
        | (acc, None) =>
            let acc' := acc + ta_get0 pc c in
            if Qle_bool half (inject_Z acc') then (acc', Some (colValue c))
            else (acc', None)
        end in
      default (1 # 2)%Q (snd (fold_left step colRange (0, None))) in
  let greater :=
    fold_left
      (fun g c => if Qltb (threshold s) (colValue c) then g + ta_get0 pc c else g)
      colRange 0 in
  let pthr :=
    if total =? 0 then 0%Q else (inject_Z greater / inject_Z total)%Q in
  mkPopStats mu sdPop medv pthr total.

Definition statDomain (s : Engine) : Domain :=
  match statistic s with
  | Sd => mkDomain 0 (1 # 2)
  | _ => mkDomain 0 1
  end.

Definition computeStat (s : Engine) (xs : list Q) : num :=
  match xs with
  | [] => NaN
  | _ =>
      match statistic s with
      | Mean => mean xs
      | Median => med xs
      | Sd => robustSD xs
      | Proportion =>
          Num (inject_Z (Z.of_nat (length (List.filter (fun v => Qltb (threshold s) v) xs)))
               / inject_Z (Z.of_nat (length xs)))
      end
  end.

Definition valueToX (s : Engine) (value : num) : num :=
  let d := statDomain s in
  let proportion :=
    clamp (ndiv (nsub value (Num (dmin d))) (Num (dmax d - dmin d)))
          (Num 0) (Num 1) in
  nadd (Num (gridX0 s)) (nmul proportion (Num (gridW s))).

Definition updateLines (s : Engine) : Engine :=
  let ps := popStats s in
  let paramValue :=
    match statistic s with
    | Median => Num (ps_med ps)
    | Sd => ps_sd ps
    | Proportion => Num (ps_pthr ps)
    | Mean => Num (ps_mu ps)
    end in
  let old := lines s in
  let parameter' :=
    mkLine (Some paramValue) (Some (valueToX s paramValue))
           (line_visible (parameter old)) in
  let sampleStat' :=
    match lastSample s with
    | [] => mkLine (line_value (sampleStat old)) (line_x (sampleStat old)) false
    | _ =>
        let v := computeStat s (lastSample s) in
        mkLine (Some v) (Some (valueToX s v)) (negb (isNaN v))
    end in
  let dom := statDomain s in
  let total := fold_left (fun t b => t + ta_get0 (botCounts s) b) colRange 0 in
  let msum :=
    fold_left
      (fun m b =>
         let x01 := ((inject_Z b + (1 # 2)) / inject_Z STAT_BINS)%Q in
         let val := (dmin dom + x01 * (dmax dom - dmin dom))%Q in
         (m + inject_Z (ta_get0 (botCounts s) b) * val)%Q)
      colRange 0%Q in
  let samplingMean' :=
    if 0 <? total then
      let m := Num (msum / inject_Z total) in
      mkLine (Some m) (Some (valueToX s m)) true
    else mkLine (line_value (samplingMean old)) (line_x (samplingMean old)) false in
  set_lines (mkLines parameter' sampleStat' samplingMean') s.

(** *** Population edits *)

Definition genWeight (name : Generator) (x : Q) : Q :=
  match name with
  | GenNormal =>
      let z := ((x - (1 # 2)) / (16 # 100))%Q in
      exp (- (1 # 2) * z * z)%Q
  | GenUniform => 1%Q
  | GenBimodal =>
      let z1 := ((x - (32 # 100)) / (7 # 100))%Q in
      let z2 := ((x - (72 # 100)) / (7 # 100))%Q in
      ((55 # 100) * exp (- (1 # 2) * z1 * z1) + (45 # 100) * exp (- (1 # 2) * z2 * z2))%Q
  | GenLognormal =>
      let mu := log (3 # 10) in
      let sig := (6 # 10)%Q in
      let lx := log (Qmax (1 # 10000) x) in
      let z := ((lx - mu) / sig)%Q in
      (exp (- (1 # 2) * z * z) / Qmax x (1 # 10000))%Q
  | GenOther => 1%Q
  end.

Definition applyGenerator (name : Generator) (s : Engine) : Engine :=
  let counts :=
    map (fun c => toUint16 (Z.max 0 (Qround_half_up (genWeight name (colValue c) * 20))))
        colRange in
  set_needsRedraw true (updateLines (set_popCounts counts s)).

Definition populationCol (s : Engine) (xCanvas : Q) : num :=
  clamp (Math_floor (ndiv (Num (xCanvas - gridX0 s)) (Num (BOX s))))
        (Num 0) (Num (inject_Z (COLS - 1))).

Definition clickPopulation (xCanvas yCanvas : Q) (s : Engine) : Engine :=
  if Qltb (marginY s + H_TOP s) yCanvas then s
  else
    let col := populationCol s xCanvas in
    let v := clampZ (ta_getN0 (popCounts s) col + 1) 0 10000 in
    set_needsRedraw true
      (updateLines (set_popCounts (ta_setN toUint16 (popCounts s) col v) s)).

Definition altClickPopulation (xCanvas yCanvas : Q) (s : Engine) : Engine :=
  if Qltb (marginY s + H_TOP s) yCanvas then s
  else
    let col := populationCol s xCanvas in
    let v := clampZ (ta_getN0 (popCounts s) col - 1) 0 10000 in
    set_needsRedraw true
      (updateLines (set_popCounts (ta_setN toUint16 (popCounts s) col v) s)).

(** *** Sampling *)

Definition sampleN (n : nat) (s : Engine) : (list Q * list Z) * Engine :=
  let weights := popCounts s in
  let total := totalWeight weights in
  let '(xs, cols, t') := sampleLoop weights total n (rng s) in
  ((xs, cols), set_rng t' s).

Definition hasActiveAnimations (s : Engine) : bool :=
  isSomeb (emissionPlan s) || nonemptyb (sampleParticles s)
  || nonemptyb (statParticles s) || gathering s
  || nonemptyb (popFlashes s) || nonemptyb (gatherParticles s).

(** [now] is the value [performance.now()] returns inside the call. *)
Definition scheduleEmission (xs : list Q) (cols : list Z) (dropMs now : Q)
    (s : Engine) : Engine :=
  set_emissionPlan (Some (mkPlan now (now + dropMs) 0 cols xs))
    (set_lastSample xs s).

Definition startSample (n : nat) (dropMs now : Q) (s : Engine) : Engine :=
  let '((xs, cols), s1) := sampleN n s in
  scheduleEmission xs cols dropMs now s1.

(** *** tick: emission *)

(** [inflight]: a fresh [Uint16Array(COLS)] counting the particles in the
    air per column. *)
Definition bump16 (a : list Z) (col : Z) : list Z :=
  ta_set toUint16 a col (ta_get0 a col + 1).

Definition inflightOf (parts : list SampleParticle) : list Z :=
  fold_left (fun a sp => bump16 a (sp_col sp)) parts (zeros COLS).

(** One iteration of the release loop for column [col]. *)
Definition emitOne (s : Engine) (now : Q) (col : Z) (inflight : list Z)
  : PopFlash * SampleParticle * list Z :=
  let topBase := (marginY s + H_TOP s - 16)%Q in
  let midBase := (marginY s + H_TOP s + H_MID s - 8)%Q in
  let pc := ta_get0 (popCounts s) col in
  let yStart :=
    if 0 <? pc
    then (topBase - (inject_Z pc - 1) * BOX_TOP_Y s - BOX_TOP_Y s / 2)%Q
    else (BOX_TOP_Y s * 2)%Q in
  let level := ta_get0 (midCounts s) col + ta_get0 inflight col in
  let targetY := (midBase - inject_Z level * BOX_MID_Y s - BOX_MID_Y s / 2)%Q in
  (mkFlash col yStart (now + 160),
   mkSample col (colCenter s col) yStart 0 targetY,
   bump16 inflight col).

Fixpoint emitLoop (s : Engine) (now : Q) (cs : list Z) (inflight : list Z)
    (flashes : list PopFlash) (parts : list SampleParticle)
  : list PopFlash * list SampleParticle :=
  match cs with
  | [] => (flashes, parts)
  | col :: r =>
      let '(f, sp, inflight') := emitOne s now col inflight in
      emitLoop s now r inflight' (flashes ++ [f]) (parts ++ [sp])
  end.

(** Number of iterations of [while (toEmit-- > 0 && p.emitted < p.total)]. *)
Definition toEmitCount (toEmit : num) (remaining : nat) : nat :=
  match toEmit with
  | Num q => if Qltb 0 q then Nat.min (Z.to_nat (Qceiling q)) remaining else O
  | Inf true => remaining
  | _ => O
  end.

Definition tickEmission (now : Q) (s : Engine) : Engine :=
  match emissionPlan s with
  | None => s
  | Some p =>
      let f :=
        clamp (ndiv (Num (now - p_start p)) (Num (p_end p - p_start p)))
              (Num 0) (Num 1) in
      let total := Num (inject_Z (Z.of_nat (p_total p))) in
      let emitted := Num (inject_Z (Z.of_nat (p_emitted p))) in
      let targetEmitted := Math_floor (nmul f total) in
      let toEmit := nsub targetEmitted emitted in
      let toEmit :=
        if nle toEmit (Num 0) && nle (Num 1) f then nsub total emitted
        else toEmit in
      let s1 :=
        if nlt (Num 0) toEmit then
          let k := toEmitCount toEmit (p_total p - p_emitted p) in
          let cs := take k (drop (p_emitted p) (p_cols p)) in
          let '(fl, parts) :=
            emitLoop s now cs (inflightOf (sampleParticles s))
                     (popFlashes s) (sampleParticles s) in
          set_emissionPlan
            (Some (mkPlan (p_start p) (p_end p) (p_emitted p + length cs)
                          (p_cols p) (p_xs p)))
            (set_sampleParticles parts (set_popFlashes fl s))
        else s in
      match emissionPlan s1 with
      | Some p1 =>
          if (p_total p1 <=? p_emitted p1)%nat
          then updateLines (set_emissionPlan None s1)
          else s1
      | None => s1
      end
  end.

(** *** tick: falling sample particles *)

Definition gravity (s : Engine) : Q :=
  match speed s with SpeedFast => 2400 | SpeedNormal => 1400 end.

Definition landSample (col : Z) (s : Engine) : Engine :=
  updateLines
    (set_midCounts
       (ta_set toUint16 (midCounts s) col (ta_get0 (midCounts s) col + 1)) s).

(** The physics update of one particle:
    [s.vy += g * dt; s.y = Math.min(s.y + s.vy * dt, s.targetY)]. *)
Definition moveSample (g dt : Q) (sp : SampleParticle) : SampleParticle :=
  let vy := (sp_vy sp + g * dt)%Q in
  let y := Qmin (sp_y sp + vy * dt) (sp_targetY sp) in
  mkSample (sp_col sp) (sp_x sp) y vy (sp_targetY sp).

(** [s.y < s.targetY - 0.1]: the particle has not reached its target. *)
Definition sampleInAir (sp : SampleParticle) : bool :=
  Qltb (sp_y sp) (sp_targetY sp - (1 # 10)).

Fixpoint fallSamples (g dt : Q) (parts : list SampleParticle) (s : Engine)
  : list SampleParticle * Engine :=
  match parts with
  | [] => ([], s)
  | sp :: r =>
      let sp' := moveSample g dt sp in
      if sampleInAir sp'
      then
        let '(survivors, s') := fallSamples g dt r s in
        (sp' :: survivors, s')
      else fallSamples g dt r (landSample (sp_col sp') s)
  end.

Definition tickSamples (g dt : Q) (s : Engine) : Engine :=
  match sampleParticles s with
  | [] => s
  | parts =>
      let '(survivors, s') := fallSamples g dt parts s in
      set_sampleParticles survivors s'
  end.

(** *** tick: gather animation *)

Definition tickGather (now : Q) (s : Engine) : Engine :=
  match gathering s, gatherTarget s with
  | true, Some gt =>
      let t :=
        clamp (ndiv (Num (now - gatherStart s)) (Num (gatherDur s)))
              (Num 0) (Num 1) in
      let move (gp : GatherParticle) : GatherParticle :=
        let dx := nsub (gt_x gt) (Num (gp_sx gp)) in
        let dy := Num (gt_y gt - gp_sy gp) in
        mkGather (gp_sx gp) (gp_sy gp)
                 (nadd (Num (gp_sx gp)) (nmul dx t))
                 (nadd (Num (gp_sy gp)) (nmul dy t)) in
      let s1 := set_gatherParticles (map move (gatherParticles s)) s in
      if nle (Num 1) t then
        let botBase := (marginY s + H_TOP s + H_MID s + H_BOT s - 8)%Q in
        let inflightForBin :=
          length (List.filter (fun q => nseq (st_bin q) (gt_bin gt))
                              (statParticles s)) in
        let level := ta_getN0 (botCounts s) (gt_bin gt) + Z.of_nat inflightForBin in
        let targetY :=
          (botBase - inject_Z level * BOX_BOT_Y s - BOX_BOT_Y s / 2)%Q in
        let xCenter :=
          nadd (nadd (Num (gridX0 s)) (nmul (gt_bin gt) (Num (BOX s))))
               (Num (BOX s / 2)) in
        updateLines
          (set_lastGatheringSample None
             (set_gatherParticles []
                (set_gatherTarget None
                   (set_gathering false
                      (set_statParticles
                         (statParticles s
                          ++ [mkStat xCenter (gt_y gt) 0 targetY (gt_bin gt)])
                         s1)))))
      else s1
  | _, _ => s
  end.

(** *** tick: falling statistic particles *)

Definition landStat (bin : num) (s : Engine) : Engine :=
  updateLines
    (set_botCounts
       (ta_setN toUint32 (botCounts s) bin (ta_getN0 (botCounts s) bin + 1)) s).

Definition moveStat (g dt : Q) (p : StatParticle) : StatParticle :=
  let vy := (st_vy p + g * dt)%Q in
  let y := Qmin (st_y p + vy * dt) (st_targetY p) in
  mkStat (st_x p) y vy (st_targetY p) (st_bin p).

Definition statInAir (p : StatParticle) : bool :=
  Qltb (st_y p) (st_targetY p - (1 # 10)).

Fixpoint fallStats (g dt : Q) (parts : list StatParticle) (s : Engine)
  : list StatParticle * Engine :=
  match parts with
  | [] => ([], s)
  | p :: r =>
      let p' := moveStat g dt p in
      if statInAir p'
      then
        let '(survivors, s') := fallStats g dt r s in
        (p' :: survivors, s')
      else fallStats g dt r (landStat (st_bin p') s)
  end.

Definition tickStats (g dt : Q) (s : Engine) : Engine :=
  match statParticles s with
  | [] => s
  | parts =>
      let '(survivors, s') := fallStats g dt parts s in
      set_statParticles survivors s'
  end.

Definition tickFlashes (now : Q) (s : Engine) : Engine :=
  set_popFlashes (List.filter (fun f => Qltb now (pf_until f)) (popFlashes s)) s.

Definition tick (dt now : Q) (s : Engine) : Engine :=
  let hadAnimations := hasActiveAnimations s in
  let g := gravity s in
  let s1 := tickEmission now s in
  let s2 := tickSamples g dt s1 in
  let s3 := tickGather now s2 in
  let s4 := tickStats g dt s3 in
  let s5 := tickFlashes now s4 in
  if hasActiveAnimations s5 || hadAnimations then set_needsRedraw true s5
  else s5.

(** *** draw *)

Definition maxOf (arr : list Z) : Z :=
  fold_left (fun m v => if m <? v then v else m) arr 0.

(** [need > 0 ? Math.min(1, (h - 28) / need) : 1] with
    [need = maxOf(counts) * BOX]. *)
Definition scaleOf (counts : list Z) (box h : Q) : Q :=
  let need := (inject_Z (maxOf counts) * box)%Q in
  if Qltb 0 need then Qmin 1 ((h - 28) / need) else 1%Q.

Definition draw (s : Engine) : Engine * list CanvasOp :=
  if negb (ctx s) || negb (needsRedraw s) then (s, [])
  else
    let totalH := (H_TOP s + H_MID s + H_BOT s + 2 * marginY s)%Q in
    let scaleTop := scaleOf (popCounts s) (BOX s) (H_TOP s) in
    let scaleMid := scaleOf (midCounts s) (BOX s) (H_MID s) in
    let scaleBot := scaleOf (botCounts s) (BOX s) (H_BOT s) in
    let s1 :=
      set_BOX_BOT_Y (BOX s * scaleBot)
        (set_BOX_MID_Y (BOX s * scaleMid)
           (set_BOX_TOP_Y (BOX s * scaleTop) s)) in
    (set_needsRedraw false s1, [ClearRect 0 0 (plotW s) totalH; Scene s1]).

(** *** Gather and the sampling actions *)

Definition hasSampleInMid (s : Engine) : bool :=
  existsb (fun i => 0 <? ta_get0 (midCounts s) i) colRange.

(** [for c: for (r = 0; r < (counts[c] || 0); r++) list.push((c + 0.5) / COLS)] *)
Definition expandCounts (counts : list Z) : list Q :=
  flat_map (fun c => repeat (colValue c) (Z.to_nat (ta_get0 counts c))) colRange.

Definition calculateWithGather (now : Q) (s : Engine) : Engine :=
  let xs := lastSample s in
  let hasMid := hasSampleInMid s in
  if negb (nonemptyb xs) && negb hasMid then s
  else
    let sample := if nonemptyb xs then xs else expandCounts (midCounts s) in
    let s1 := set_lastGatheringSample (Some sample) s in
    let val := computeStat s1 sample in
    let bin := binOf val (statDomain s1) in
    let binCenterX :=
      nadd (nadd (Num (gridX0 s)) (nmul bin (Num (BOX s)))) (Num (BOX s / 2)) in
    let gatherY := (marginY s + H_TOP s + H_MID s / 2)%Q in
    let midBase := (marginY s + H_TOP s + H_MID s - 16)%Q in
    let stackOf (c : Z) : list GatherParticle :=
      map (fun r =>
             let startY :=
               (midBase - inject_Z (Z.of_nat r) * BOX_MID_Y s - BOX_MID_Y s / 2)%Q in
             let startX := colCenter s c in
             mkGather startX startY (Num startX) (Num startY))
          (seq 0 (Z.to_nat (ta_get0 (midCounts s) c))) in
    set_lastSample []
      (set_gatherStart now
         (set_gathering true
            (set_gatherTarget (Some (mkTarget binCenterX gatherY bin))
               (set_midCounts (zeros COLS)
                  (set_gatherParticles (flat_map stackOf colRange) s1))))).

(** Returns the engine after the call and the timer it leaves pending. *)
Definition drawSampleWithAutoCalculate (n : nat) (dropMs now : Q) (s : Engine)
  : Engine * option Timer :=
  if nonemptyb (lastSample s) || hasSampleInMid s
  then (calculateWithGather now s, Some (mkTimer (now + 100) n dropMs))
  else (startSample n dropMs now s, None).

Definition clearTray (s : Engine) : Engine :=
  set_needsRedraw true
    (updateLines
       (set_gathering false
          (set_gatherParticles []
             (set_emissionPlan None
                (set_sampleParticles []
                   (set_lastSample [] (set_midCounts (zeros COLS) s))))))).

Definition resetExperiment (s : Engine) : Engine :=
  set_needsRedraw true
    (updateLines (set_statParticles [] (set_botCounts (zeros STAT_BINS) s))).

(** One iteration of the loop of [handleRepeatTurbo]. *)
Definition turboStep (n : nat) (s : Engine) : Engine :=
  let '((xs, _), s1) := sampleN n s in
  let v := computeStat s1 xs in
  let bin := binOf v (statDomain s1) in
  set_botCounts
    (ta_setN toUint32 (botCounts s1) bin (ta_getN0 (botCounts s1) bin + 1)) s1.

Definition handleRepeatTurbo (n : nat) (s : Engine) : Engine :=
  set_needsRedraw true (updateLines (Nat.iter 1000 (turboStep n) s)).

(** *** Control handlers of [setupControls] and the frame loop *)

Definition onStatisticChange (value : Statistic) (s : Engine) : Engine :=
  set_needsRedraw true (updateLines (set_statistic value s)).

Definition onThresholdInput (value : Q) (s : Engine) : Engine :=
  set_needsRedraw true (updateLines (set_threshold value s)).

Definition onParamLineChange (checked : bool) (s : Engine) : Engine :=
  set_needsRedraw true (set_showParamLine checked s).

Definition onNormalFitChange (checked : bool) (s : Engine) : Engine :=
  set_needsRedraw true (set_showNormalFit checked s).

Definition onSpeedChange (value : Speed) (s : Engine) : Engine :=
  set_speed value s.

Definition onSeedInput (seed : Z) (s : Engine) : Engine :=
  set_rng (rngMulberry32 seed) s.

(** The sample size [n] of the handlers is the integer read from the
    slider. *)
Definition onDrawSampleClick (n : Z) (now : Q) (s : Engine)
  : Engine * option Timer :=
  if valid (validateSampleSize (Num (inject_Z n)))
  then drawSampleWithAutoCalculate (Z.to_nat n) 1200 now s
  else (s, None).

Definition onRepeat1000Click (n : Z) (s : Engine) : Engine :=
  if valid (validateSampleSize (Num (inject_Z n)))
  then handleRepeatTurbo (Z.to_nat n) s
  else s.

Definition onResetClick (s : Engine) : Engine :=
  resetExperiment (clearTray s).

(** One turn of [animate]: [tick], then [draw] when the host test passes. *)
Definition animate (dt currentTime : Q) (s : Engine) : Engine * list CanvasOp :=
  let s1 := tick dt currentTime s in
  if needsRedraw s1 || hasActiveAnimations s1 then draw s1 else (s1, []).

Definition perform (a : Action) (s : Engine) : Engine :=
  match a with
  | AResetGeometry w t m b => resetGeometry w t m b s
  | ALayoutFromViewport w h => layoutFromViewport w h s
  | AApplyGenerator name => applyGenerator name s
  | AUpdateLines => updateLines s
  | AClickPopulation x y => clickPopulation x y s
  | AAltClickPopulation x y => altClickPopulation x y s
  | AStartSample n dropMs now => startSample n dropMs now s
  | ACalculateWithGather now => calculateWithGather now s
  | ADrawSampleWithAutoCalculate n dropMs now =>
      fst (drawSampleWithAutoCalculate n dropMs now s)
  | AClearTray => clearTray s
  | AResetExperiment => resetExperiment s
  | AHandleRepeatTurbo n => handleRepeatTurbo n s
  | ATick dt now => tick dt now s
  | AStatisticChange v => onStatisticChange v s
  | AThresholdInput v => onThresholdInput v s
  | AParamLineChange b => onParamLineChange b s
  | ANormalFitChange b => onNormalFitChange b s
  | ASpeedChange v => onSpeedChange v s
  | ASeedInput z => onSeedInput z s
  end.

(** *** The engine with its pending timers *)

Record World : Type := mkWorld {
  engine : Engine;
  timers : list Timer
}.

Inductive Event : Type :=
| EvDrawSample (n : nat) (dropMs : Q) (now : Q)
| EvTimers (now : Q)
| EvFrame (dt : Q) (now : Q).

(** Run the callbacks of the timers that are due at [now], oldest first. *)
Fixpoint fireTimers (now : Q) (ts : list Timer) (s : Engine)
  : Engine * list Timer :=
  match ts with
  | [] => (s, [])
  | t :: r =>
      if Qle_bool (timer_due t) now
      then fireTimers now r (startSample (timer_n t) (timer_dropMs t) now s)
      else
        let '(s', r') := fireTimers now r s in
        (s', t :: r')
  end.

Definition step (w : World) (e : Event) : World :=
  match e with
  | EvDrawSample n dropMs now =>
      let '(s, t) := drawSampleWithAutoCalculate n dropMs now (engine w) in
      mkWorld s (timers w ++ match t with Some x => [x] | None => [] end)
  | EvTimers now =>
      let '(s, ts) := fireTimers now (timers w) (engine w) in
      mkWorld s ts
  | EvFrame dt now =>
      mkWorld (fst (animate dt now (engine w))) (timers w)
  end.

Definition run (w : World) (es : list Event) : World := fold_left step es w.

End EngineOps.

(* ================================================================== *)
(** ** Instances used to run the model on concrete inputs *)
(* ================================================================== *)

(** A rational square root (20 fractional bits), a stand-in for
    [Math.sqrt] when the model is evaluated. *)
Definition sqrtQ (q : Q) : Q :=
  Z.sqrt (Qnum q * 2 ^ 40 / Zpos (Qden q)) # (2 ^ 20).

(** Stand-ins for [Math.exp] and [Math.log]: their first-order
    expansions around 0 and 1. *)
Definition expQ (q : Q) : Q := Qmax 0 (1 + q).
Definition logQ (q : Q) : Q := (q - 1)%Q.

(** The engine of the page right after [mount]: constructed, then
    [applyGenerator('uniform')]-like flat population of weight 20. *)
Definition flatEngine : Engine :=
  applyGenerator sqrtQ expQ logQ GenUniform (newEngine true).

(** Well-formed engine states: the three typed arrays have the length
    they are created with, and every column carried by a particle or by
    the emission plan is a population column.  On these states every
    array read of the loops over [c < COLS] and every read at a particle
    column is a read inside the array, so [ta_get0] is the cell itself. *)
Definition colOk (c : Z) : Prop := 0 <= c <= COLS - 1.

Definition wellFormed (s : Engine) : Prop :=
  length (popCounts s) = Z.to_nat COLS
  /\ length (midCounts s) = Z.to_nat COLS
  /\ length (botCounts s) = Z.to_nat STAT_BINS
  /\ Forall colOk (map sp_col (sampleParticles s))
  /\ (forall p, emissionPlan s = Some p -> Forall colOk (p_cols p)).

(** The engine after its first rendered frame, and the same engine with
    an emission of 30 particles just scheduled at time 0. *)
Definition readyEngine : Engine := fst (draw flatEngine).

Definition busyEngine : Engine := startSample 30 1200 0 readyEngine.

(** [k] frames of the host loop, 50 ms apart, the first at time [from]. *)
Definition framesFrom (k : nat) (from : Z) : list Event :=
  map (fun i => EvFrame (1 # 20) (inject_Z (from + 50 * Z.of_nat i)))
      (seq 0 k).

(** Two sampling requests issued back to back at time 0, two frames, the
    100 ms timer, then [k] more frames. *)
Definition backToBack (n k : nat) : list Event :=
  [EvDrawSample n 1200 0; EvDrawSample n 1200 0;
   EvFrame (1 # 20) 50; EvFrame (1 # 20) 100; EvTimers 100]
  ++ framesFrom k 150.

(** Instant resolution of the active operation by a sampling request
    that takes the engine from [s] to [s']: the sampling distribution is
    already one count larger and nothing of the operation that was active
    is left pending. *)
Definition resolvedInstantly (s s' : Engine) : Prop :=
  sumZ (botCounts s') = sumZ (botCounts s) + 1
  /\ gathering s' = false
  /\ statParticles s' = []
  /\ emissionPlan s' <> emissionPlan s.

(** Events other than a sampling request: timers and frames. *)
Definition quietEvent (e : Event) : bool :=
  match e with EvDrawSample _ _ _ => false | _ => true end.

(** The part of the engine the gather animation and the statistic
    particles work on. *)
Definition gatherState (s : Engine)
  : bool * option GatherTarget * list StatParticle * list Z :=
  (gathering s, gatherTarget s, statParticles s, botCounts s).

(** The stages of a gather that is to count one statistic into [bin] on
    top of the sampling distribution [B0]: the gather animation runs;
    its statistic particle falls; the particle has been counted. *)
Inductive GatherStage (bin : num) (B0 : list Z) (s : Engine) : Prop :=
| StageGathering (gt : GatherTarget) :
    gathering s = true -> gatherTarget s = Some gt -> gt_bin gt = bin ->
    statParticles s = [] -> botCounts s = B0 -> GatherStage bin B0 s
| StageFalling (p : StatParticle) :
    gathering s = false -> statParticles s = [p] -> st_bin p = bin ->
    botCounts s = B0 -> GatherStage bin B0 s
| StageCounted :
    gathering s = false -> statParticles s = [] ->
    botCounts s = ta_setN toUint32 B0 bin (ta_getN0 B0 bin + 1) ->
    GatherStage bin B0 s.

(** A bound on the relative error of a few double operations in a
    row: [1 + 2^-40]. *)
Definition ROUNDING_SLACK : Q := 1 + (1 # 1099511627776).

(** An operation that raises the dirty flag whenever it changes the
    engine. *)
Definition setsFlagIfChanges (op : Engine -> Engine) : Prop :=
  forall s : Engine, op s = s \/ needsRedraw (op s) = true.

(* ================================================================== *)
(** ** Further definitions: label placement and conserved quantities *)
(* ================================================================== *)

(** *** [getSmartLabelPosition] *)

Inductive Align : Type := AlignLeft | AlignRight.

(** [{ x, align }] *)
Record LabelPosition : Type := mkLabel {
  lp_x : num;
  lp_align : Align
}.

Inductive LineType : Type := LtParameter | LtSample | LtSampling.

(** A line field used as a number: [null] counts as 0. *)
Definition numOfNull (o : option num) : num := default (Num 0) o.

Definition getSmartLabelPosition (s : Engine) (currentLine : Line)
    (lineType : LineType) : LabelPosition :=
  let padding := Num 8 in
  let x := numOfNull (line_x currentLine) in
  let position := mkLabel (nadd x padding) AlignLeft in
  let position :=
    match lineType with
    | LtParameter => position
    | _ =>
        if line_visible (parameter (lines s)) then
          if nlt (numOfNull (line_value (parameter (lines s))))
                 (numOfNull (line_value currentLine))
          then mkLabel (nadd x padding) AlignLeft
          else mkLabel (nsub x padding) AlignRight
        else position
    end in
  let minX := gridX0 s in
  let maxX := (gridX0 s + gridW s)%Q in
  match lp_align position with
  | AlignLeft =>
      if nlt (Num (maxX - 30)) (lp_x position)
      then mkLabel (nsub x padding) AlignRight
      else position
  | AlignRight =>
      if nlt (lp_x position) (Num (minX + 30))
      then mkLabel (nadd x padding) AlignLeft
      else position
  end.

(** *** Quantities the properties below are stated with *)

(** Cumulative weight of the columns before [c]. *)
Definition prefixWeight (weights : list Z) (c : Z) : Z :=
  sumCols weights 0 (Z.to_nat c).

(** Particles an emission plan has still to release. *)
Definition pendingEmission (s : Engine) : nat :=
  match emissionPlan s with
  | Some p => (p_total p - p_emitted p)%nat
  | None => O
  end.

(** Every particle of the current sample, wherever it is: counted in
    the sample histogram, in the air, or not yet released. *)
Definition sampleMass (s : Engine) : Z :=
  sumZ (midCounts s) + Z.of_nat (length (sampleParticles s))
  + Z.of_nat (pendingEmission s).

(** The height a particle released at [sp] would have after [k] ticks of
    length [dt] if nothing stopped it. *)
Definition freeFall (g dt : Q) (sp : SampleParticle) (k : nat) : Q :=
  let n := inject_Z (Z.of_nat k) in
  (sp_y sp + n * (sp_vy sp * dt) + n * (n + 1) / 2 * (g * dt * dt))%Q.

(* ================================================================== *)
(** ** Properties: the seeded generator and sampleN *)
(* ================================================================== *)

Lemma Qle_bool_true (x y : Q) : Qle_bool x y = true <-> (x <= y)%Q.
Proof. apply Qle_bool_iff. Qed.

Lemma Qle_bool_false (x y : Q) : Qle_bool x y = false <-> (y < x)%Q.
Proof.
  split; intro H.
  - apply Qnot_le_lt. intro C. apply Qle_bool_iff in C. congruence.
  - destruct (Qle_bool x y) eqn:E; [|reflexivity].
    apply Qle_bool_iff in E. exfalso. apply (Qlt_not_le _ _ H E).
Qed.

Lemma Qltb_true (x y : Q) : Qltb x y = true <-> (x < y)%Q.
Proof.
  unfold Qltb. rewrite negb_true_iff. apply Qle_bool_false.
Qed.

Lemma Qltb_false (x y : Q) : Qltb x y = false <-> (y <= x)%Q.
Proof.
  unfold Qltb. rewrite negb_false_iff. apply Qle_bool_true.
Qed.

Lemma toUint32_range (z : Z) : 0 <= toUint32 z < 4294967296.
Proof. unfold toUint32. apply Z.mod_pos_bound. lia. Qed.

Lemma ushr0_range (z : Z) : 0 <= ushr z 0 < 4294967296.
Proof. unfold ushr. rewrite Z.shiftr_0_r. apply toUint32_range. Qed.

Lemma rng_output_range (t : Z) : (0 <= rng_output t < 1)%Q.
Proof.
  unfold rng_output.
  match goal with |- context [inject_Z ?k] => set (k0 := k) end.
  assert (Hk : 0 <= k0 < 4294967296) by apply ushr0_range.
  split.
  - apply Qle_shift_div_l; [reflexivity|].
    rewrite Qmult_0_l. change 0%Q with (inject_Z 0).
    rewrite <- Zle_Qle. lia.
  - apply Qlt_shift_div_r; [reflexivity|].
    rewrite Qmult_1_l. change 4294967296%Q with (inject_Z 4294967296).
    rewrite <- Zlt_Qlt. lia.
Qed.

Lemma rngStream_range (n : nat) (t : Z) :
  Forall (fun u => (0 <= u < 1)%Q) (rngStream n t).
Proof.
  revert t. induction n as [|n IH]; intro t; simpl.
  - constructor.
  - constructor; [apply rng_output_range | apply IH].
Qed.

Lemma rngStream_length (n : nat) (t : Z) : length (rngStream n t) = n.
Proof.
  revert t. induction n as [|n IH]; intro t; simpl; [reflexivity|].
  now rewrite IH.
Qed.

(** The sampling loop consumes exactly the first [n] generator outputs,
    one per element, and leaves the closure [n] steps further. *)
Lemma sampleLoop_spec (weights : list Z) (total : Z) (n : nat) (t : Z) :
  sampleLoop weights total n t =
  (map colValue (map (pickCol weights total) (rngStream n t)),
   map (pickCol weights total) (rngStream n t),
   Nat.iter n rng_advance t).
Proof.
  revert t. induction n as [|n IH]; intro t.
  - reflexivity.
  - cbn [sampleLoop rngStream rng_call]. rewrite IH.
    rewrite Nat.iter_succ_r. reflexivity.
Qed.

Lemma roundToDouble_exact (z : Z) : Z.abs z < 2 ^ 53 -> roundToDouble z = z.
Proof.
  intro H. unfold roundToDouble. cbv zeta.
  destruct (Z.ltb_spec (Z.abs z) (2 ^ 53)) as [_|C]; [reflexivity | lia].
Qed.

(** While the closure variable stays below 2^53 the additions are exact. *)
Lemma iter_rng_advance (n : nat) (t : Z) :
  0 <= t -> t + Z.of_nat n * 1831565813 < 2 ^ 53 ->
  Nat.iter n rng_advance t = t + Z.of_nat n * 1831565813.
Proof.
  intro H0. induction n as [|n IH]; intro Hb.
  - simpl. lia.
  - rewrite Nat.iter_succ, IH by lia. unfold rng_advance.
    rewrite roundToDouble_exact; lia.
Qed.

Lemma scanCols_range (target : Q) (weights : list Z) (k : nat) :
  forall c acc c',
    scanCols target weights c acc k = Some c' -> c <= c' < c + Z.of_nat k.
Proof.
  induction k as [|k IH]; intros c acc c' H; simpl in H.
  - discriminate.
  - destruct (Qle_bool target (inject_Z (acc + ta_get0 weights c))).
    + injection H as <-. lia.
    + apply IH in H. lia.
Qed.

Lemma chooseCol_range (target : Q) (weights : list Z) :
  0 <= chooseCol target weights <= COLS - 1.
Proof.
  unfold chooseCol.
  destruct (scanCols target weights 0 0 (Z.to_nat COLS)) as [c|] eqn:E.
  - apply scanCols_range in E. simpl. unfold COLS in *. lia.
  - simpl. unfold COLS. rewrite Z.shiftr_div_pow2 by lia.
    change (60 / 2 ^ 1) with 30. lia.
Qed.

Lemma floor_scaled_range (u : Q) :
  (0 <= u < 1)%Q -> 0 <= Qfloor (u * inject_Z COLS) <= COLS - 1.
Proof.
  intros [H0 H1]. unfold COLS.
  change (inject_Z 60) with 60%Q.
  split.
  - change 0 with (Qfloor (inject_Z 0)) at 1.
    apply Qfloor_resp_le. change (inject_Z 0) with 0%Q. lra.
  - assert (H : (inject_Z (Qfloor (u * 60)) < inject_Z 60)%Q).
    { apply Qle_lt_trans with (u * 60)%Q; [apply Qfloor_le|].
      change (inject_Z 60) with 60%Q. lra. }
    rewrite <- Zlt_Qlt in H. lia.
Qed.

Lemma pickCol_range (weights : list Z) (total : Z) (u : Q) :
  (0 <= u < 1)%Q -> 0 <= pickCol weights total u <= COLS - 1.
Proof.
  intro Hu. unfold pickCol. destruct (total =? 0).
  - now apply floor_scaled_range.
  - apply chooseCol_range.
Qed.

Lemma colValue_range (c : Z) :
  0 <= c <= COLS - 1 -> (0 < colValue c < 1)%Q.
Proof.
  unfold colValue, COLS. intros [H0 H1].
  change (inject_Z 60) with 60%Q.
  assert (A : (0 <= inject_Z c)%Q).
  { change 0%Q with (inject_Z 0). rewrite <- Zle_Qle. lia. }
  assert (B : (inject_Z c <= 59)%Q).
  { change 59%Q with (inject_Z 59). rewrite <- Zle_Qle. lia. }
  revert A B. generalize (inject_Z c). intros q A B.
  split.
  - apply Qlt_shift_div_l; [reflexivity|]. lra.
  - apply Qlt_shift_div_r; [reflexivity|]. lra.
Qed.

Lemma sampleN_result (n : nat) (s : Engine) :
  sampleN n s =
  (map colValue
       (map (pickCol (popCounts s) (totalWeight (popCounts s)))
            (rngStream n (rng s))),
   map (pickCol (popCounts s) (totalWeight (popCounts s)))
       (rngStream n (rng s)),
   set_rng (Nat.iter n rng_advance (rng s)) s).
Proof.
  unfold sampleN. rewrite sampleLoop_spec. reflexivity.
Qed.

(** C1. For a fixed seed, population weight array and [n], two runs of
    [sampleN] from freshly seeded engines return the same value sequence
    and the same bin-index sequence; each run leaves the generator exactly
    [n] calls further, the i-th drawn element being computed from the i-th
    generator output (in the weighted and in the zero-total branch, both
    covered by [pickCol]).  As long as the closure variable stays below
    2^53 (at least the first 4917756 draws after seeding) the [n] calls
    are [n] exact additions of 0x6D2B79F5; beyond, each addition is
    rounded to a double, and the runs still agree. *)
Theorem sampleN_deterministic :
  forall (seed : Z) (weights : list Z) (n : nat) (e1 e2 : Engine),
    rng e1 = rngMulberry32 seed -> rng e2 = rngMulberry32 seed ->
    popCounts e1 = weights -> popCounts e2 = weights ->
    fst (sampleN n e1) = fst (sampleN n e2)
    /\ rng (snd (sampleN n e1)) = Nat.iter n rng_advance (rngMulberry32 seed)
    /\ rng (snd (sampleN n e2)) = Nat.iter n rng_advance (rngMulberry32 seed)
    /\ (rngMulberry32 seed + Z.of_nat n * 1831565813 < 2 ^ 53 ->
        Nat.iter n rng_advance (rngMulberry32 seed)
        = rngMulberry32 seed + Z.of_nat n * 1831565813)
    /\ (Z.of_nat n <= 4917756 ->
        rngMulberry32 seed + Z.of_nat n * 1831565813 < 2 ^ 53)
    /\ snd (fst (sampleN n e1))
       = map (pickCol weights (totalWeight weights))
             (rngStream n (rngMulberry32 seed))
    /\ length (fst (fst (sampleN n e1))) = n
    /\ length (snd (fst (sampleN n e1))) = n.
Proof.
  intros seed weights n e1 e2 R1 R2 P1 P2.
  rewrite !sampleN_result. cbn [fst snd rng set_rng].
  rewrite R1, R2, P1, P2.
  pose proof (ushr0_range seed) as Hs. fold (rngMulberry32 seed) in Hs.
  split; [reflexivity|]. split; [reflexivity|]. split; [reflexivity|].
  split; [intro Hb; apply iter_rng_advance; [lia | exact Hb]|].
  split; [intro Hn; lia|].
  split; [reflexivity|].
  split.
  - rewrite !length_map. apply rngStream_length.
  - rewrite length_map. apply rngStream_length.
Qed.

Lemma sampleN_deterministic_witness :
  fst (sampleN 5 flatEngine) = fst (sampleN 5 (onSpeedChange SpeedFast flatEngine))
  /\ rng (snd (sampleN 5 flatEngine)) = rngMulberry32 1234 + 5 * 1831565813.
Proof.
  destruct (sampleN_deterministic 1234 (popCounts flatEngine) 5 flatEngine
              (onSpeedChange SpeedFast flatEngine)
              eq_refl eq_refl eq_refl eq_refl)
    as (H1 & H2 & _ & H4 & _).
  split; [exact H1|]. rewrite H2. apply H4. reflexivity.
Defined.

(** The first rounded addition after seed 1234: the exact sum
    9007199260974301 is not a double and becomes 9007199260974300. *)
Example rng_advance_rounds_past_2_53 :
  rng_advance (1234 + 4917758 * 1831565813) = 9007199260974300
  /\ 1234 + 4917759 * 1831565813 = 9007199260974301.
Proof. split; reflexivity. Qed.



(* ================================================================== *)
(** ** Properties: statistics and validation *)
(* ================================================================== *)

Lemma Qsquare_nonneg (d : Q) : (0 <= d * d)%Q.
Proof.
  destruct (Qlt_le_dec d 0) as [N|P].
  - assert (E : (d * d == (- d) * (- d))%Q) by ring.
    rewrite E. apply Qmult_le_0_compat; lra.
  - now apply Qmult_le_0_compat.
Qed.

Lemma overflow_nonneg (q : Q) :
  (0 <= q)%Q -> overflow (Num q) = Inf true \/ overflow (Num q) = Num q.
Proof.
  intro H. unfold overflow.
  destruct (Qle_bool DBL_OVERFLOW (Qabs q)) eqn:E; [left | now right].
  apply Qle_bool_true in E. rewrite Qabs_pos in E by exact H.
  assert (D : (0 < DBL_OVERFLOW)%Q) by reflexivity.
  assert (F : Qltb 0 q = true) by (apply Qltb_true; lra).
  now rewrite F.
Qed.

Lemma overflow_Num_inv (x : num) (q : Q) : overflow x = Num q -> x = Num q.
Proof.
  destruct x as [| b | r]; cbn [overflow]; try discriminate.
  destruct (Qle_bool DBL_OVERFLOW (Qabs r)); [discriminate | exact id].
Qed.

(** One squared deviation: infinite when the subtraction or the square
    overflows, the exact square otherwise. *)
Lemma sqdev_term (m x : Q) :
  let d := overflow (nsub (Num x) (Num m)) in
  overflow (nmul d d) = Inf true
  \/ overflow (nmul d d) = Num ((x - m) * (x - m)).
Proof.
  cbv zeta. change (nsub (Num x) (Num m)) with (Num (x - m)).
  destruct (overflow (Num (x - m))) as [| b | r] eqn:E.
  - unfold overflow in E.
    destruct (Qle_bool DBL_OVERFLOW (Qabs (x - m))); discriminate.
  - left. cbn [nmul overflow]. now destruct b.
  - apply overflow_Num_inv in E. injection E as ->.
    cbn [nmul]. apply overflow_nonneg, Qsquare_nonneg.
Qed.

Lemma sqdev_Inf (m : Q) (a : list Q) : sqdev (Num m) a (Inf true) = Inf true.
Proof.
  induction a as [|x r IH]; [reflexivity|]. cbn [sqdev]. cbv zeta.
  destruct (sqdev_term m x) as [E|E]; cbv zeta in E; rewrite E; exact IH.
Qed.

(** The accumulation loop computes the sum of the squared deviations,
    unless an operation overflows: then it yields [Infinity]. *)
Lemma sqdev_sum (m : Q) (a : list Q) :
  forall s2 : Q,
    (0 <= s2)%Q ->
    sqdev (Num m) a (Num s2) = Inf true
    \/ exists r : Q,
         sqdev (Num m) a (Num s2) = Num r
         /\ (r == s2 + fold_right (fun x acc => (x - m) * (x - m) + acc) 0 a)%Q.
Proof.
  induction a as [|x r IH]; intros s2 H.
  - right. exists s2. split; [reflexivity | cbn [fold_right]; ring].
  - cbn [sqdev]. cbv zeta.
    destruct (sqdev_term m x) as [E|E]; cbv zeta in E; rewrite E.
    + left. cbn [nadd overflow]. apply sqdev_Inf.
    + cbn [nadd].
      pose proof (Qsquare_nonneg (x - m)) as S.
      destruct (overflow_nonneg (s2 + (x - m) * (x - m))) as [F|F];
        [lra | |]; rewrite F.
      * left. apply sqdev_Inf.
      * destruct (IH (s2 + (x - m) * (x - m))%Q) as [G|(r' & G & Hr)]; [lra | |].
        -- now left.
        -- right. exists r'. split; [exact G|].
           rewrite Hr. cbn [fold_right]. ring.
Qed.

Lemma sqdev_sum_nonneg (m : Q) (a : list Q) :
  (0 <= fold_right (fun x acc => (x - m) * (x - m) + acc) 0 a)%Q.
Proof.
  induction a as [|x r IH]; cbn [fold_right]; [apply Qle_refl|].
  pose proof (Qsquare_nonneg (x - m)). lra.
Qed.

Lemma mean_nonempty (a : list Q) :
  a <> [] -> mean a = Num (sumQ a / inject_Z (Z.of_nat (length a))).
Proof. destruct a; [congruence|reflexivity]. Qed.

(** From two elements on the variance is the two-pass quotient, or
    [Infinity] when the accumulation overflows. *)
Lemma variance_of_two_or_more (a : list Q) (m : Q) :
  (2 <= length a)%nat ->
  mean a = Num m ->
  let n := Z.of_nat (length a) in
  varianceUnbiased a = Inf true
  \/ exists s2 : Q,
       sqdev (Num m) a (Num 0) = Num s2
       /\ (s2 == fold_right (fun x acc => (x - m) * (x - m) + acc) 0 a)%Q
       /\ varianceUnbiased a = Num (s2 / inject_Z (n - 1))
       /\ (0 <= s2 / inject_Z (n - 1))%Q.
Proof.
  intros Hlen Hm n.
  assert (P : (0 < inject_Z (n - 1))%Q).
  { change 0%Q with (inject_Z 0). rewrite <- Zlt_Qlt. subst n. lia. }
  unfold varianceUnbiased. fold n. cbv zeta.
  destruct (Z.ltb_spec n 2) as [C|_]; [subst n; lia|].
  rewrite Hm.
  destruct (sqdev_sum m a 0 (Qle_refl 0)) as [E|(r & E & Hr)]; rewrite E.
  - left. cbn [ndiv].
    assert (F : Qle_bool 0 (inject_Z (n - 1)) = true)
      by (apply Qle_bool_true; lra).
    now rewrite F.
  - right. exists r. split; [reflexivity|].
    split; [rewrite Hr; ring|].
    split.
    + cbn [ndiv].
      destruct (Qeq_bool (inject_Z (n - 1)) 0) eqn:F; [|reflexivity].
      apply Qeq_bool_eq in F. lra.
    + apply Qle_shift_div_l; [exact P|].
      rewrite Qmult_0_l, Hr. pose proof (sqdev_sum_nonneg m a). lra.
Qed.

Lemma robustSD_is_number (sqrt : Q -> Q) (a : list Q) :
  exists q, robustSD sqrt a = Num q.
Proof.
  unfold robustSD. destruct (varianceUnbiased a) as [| b | q]; simpl.
  - now exists 0%Q.
  - now exists 0%Q.
  - destruct (Qle_bool 0 q) eqn:E.
    + apply Qle_bool_true in E.
      assert (F : Qltb q 0 = false) by now apply Qltb_false.
      rewrite F. now exists (sqrt q).
    + now exists 0%Q.
Qed.

(** C3. [robustSD] is 0 (neither NaN nor an exception: it is a total
    function returning a number) whenever the unbiased variance is
    undefined (every input shorter than 2, in particular [[]] and
    [[x]]) or fails the test [isFinite(v) && v >= 0], as it does when
    the squared deviations overflow to [Infinity].  For an input of
    length at least 2 the variance is never NaN and never negative: it
    is [Infinity], or the two-pass quotient (squared deviations from the
    mean, summed, over [n - 1]); whenever mean and variance are finite
    the variance is that quotient, it is non-negative, and the result
    is its square root. *)
Theorem robustSD_zero_fallback :
  forall sqrt : Q -> Q,
    robustSD sqrt [] = Num 0
    /\ (forall x : Q, robustSD sqrt [x] = Num 0)
    /\ (forall a : list Q,
          (length a < 2)%nat ->
          varianceUnbiased a = NaN /\ robustSD sqrt a = Num 0)
    /\ (forall a : list Q,
          isFinite (varianceUnbiased a) = false
          \/ nle (Num 0) (varianceUnbiased a) = false ->
          robustSD sqrt a = Num 0)
    /\ (forall a : list Q, exists q : Q, robustSD sqrt a = Num q)
    /\ (forall a : list Q,
          (2 <= length a)%nat ->
          varianceUnbiased a = Inf true
          \/ exists v : Q, varianceUnbiased a = Num v /\ (0 <= v)%Q)
    /\ (forall (a : list Q) (m v : Q),
          (2 <= length a)%nat ->
          mean a = Num m ->
          varianceUnbiased a = Num v ->
          (exists s2 : Q,
              sqdev (Num m) a (Num 0) = Num s2
              /\ (s2 == fold_right (fun x acc => (x - m) * (x - m) + acc) 0 a)%Q
              /\ v = (s2 / inject_Z (Z.of_nat (length a) - 1))%Q)
          /\ (0 <= v)%Q
          /\ robustSD sqrt a = Num (sqrt v)).
Proof.
  intro sqrt.
  assert (Hshort : forall a : list Q, (length a < 2)%nat ->
            varianceUnbiased a = NaN /\ robustSD sqrt a = Num 0).
  { intros a Hlen.
    assert (V : varianceUnbiased a = NaN).
    { unfold varianceUnbiased.
      destruct (Z.ltb_spec (Z.of_nat (length a)) 2); [reflexivity|lia]. }
    split; [exact V|]. unfold robustSD. now rewrite V. }
  split; [apply Hshort; simpl; lia|].
  split; [intro x; apply Hshort; simpl; lia|].
  split; [exact Hshort|].
  split.
  { intros a [H|H]; unfold robustSD; rewrite H;
      [reflexivity | now rewrite andb_false_r]. }
  split; [apply robustSD_is_number|].
  split.
  - intros a Hlen.
    assert (Hm : mean a = Num (sumQ a / inject_Z (Z.of_nat (length a)))).
    { apply mean_nonempty. destruct a; simpl in Hlen; [lia|congruence]. }
    destruct (variance_of_two_or_more a _ Hlen Hm) as [E|(s2 & _ & _ & E & P)].
    + now left.
    + right. eauto.
  - intros a m v Hlen Hm Hv.
    destruct (variance_of_two_or_more a m Hlen Hm) as [E|(s2 & S1 & S2 & E & P)];
      [congruence|].
    assert (V : v = (s2 / inject_Z (Z.of_nat (length a) - 1))%Q) by congruence.
    split; [exists s2; auto|].
    rewrite <- V in P. split; [exact P|].
    unfold robustSD. rewrite Hv. simpl.
    assert (E1 : Qle_bool 0 v = true) by now apply Qle_bool_true.
    assert (F : Qltb v 0 = false) by now apply Qltb_false.
    now rewrite E1, F.
Qed.

Lemma robustSD_zero_fallback_witness :
  robustSD sqrtQ [1 # 2] = Num 0
  /\ varianceUnbiased [inject_Z (10 ^ 200); inject_Z (- 10 ^ 200)] = Inf true
  /\ robustSD sqrtQ [inject_Z (10 ^ 200); inject_Z (- 10 ^ 200)] = Num 0
  /\ robustSD sqrtQ [1 # 2; 3 # 2] = Num (sqrtQ (32768 # 65536)).
Proof.
  destruct (robustSD_zero_fallback sqrtQ) as (_ & _ & Hs & Hf & _ & _ & Hl).
  split; [apply Hf; left; reflexivity|].
  split; [vm_compute; reflexivity|].
  split; [apply Hf; left; vm_compute; reflexivity|].
  refine (proj2 (proj2 (Hl [1 # 2; 3 # 2] _ _ _ eq_refl eq_refl)));
    simpl; lia.
Defined.

(** C9. For every statistic kind, [computeStat] of the empty sequence is
    NaN: the guard [!xs.length] precedes the dispatch, so this holds for
    kind [sd] too although [robustSD([])] is 0. *)
Theorem computeStat_empty_is_NaN :
  forall (sqrt : Q -> Q) (kind : Statistic) (s : Engine),
    computeStat sqrt (set_statistic kind s) [] = NaN
    /\ computeStat sqrt s [] = NaN
    /\ computeStat sqrt (set_statistic Sd s) [] = NaN
    /\ robustSD sqrt [] = Num 0.
Proof.
  intros sqrt kind s. repeat split.
Qed.

(** C8. [validateSampleSize(n)] fails exactly when [n < 2] or [n > 1000]
    and succeeds on every [n] in [2, 1000].  It is a function of [n]
    alone; the handlers that call it leave the engine untouched and set
    no timer when it fails. *)
Theorem validateSampleSize_spec :
  (forall n : num,
      valid (validateSampleSize n) = false
      <-> (nlt n (Num 2) = true \/ nlt (Num 1000) n = true))
  /\ (forall q : Q, (2 <= q <= 1000)%Q -> validateSampleSize (Num q) = Valid)
  /\ (forall q : Q,
        (q < 2)%Q \/ (1000 < q)%Q -> valid (validateSampleSize (Num q)) = false)
  /\ (forall (sqrt : Q -> Q) (n : Z) (now : Q) (s : Engine),
        valid (validateSampleSize (Num (inject_Z n))) = false ->
        onDrawSampleClick sqrt n now s = (s, None)
        /\ onRepeat1000Click sqrt n s = s).
Proof.
  split.
  { intro n. unfold validateSampleSize.
    destruct (nlt n (Num 2)) eqn:A; [simpl; tauto|].
    destruct (nlt (Num 1000) n) eqn:B; simpl; [tauto|].
    split; [discriminate|]. intros [C|C]; discriminate. }
  split.
  { intros q [H2 H1000]. unfold validateSampleSize. simpl.
    assert (A : Qltb q 2 = false) by now apply Qltb_false.
    assert (B : Qltb 1000 q = false) by now apply Qltb_false.
    now rewrite A, B. }
  split.
  { intros q [H|H]; unfold validateSampleSize; simpl.
    - assert (A : Qltb q 2 = true) by now apply Qltb_true.
      now rewrite A.
    - assert (B : Qltb 1000 q = true) by now apply Qltb_true.
      rewrite B. now destruct (Qltb q 2). }
  intros sqrt n now s H.
  unfold onDrawSampleClick, onRepeat1000Click. now rewrite H.
Qed.

Lemma validateSampleSize_spec_witness :
  validateSampleSize (Num 30) = Valid
  /\ valid (validateSampleSize (Num 1)) = false
  /\ valid (validateSampleSize (Num 1001)) = false
  /\ onDrawSampleClick sqrtQ 1 0 flatEngine = (flatEngine, None).
Proof.
  destruct validateSampleSize_spec as (_ & Hv & Hi & Hh).
  split; [apply Hv; split; discriminate|].
  split; [apply Hi; left; reflexivity|].
  split; [apply Hi; right; reflexivity|].
  apply Hh. reflexivity.
Defined.

(* ================================================================== *)
(** ** Properties: the statistic-to-bin mapping *)
(* ================================================================== *)

Lemma clamp_finite (q a b : Q) :
  clamp (Num q) (Num a) (Num b) = Num (Qmax a (Qmin b q)).
Proof.
  unfold clamp, Math_max, Math_min, Qmax, Qmin. simpl.
  destruct (Qle_bool b q); simpl; destruct (Qle_bool a _); reflexivity.
Qed.

Lemma Qmax_spec (a b : Q) : (a <= Qmax a b /\ b <= Qmax a b /\ (Qmax a b = a \/ Qmax a b = b))%Q.
Proof.
  unfold Qmax. destruct (Qle_bool a b) eqn:E.
  - apply Qle_bool_true in E. repeat split; auto; lra.
  - apply Qle_bool_false in E. repeat split; auto; lra.
Qed.

Lemma Qmin_spec (a b : Q) : (Qmin a b <= a /\ Qmin a b <= b /\ (Qmin a b = a \/ Qmin a b = b))%Q.
Proof.
  unfold Qmin. destruct (Qle_bool a b) eqn:E.
  - apply Qle_bool_true in E. repeat split; auto; lra.
  - apply Qle_bool_false in E. repeat split; auto; lra.
Qed.

Lemma clampQ_inject (z : Z) :
  Qmax 0 (Qmin 59 (inject_Z z)) = inject_Z (clampZ z 0 59).
Proof.
  unfold Qmax, Qmin, clampZ.
  destruct (Qle_bool 59 (inject_Z z)) eqn:A.
  - apply Qle_bool_true in A. change 59%Q with (inject_Z 59) in A.
    rewrite <- Zle_Qle in A. simpl.
    replace (Z.max 0 (Z.min 59 z)) with 59 by lia. reflexivity.
  - apply Qle_bool_false in A. change 59%Q with (inject_Z 59) in A.
    rewrite <- Zlt_Qlt in A.
    destruct (Qle_bool 0 (inject_Z z)) eqn:B.
    + apply Qle_bool_true in B. change 0%Q with (inject_Z 0) in B.
      rewrite <- Zle_Qle in B. f_equal. lia.
    + apply Qle_bool_false in B. change 0%Q with (inject_Z 0) in B.
      rewrite <- Zlt_Qlt in B.
      replace (Z.max 0 (Z.min 59 z)) with 0 by lia. reflexivity.
Qed.

(** Second stage of binOf on a finite proportion. *)
Lemma bin_stage2 (x : Q) :
  clamp (Math_floor (nmul (Num x) (Num (inject_Z STAT_BINS))))
        (Num 0) (Num (inject_Z (STAT_BINS - 1)))
  = Num (inject_Z (clampZ (Qfloor (x * 60)) 0 59)).
Proof.
  cbn [nmul Math_floor]. rewrite clamp_finite.
  change (inject_Z (STAT_BINS - 1)) with 59%Q.
  change (inject_Z STAT_BINS) with 60%Q.
  now rewrite clampQ_inject.
Qed.

Lemma Qfloor_clamp_mono (x y : Q) :
  (x <= y)%Q -> clampZ (Qfloor (x * 60)) 0 59 <= clampZ (Qfloor (y * 60)) 0 59.
Proof.
  intro H. assert (F : Qfloor (x * 60) <= Qfloor (y * 60)).
  { apply Qfloor_resp_le. lra. }
  unfold clampZ. lia.
Qed.

(** First stage on a finite value, for a positive denominator. *)
Lemma bin_stage1 (q mn D : Q) :
  (0 < D)%Q ->
  clamp (ndiv (nsub (Num q) (Num mn)) (Num D)) (Num 0) (Num 1)
  = Num (Qmax 0 (Qmin 1 ((q + - mn) / D))).
Proof.
  intro HD. cbn [nsub nneg nadd ndiv].
  assert (E : Qeq_bool D 0 = false).
  { destruct (Qeq_bool D 0) eqn:E; [|reflexivity].
    apply Qeq_bool_eq in E. lra. }
  rewrite E. apply clamp_finite.
Qed.

Lemma unit_clamp_range (y : Q) : (0 <= Qmax 0 (Qmin 1 y) <= 1)%Q.
Proof.
  pose proof (Qmax_spec 0 (Qmin 1 y)) as (A & B & [C|C]);
  pose proof (Qmin_spec 1 y) as (A' & B' & _); rewrite C in *; lra.
Qed.

Lemma Qmin_mono (a y y' : Q) : (y <= y')%Q -> (Qmin a y <= Qmin a y')%Q.
Proof.
  intro H. destruct (Qmin_spec a y) as (A & B & _).
  destruct (Qmin_spec a y') as (_ & _ & [C|C]); rewrite C; lra.
Qed.

Lemma Qmax_mono (a y y' : Q) : (y <= y')%Q -> (Qmax a y <= Qmax a y')%Q.
Proof.
  intro H. destruct (Qmax_spec a y') as (A & B & _).
  destruct (Qmax_spec a y) as (_ & _ & [C|C]); rewrite C; lra.
Qed.

Lemma unit_clamp_mono (y y' : Q) :
  (y <= y')%Q -> (Qmax 0 (Qmin 1 y) <= Qmax 0 (Qmin 1 y'))%Q.
Proof. intro H. now apply Qmax_mono, Qmin_mono. Qed.

Lemma Qdiv_le_mono (a b D : Q) : (0 < D)%Q -> (a <= b)%Q -> (a / D <= b / D)%Q.
Proof.
  intros HD H. apply Qle_shift_div_l; [exact HD|].
  assert (E : (a / D * D == a)%Q) by (field; lra).
  rewrite E. exact H.
Qed.

Lemma binOf_finite (q : Q) (d : Domain) :
  (0 < dmax d - dmin d + eps9)%Q ->
  binOf (Num q) d
  = Num (inject_Z
           (clampZ (Qfloor (Qmax 0 (Qmin 1 ((q + - dmin d)
                                            / (dmax d - dmin d + eps9))) * 60))
                   0 59)).
Proof.
  intro HD. unfold binOf. rewrite bin_stage1 by exact HD. apply bin_stage2.
Qed.

Lemma binOf_infinite (b : bool) (d : Domain) :
  (0 < dmax d - dmin d + eps9)%Q ->
  binOf (Inf b) d = Num (inject_Z (if b then 59 else 0)).
Proof.
  intro HD. unfold binOf. cbn [nsub nneg nadd ndiv].
  assert (E : Qle_bool 0 (dmax d - dmin d + eps9) = true).
  { apply Qle_bool_true. lra. }
  rewrite E. destruct b; reflexivity.
Qed.

Lemma clampZ_range (z : Z) : 0 <= clampZ z 0 59 <= 59.
Proof. unfold clampZ. lia. Qed.

Lemma nle_inject (a b : Z) : a <= b -> nle (Num (inject_Z a)) (Num (inject_Z b)) = true.
Proof. intro H. simpl. apply Qle_bool_true. now rewrite <- Zle_Qle. Qed.

(** The bin expression on an arbitrary domain with [min <= max] (in
    fact with a positive denominator [max - min + 1e-9]). *)
Lemma binOf_general (d : Domain) :
  (0 < dmax d - dmin d + eps9)%Q ->
  (forall v, isNaN v = false ->
     exists b, binOf v d = Num (inject_Z b) /\ 0 <= b <= STAT_BINS - 1)
  /\ (forall v1 v2, nle v1 v2 = true -> nle (binOf v1 d) (binOf v2 d) = true)
  /\ (forall v, nle v (Num (dmin d)) = true -> binOf v d = Num 0)
  /\ (forall v, nle (Num (dmax d + eps9)) v = true ->
        binOf v d = Num (inject_Z (STAT_BINS - 1)))
  /\ ((59 * eps9 <= dmax d - dmin d)%Q ->
      forall v, nle (Num (dmax d)) v = true ->
        binOf v d = Num (inject_Z (STAT_BINS - 1))).
Proof.
  intro HD.
  assert (Hrange : forall v, isNaN v = false ->
            exists b, binOf v d = Num (inject_Z b) /\ 0 <= b <= STAT_BINS - 1).
  { intros [| b | q] Hv; [discriminate| |].
    - rewrite binOf_infinite by exact HD. eexists; split; [reflexivity|].
      unfold STAT_BINS, COLS. destruct b; lia.
    - rewrite binOf_finite by exact HD. eexists; split; [reflexivity|].
      apply clampZ_range. }
  assert (Htop : forall q, (59 # 60 <= (q + - dmin d) / (dmax d - dmin d + eps9))%Q ->
            binOf (Num q) d = Num (inject_Z (STAT_BINS - 1))).
  { intros q Hq. rewrite binOf_finite by exact HD. do 2 f_equal.
    set (y := ((q + - dmin d) / (dmax d - dmin d + eps9))%Q) in *.
    assert (X : (59 # 60 <= Qmax 0 (Qmin 1 y))%Q).
    { destruct (Qmax_spec 0 (Qmin 1 y)) as (_ & B & _).
      destruct (Qmin_spec 1 y) as (_ & _ & [C|C]); rewrite C in *; lra. }
    assert (F : 59 <= Qfloor (Qmax 0 (Qmin 1 y) * 60)).
    { change 59 with (Qfloor (inject_Z 59)). apply Qfloor_resp_le.
      change (inject_Z 59) with 59%Q. lra. }
    unfold clampZ, STAT_BINS, COLS. lia. }
  split; [exact Hrange|].
  split.
  { intros v1 v2 Hle.
    destruct v1 as [| b1 | q1]; [discriminate| |];
    destruct v2 as [| b2 | q2];
      try (destruct b1; discriminate); try discriminate.
    - rewrite !binOf_infinite by exact HD. apply nle_inject.
      destruct b1, b2; simpl in Hle; try discriminate; lia.
    - destruct b1; [discriminate|].
      rewrite binOf_infinite, binOf_finite by exact HD.
      apply nle_inject. apply clampZ_range.
    - destruct b2; [|discriminate].
      rewrite binOf_infinite, binOf_finite by exact HD.
      apply nle_inject. apply clampZ_range.
    - rewrite !binOf_finite by exact HD. apply nle_inject.
      simpl in Hle. apply Qle_bool_true in Hle.
      apply Qfloor_clamp_mono, unit_clamp_mono, Qdiv_le_mono; [exact HD|lra]. }
  split.
  { intros [| b | q] Hv; [discriminate| |].
    - destruct b; [discriminate|]. now rewrite binOf_infinite.
    - simpl in Hv. apply Qle_bool_true in Hv.
      rewrite binOf_finite by exact HD.
      set (y := ((q + - dmin d) / (dmax d - dmin d + eps9))%Q).
      assert (Y : (y <= 0)%Q).
      { subst y. apply Qle_shift_div_r; [exact HD|]. lra. }
      assert (X : (Qmax 0 (Qmin 1 y) == 0)%Q).
      { destruct (Qmax_spec 0 (Qmin 1 y)) as (A & _ & [C|C]);
        destruct (Qmin_spec 1 y) as (_ & B & _); rewrite C in *; lra. }
      assert (F : Qfloor (Qmax 0 (Qmin 1 y) * 60) = 0).
      { assert (G : (Qmax 0 (Qmin 1 y) * 60 == inject_Z 0)%Q).
        { rewrite X. reflexivity. }
        rewrite G. apply Qfloor_Z. }
      rewrite F. reflexivity. }
  split.
  { intros [| b | q] Hv; [discriminate| |].
    - destruct b; [|discriminate]. now rewrite binOf_infinite.
    - simpl in Hv. apply Qle_bool_true in Hv. apply Htop.
      apply Qle_shift_div_l; [exact HD|]. unfold eps9 in *. lra. }
  intros Hw [| b | q] Hv; [discriminate| |].
  - destruct b; [|discriminate]. now rewrite binOf_infinite.
  - simpl in Hv. apply Qle_bool_true in Hv. apply Htop.
    apply Qle_shift_div_l; [exact HD|]. unfold eps9 in *. lra.
Qed.

Lemma statDomain_wide (s : Engine) :
  (0 < dmax (statDomain s) - dmin (statDomain s) + eps9)%Q
  /\ (59 * eps9 <= dmax (statDomain s) - dmin (statDomain s))%Q.
Proof.
  unfold statDomain, eps9. destruct (statistic s); simpl; split; reflexivity || discriminate.
Qed.

(** C5. The statistic-to-bin mapping, on the domain of every statistic
    kind and the fixed bin count: every non-NaN input (finite or
    infinite) is sent to an integer index in [0, STAT_BINS-1]; the mapping
    is monotonic non-decreasing; inputs at or below the domain minimum go
    to bin 0 and inputs at or above the domain maximum go to bin
    STAT_BINS-1. *)
Theorem binOf_monotone_in_range :
  forall s : Engine,
    let d := statDomain s in
    (forall v : num,
        isNaN v = false ->
        exists b : Z, binOf v d = Num (inject_Z b) /\ 0 <= b <= STAT_BINS - 1)
    /\ (forall v1 v2 : num,
          nle v1 v2 = true -> nle (binOf v1 d) (binOf v2 d) = true)
    /\ (forall v : num, nle v (Num (dmin d)) = true -> binOf v d = Num 0)
    /\ (forall v : num,
          nle (Num (dmax d)) v = true ->
          binOf v d = Num (inject_Z (STAT_BINS - 1))).
Proof.
  intros s d. destruct (statDomain_wide s) as [HD HW]. fold d in HD, HW.
  destruct (binOf_general d HD) as (H1 & H2 & H3 & _ & H5).
  repeat split; auto.
Qed.

Lemma binOf_monotone_in_range_witness :
  nle (binOf (Num (1 # 3)) (statDomain flatEngine))
      (binOf (Num (2 # 3)) (statDomain flatEngine)) = true
  /\ binOf (Num (- 4)) (statDomain flatEngine) = Num 0
  /\ binOf (Num 7) (statDomain flatEngine) = Num (inject_Z (STAT_BINS - 1))
  /\ exists b : Z,
       binOf (Inf true) (statDomain flatEngine) = Num (inject_Z b)
       /\ 0 <= b <= STAT_BINS - 1.
Proof.
  destruct (binOf_monotone_in_range flatEngine) as (Hr & Hm & Hl & Hu).
  split; [apply Hm; reflexivity|].
  split; [apply Hl; reflexivity|].
  split; [apply Hu; reflexivity|].
  apply Hr. reflexivity.
Defined.

(* ================================================================== *)
(** ** Properties: the turbo repeat *)
(* ================================================================== *)

Lemma insertQ_length (x : Q) (l : list Q) : length (insertQ x l) = S (length l).
Proof.
  induction l as [|y r IH]; simpl; [reflexivity|].
  destruct (Qle_bool y x); simpl; [now rewrite IH|reflexivity].
Qed.

Lemma sortQ_length (l : list Q) : length (sortQ l) = length l.
Proof.
  unfold sortQ.
  assert (G : forall acc, length (fold_left (fun a x => insertQ x a) l acc)
                          = (length l + length acc)%nat).
  { induction l as [|x r IH]; intro acc; simpl; [reflexivity|].
    rewrite IH, insertQ_length. lia. }
  rewrite G. simpl. lia.
Qed.

Lemma elemQ_in_range (b : list Q) (i : Z) :
  0 <= i < Z.of_nat (length b) -> exists q, elemQ b i = Num q.
Proof.
  intros [H0 H1]. unfold elemQ.
  destruct (Z.ltb_spec i 0); [lia|].
  destruct (b !! Z.to_nat i) as [v|] eqn:E; [now exists v|].
  apply lookup_ge_None in E. lia.
Qed.

Lemma med_nonempty (a : list Q) : a <> [] -> exists q, med a = Num q.
Proof.
  intro Hne. unfold med. destruct a as [|x r]; [congruence|].
  set (b := sortQ (x :: r)).
  assert (Hlen : 1 <= Z.of_nat (length b)).
  { subst b. rewrite sortQ_length. simpl. lia. }
  set (len := Z.of_nat (length b)) in *.
  assert (Hm : Z.shiftr len 1 = len / 2).
  { rewrite Z.shiftr_div_pow2 by lia. reflexivity. }
  rewrite Hm.
  destruct (Z.eqb_spec (len mod 2) 0) as [Ev|Od]; simpl.
  - assert (2 <= len) by (pose proof (Z.div_mod len 2); lia).
    destruct (elemQ_in_range b (len / 2 - 1)) as [q1 E1].
    { fold len. pose proof (Z.div_mod len 2). lia. }
    destruct (elemQ_in_range b (len / 2)) as [q2 E2].
    { fold len. pose proof (Z.div_mod len 2). lia. }
    rewrite E1, E2. simpl. eauto.
  - apply elemQ_in_range. fold len.
    pose proof (Z.div_mod len 2). pose proof (Z.mod_pos_bound len 2). lia.
Qed.

Lemma computeStat_nonempty (sqrt : Q -> Q) (s : Engine) (xs : list Q) :
  xs <> [] -> exists q, computeStat sqrt s xs = Num q.
Proof.
  intro Hne. unfold computeStat. destruct xs as [|x r]; [congruence|].
  destruct (statistic s).
  - rewrite mean_nonempty by exact Hne. eauto.
  - now apply med_nonempty.
  - apply robustSD_is_number.
  - eauto.
Qed.

Lemma intOf_inject (b : Z) : intOf (Num (inject_Z b)) = Some b.
Proof.
  unfold intOf. rewrite Qfloor_Z.
  assert (E : Qeq_bool (inject_Z b) (inject_Z b) = true)
    by (apply Qeq_bool_iff; reflexivity).
  now rewrite E.
Qed.

Lemma sumZ_insert (l : list Z) (i : nat) (v w : Z) :
  l !! i = Some v -> sumZ (<[i := w]> l) = sumZ l - v + w.
Proof.
  revert i. induction l as [|x r IH]; intros [|i] H; simpl in *; try discriminate.
  - injection H as ->. lia.
  - rewrite (IH i H). lia.
Qed.

Lemma sumZ_bound (l : list Z) (i : nat) (v : Z) :
  Forall (fun x => 0 <= x) l -> l !! i = Some v -> 0 <= v <= sumZ l.
Proof.
  intro Hpos. revert i. induction Hpos as [|x r Hx Hr IH]; intros [|i] H;
    simpl in *; try discriminate.
  - injection H as ->.
    assert (0 <= sumZ r).
    { clear -Hr. induction Hr; simpl; lia. }
    lia.
  - specialize (IH i H). lia.
Qed.

Lemma sumZ_zeros (n : Z) : sumZ (zeros n) = 0.
Proof.
  unfold zeros. induction (Z.to_nat n); simpl; [reflexivity|lia].
Qed.

Lemma rngStream_nonempty (n : nat) (t : Z) :
  (1 <= n)%nat -> rngStream n t <> [].
Proof. destruct n; [lia|]. simpl. discriminate. Qed.

(** One iteration of the turbo loop increments one cell of [botCounts]. *)
Lemma turboStep_botCounts (sqrt : Q -> Q) (n : nat) (s : Engine) :
  (1 <= n)%nat ->
  exists b : Z,
    0 <= b <= STAT_BINS - 1
    /\ botCounts (turboStep sqrt n s)
       = ta_set toUint32 (botCounts s) b (ta_get0 (botCounts s) b + 1).
Proof.
  intro Hn. unfold turboStep. rewrite sampleN_result.
  set (xs := map colValue _).
  assert (Hxs : xs <> []).
  { subst xs. intro C. apply map_eq_nil in C. apply map_eq_nil in C.
    now apply (rngStream_nonempty n (rng s)). }
  set (s1 := set_rng _ s).
  destruct (computeStat_nonempty sqrt s1 xs Hxs) as [q Hq]. rewrite Hq.
  destruct (binOf_general (statDomain s1) (proj1 (statDomain_wide s1)))
    as (Hr & _).
  destruct (Hr (Num q) eq_refl) as (b & Hb & Hrange).
  exists b. split; [exact Hrange|].
  cbv zeta. rewrite Hb. cbn [botCounts set_botCounts].
  unfold ta_setN, ta_getN0, ta_getN. rewrite intOf_inject. reflexivity.
Qed.

Lemma turboStep_frame (sqrt : Q -> Q) (n : nat) (s : Engine) :
  (midCounts (turboStep sqrt n s), popCounts (turboStep sqrt n s),
   sampleParticles (turboStep sqrt n s), statParticles (turboStep sqrt n s),
   popFlashes (turboStep sqrt n s), gatherParticles (turboStep sqrt n s),
   gatherTarget (turboStep sqrt n s), gathering (turboStep sqrt n s),
   emissionPlan (turboStep sqrt n s), lastSample (turboStep sqrt n s))
  = (midCounts s, popCounts s, sampleParticles s, statParticles s,
     popFlashes s, gatherParticles s, gatherTarget s, gathering s,
     emissionPlan s, lastSample s).
Proof. unfold turboStep. rewrite sampleN_result. reflexivity. Qed.

Lemma counter_step (l : list Z) (b k : Z) :
  length l = Z.to_nat STAT_BINS -> Forall (fun x => 0 <= x) l -> sumZ l = k ->
  k < 4294967295 -> 0 <= b <= STAT_BINS - 1 ->
  exists v : Z,
    l !! Z.to_nat b = Some v
    /\ ta_set toUint32 l b (ta_get0 l b + 1) = <[Z.to_nat b := v + 1]> l
    /\ length (<[Z.to_nat b := v + 1]> l) = Z.to_nat STAT_BINS
    /\ Forall (fun x => 0 <= x) (<[Z.to_nat b := v + 1]> l)
    /\ sumZ (<[Z.to_nat b := v + 1]> l) = k + 1.
Proof.
  intros Hlen Hpos Hsum Hk Hb.
  destruct (l !! Z.to_nat b) as [v|] eqn:E.
  2:{ apply lookup_ge_None in E. unfold STAT_BINS, COLS in *. lia. }
  pose proof (sumZ_bound l _ v Hpos E) as Hv.
  exists v. split; [reflexivity|].
  assert (W : toUint32 (v + 1) = v + 1).
  { unfold toUint32. apply Z.mod_small. lia. }
  split.
  { unfold ta_set, ta_get0, ta_get.
    destruct (Z.ltb_spec b 0); [lia|]. rewrite E. simpl. now rewrite W. }
  split; [now rewrite length_insert|].
  split.
  { apply Forall_insert; [exact Hpos|lia]. }
  rewrite (sumZ_insert l _ v (v + 1) E). lia.
Qed.

Lemma turbo_iter_invariant (sqrt : Q -> Q) (n : nat) (s : Engine) :
  (1 <= n)%nat -> botCounts s = zeros STAT_BINS ->
  forall k : nat,
    (k <= 1000)%nat ->
    length (botCounts (Nat.iter k (turboStep sqrt n) s)) = Z.to_nat STAT_BINS
    /\ Forall (fun x => 0 <= x) (botCounts (Nat.iter k (turboStep sqrt n) s))
    /\ sumZ (botCounts (Nat.iter k (turboStep sqrt n) s)) = Z.of_nat k.
Proof.
  intros Hn Hz k. induction k as [|k IH]; intro Hk.
  - simpl. rewrite Hz. split; [unfold zeros; now rewrite repeat_length|].
    split; [|apply sumZ_zeros].
    unfold zeros. induction (Z.to_nat STAT_BINS); simpl; constructor;
      [lia|assumption].
  - destruct IH as (L & P & S); [lia|].
    rewrite Nat.iter_succ.
    destruct (turboStep_botCounts sqrt n (Nat.iter k (turboStep sqrt n) s) Hn)
      as (b & Hb & ->).
    destruct (counter_step _ b (Z.of_nat k) L P S) as (v & _ & -> & L' & P' & S');
      [lia|exact Hb|].
    split; [exact L'|]. split; [exact P'|]. lia.
Qed.

Lemma turbo_iter_frame (sqrt : Q -> Q) (n : nat) (s : Engine) (k : nat) :
  let s' := Nat.iter k (turboStep sqrt n) s in
  (midCounts s', popCounts s', sampleParticles s', statParticles s',
   popFlashes s', gatherParticles s', gatherTarget s', gathering s',
   emissionPlan s', lastSample s')
  = (midCounts s, popCounts s, sampleParticles s, statParticles s,
     popFlashes s, gatherParticles s, gatherTarget s, gathering s,
     emissionPlan s, lastSample s).
Proof.
  induction k as [|k IH]; [reflexivity|].
  cbv zeta in *. rewrite Nat.iter_succ, turboStep_frame. exact IH.
Qed.

Lemma valid_sample_size_bounds (n : nat) :
  valid (validateSampleSize (Num (inject_Z (Z.of_nat n)))) = true ->
  (2 <= n <= 1000)%nat.
Proof.
  unfold validateSampleSize. simpl.
  destruct (Qltb (inject_Z (Z.of_nat n)) 2) eqn:A; [discriminate|].
  destruct (Qltb 1000 (inject_Z (Z.of_nat n))) eqn:B; [discriminate|].
  intros _. apply Qltb_false in A, B.
  change 2%Q with (inject_Z 2) in A. change 1000%Q with (inject_Z 1000) in B.
  rewrite <- Zle_Qle in A, B. lia.
Qed.

(** C4. From a reset sampling-distribution histogram, one call of
    [handleRepeatTurbo] with a valid [n] leaves bin counts that sum to
    exactly 1000: each of the 1000 iterations adds one to exactly one
    bin, and the sample histogram, the population, all particles, the
    emission plan and the gather state are left as they were. *)
Theorem handleRepeatTurbo_sums_to_1000 :
  forall (sqrt : Q -> Q) (n : nat) (s : Engine),
    valid (validateSampleSize (Num (inject_Z (Z.of_nat n)))) = true ->
    botCounts s = zeros STAT_BINS ->
    let s' := handleRepeatTurbo sqrt n s in
    sumZ (botCounts s') = 1000
    /\ botCounts s' = botCounts (Nat.iter 1000 (turboStep sqrt n) s)
    /\ (forall k : nat,
          (k < 1000)%nat ->
          let before := botCounts (Nat.iter k (turboStep sqrt n) s) in
          let after := botCounts (Nat.iter (S k) (turboStep sqrt n) s) in
          exists (b v : Z),
            0 <= b <= STAT_BINS - 1
            /\ before !! Z.to_nat b = Some v
            /\ after = <[Z.to_nat b := v + 1]> before
            /\ sumZ after = sumZ before + 1)
    /\ (midCounts s', popCounts s', sampleParticles s', statParticles s',
        popFlashes s', gatherParticles s', gatherTarget s', gathering s',
        emissionPlan s', lastSample s')
       = (midCounts s, popCounts s, sampleParticles s, statParticles s,
          popFlashes s, gatherParticles s, gatherTarget s, gathering s,
          emissionPlan s, lastSample s).
Proof.
  intros sqrt n s Hvalid Hzero s'.
  assert (Hn : (1 <= n)%nat) by (apply valid_sample_size_bounds in Hvalid; lia).
  assert (Hb : botCounts s' = botCounts (Nat.iter 1000 (turboStep sqrt n) s))
    by reflexivity.
  split.
  { rewrite Hb.
    destruct (turbo_iter_invariant sqrt n s Hn Hzero 1000) as (_ & _ & S);
      [lia|exact S]. }
  split; [exact Hb|].
  split.
  { intros k Hk before after. subst before after.
    destruct (turbo_iter_invariant sqrt n s Hn Hzero k) as (L & P & S); [lia|].
    rewrite Nat.iter_succ.
    destruct (turboStep_botCounts sqrt n (Nat.iter k (turboStep sqrt n) s) Hn)
      as (b & Hbr & ->).
    destruct (counter_step _ b (Z.of_nat k) L P S) as (v & E & -> & _ & _ & S');
      [lia|exact Hbr|].
    exists b, v. repeat split; try exact E; try lia. }
  exact (turbo_iter_frame sqrt n s 1000).
Qed.

Lemma handleRepeatTurbo_sums_to_1000_witness :
  sumZ (botCounts (handleRepeatTurbo sqrtQ 30 flatEngine)) = 1000.
Proof.
  exact (proj1 (handleRepeatTurbo_sums_to_1000 sqrtQ 30 flatEngine
                  eq_refl eq_refl)).
Defined.


(* ================================================================== *)
(** ** Properties: well-formed states *)
(* ================================================================== *)

Lemma ta_set_length (wrap : Z -> Z) (a : list Z) (i v : Z) :
  length (ta_set wrap a i v) = length a.
Proof. unfold ta_set. destruct (i <? 0); [reflexivity|apply length_insert]. Qed.

Lemma ta_setN_length (wrap : Z -> Z) (a : list Z) (i : num) (v : Z) :
  length (ta_setN wrap a i v) = length a.
Proof. unfold ta_setN. destruct (intOf i); [apply ta_set_length|reflexivity]. Qed.

Lemma zeros_length (n : Z) : length (zeros n) = Z.to_nat n.
Proof. unfold zeros. apply repeat_length. Qed.

Lemma newEngine_wellFormed (hasCtx : bool) : wellFormed (newEngine hasCtx).
Proof.
  unfold wellFormed. cbn. repeat split; try reflexivity.
  - constructor.
  - intros p H. discriminate.
Qed.

Lemma emitLoop_cols (s : Engine) (now : Q) (cs : list Z) :
  forall (inflight : list Z) (flashes : list PopFlash) (parts : list SampleParticle),
    map sp_col (snd (emitLoop s now cs inflight flashes parts))
    = map sp_col parts ++ cs.
Proof.
  induction cs as [|c r IH]; intros inflight flashes parts; cbn [emitLoop].
  - now rewrite app_nil_r.
  - unfold emitOne. cbv zeta. rewrite IH, map_app, <- app_assoc. reflexivity.
Qed.

Lemma Forall_take_drop {A : Type} (P : A -> Prop) (k i : nat) (l : list A) :
  Forall P l -> Forall P (take k (drop i l)).
Proof. intro H. now apply Forall_take, Forall_drop. Qed.

Ltac wf_close :=
  unfold wellFormed; cbn; repeat split;
  try assumption; try discriminate; try (constructor; fail).

Lemma tickEmission_wellFormed (sqrt : Q -> Q) (now : Q) (s : Engine) :
  wellFormed s -> wellFormed (tickEmission sqrt now s).
Proof.
  intros (Lp & Lm & Lb & Hs & Hp). unfold tickEmission.
  destruct (emissionPlan s) as [p|] eqn:P.
  2:{ unfold wellFormed. rewrite P. wf_close. }
  cbv zeta. specialize (Hp p eq_refl).
  match goal with |- context [if nlt (Num 0) ?t then _ else _] =>
    destruct (nlt (Num 0) t) end.
  - match goal with |- context [emitLoop ?a ?b ?c ?d ?e ?f] =>
      pose proof (emitLoop_cols a b c d e f) as E;
      destruct (emitLoop a b c d e f) as [fl parts] end.
    cbn [snd] in E. cbn [emissionPlan set_emissionPlan].
    assert (Hparts : Forall colOk (map sp_col parts)).
    { rewrite E. apply Forall_app. split; [exact Hs|].
      now apply Forall_take_drop. }
    match goal with |- context [if ?c then _ else _] => destruct c end;
      wf_close.
    intros p' H. injection H as <-. exact Hp.
  - rewrite P.
    match goal with |- context [if ?c then _ else _] => destruct c end;
      wf_close.
    rewrite P. intros p' H. injection H as <-. exact Hp.
Qed.

Lemma bump16_length (a : list Z) (col : Z) : length (bump16 a col) = length a.
Proof. apply ta_set_length. Qed.

Lemma fallSamples_wellFormed (sqrt : Q -> Q) (g dt : Q) (parts : list SampleParticle) :
  forall s : Engine,
    wellFormed s -> Forall colOk (map sp_col parts) ->
    wellFormed (snd (fallSamples sqrt g dt parts s))
    /\ Forall colOk (map sp_col (fst (fallSamples sqrt g dt parts s)))
    /\ emissionPlan (snd (fallSamples sqrt g dt parts s)) = emissionPlan s
    /\ sampleParticles (snd (fallSamples sqrt g dt parts s)) = sampleParticles s.
Proof.
  induction parts as [|sp r IH]; intros s W Hc; cbn [fallSamples].
  - cbn. split; [exact W|]. split; [constructor|]. split; reflexivity.
  - cbn [map] in Hc. apply Forall_cons in Hc. destruct Hc as [Hc Hr].
    destruct (sampleInAir (moveSample g dt sp)).
    + destruct (IH s W Hr) as (A & B & C & D).
      destruct (fallSamples sqrt g dt r s) as [surv s'].
      cbn [fst snd] in *. split; [exact A|].
      split; [cbn [map]; constructor; assumption|]. split; assumption.
    + assert (W' : wellFormed (landSample sqrt (sp_col (moveSample g dt sp)) s)).
      { destruct W as (Lp & Lm & Lb & Hs & Hp).
        unfold wellFormed, landSample. cbn.
        repeat split; try assumption. now rewrite ta_set_length. }
      destruct (IH _ W' Hr) as (A & B & C & D).
      split; [exact A|]. split; [exact B|]. split; assumption.
Qed.

Lemma tickSamples_wellFormed (sqrt : Q -> Q) (g dt : Q) (s : Engine) :
  wellFormed s -> wellFormed (tickSamples sqrt g dt s).
Proof.
  intro W. unfold tickSamples.
  destruct (sampleParticles s) as [|sp r] eqn:E; [exact W|].
  assert (Hc : Forall colOk (map sp_col (sp :: r))).
  { destruct W as (_ & _ & _ & Hs & _). now rewrite E in Hs. }
  destruct (fallSamples_wellFormed sqrt g dt (sp :: r) s W Hc) as (A & B & C & _).
  destruct (fallSamples sqrt g dt (sp :: r) s) as [surv s'].
  cbn [fst snd] in A, B, C.
  destruct A as (Lp & Lm & Lb & _ & Hp).
  unfold wellFormed. cbn. repeat split; assumption.
Qed.

Lemma tickGather_wellFormed (sqrt : Q -> Q) (now : Q) (s : Engine) :
  wellFormed s -> wellFormed (tickGather sqrt now s).
Proof.
  intro W. unfold tickGather. destruct (gathering s); [|exact W].
  destruct (gatherTarget s) as [gt|]; [|exact W].
  cbv zeta. destruct W as (Lp & Lm & Lb & Hs & Hp).
  match goal with |- context [if ?c then _ else _] => destruct c end;
    unfold wellFormed; cbn; repeat split; assumption.
Qed.

Lemma fallStats_wellFormed (sqrt : Q -> Q) (g dt : Q) (parts : list StatParticle) :
  forall s : Engine,
    wellFormed s -> wellFormed (snd (fallStats sqrt g dt parts s)).
Proof.
  induction parts as [|p r IH]; intros s W; cbn [fallStats]; [exact W|].
  destruct (statInAir (moveStat g dt p)).
  - specialize (IH s W). destruct (fallStats sqrt g dt r s). exact IH.
  - apply IH. destruct W as (Lp & Lm & Lb & Hs & Hp).
    unfold wellFormed, landStat. cbn. repeat split; try assumption.
    now rewrite ta_setN_length.
Qed.

Lemma tickStats_wellFormed (sqrt : Q -> Q) (g dt : Q) (s : Engine) :
  wellFormed s -> wellFormed (tickStats sqrt g dt s).
Proof.
  intro W. unfold tickStats. destruct (statParticles s) as [|p r]; [exact W|].
  pose proof (fallStats_wellFormed sqrt g dt (p :: r) s W) as A.
  destruct (fallStats sqrt g dt (p :: r) s) as [surv s']. cbn [snd] in A.
  destruct A as (Lp & Lm & Lb & Hs & Hp).
  unfold wellFormed. cbn. repeat split; assumption.
Qed.

Lemma tick_wellFormed (sqrt : Q -> Q) (dt now : Q) (s : Engine) :
  wellFormed s -> wellFormed (tick sqrt dt now s).
Proof.
  intro W. unfold tick. cbv zeta.
  set (s4 := tickStats sqrt (gravity s) dt _).
  assert (W4 : wellFormed s4).
  { subst s4. now apply tickStats_wellFormed, tickGather_wellFormed,
      tickSamples_wellFormed, tickEmission_wellFormed. }
  destruct W4 as (Lp & Lm & Lb & Hs & Hp).
  match goal with |- context [if ?c then _ else _] => destruct c end;
    unfold wellFormed; cbn; repeat split; assumption.
Qed.

Lemma sampleN_cols_ok (n : nat) (s : Engine) :
  Forall colOk (snd (fst (sampleN n s))).
Proof.
  rewrite sampleN_result. cbn [fst snd]. apply List.Forall_map.
  eapply List.Forall_impl; [|apply rngStream_range].
  intros u Hu. now apply pickCol_range.
Qed.

Lemma startSample_wellFormed (n : nat) (dropMs now : Q) (s : Engine) :
  wellFormed s -> wellFormed (startSample n dropMs now s).
Proof.
  intros (Lp & Lm & Lb & Hs & Hp).
  pose proof (sampleN_cols_ok n s) as C.
  unfold startSample. rewrite sampleN_result in *. cbn [fst snd] in C.
  unfold wellFormed. cbn. repeat split; try assumption.
  intros p H. injection H as <-. exact C.
Qed.

Lemma calculateWithGather_wellFormed (sqrt : Q -> Q) (now : Q) (s : Engine) :
  wellFormed s -> wellFormed (calculateWithGather sqrt now s).
Proof.
  intros W. unfold calculateWithGather.
  destruct (negb (nonemptyb (lastSample s)) && negb (hasSampleInMid s));
    [exact W|].
  destruct W as (Lp & Lm & Lb & Hs & Hp).
  unfold wellFormed. cbn. repeat split; assumption.
Qed.

Lemma turboStep_wellFormed (sqrt : Q -> Q) (n : nat) (s : Engine) :
  wellFormed s -> wellFormed (turboStep sqrt n s).
Proof.
  intros (Lp & Lm & Lb & Hs & Hp). unfold turboStep.
  rewrite sampleN_result. unfold wellFormed. cbn.
  repeat split; try assumption. now rewrite ta_setN_length.
Qed.

Lemma colRange_length : length colRange = Z.to_nat COLS.
Proof. reflexivity. Qed.

(** Every operation keeps the engine well formed: the three typed arrays
    keep their length and every column of a particle or of the emission
    plan is a column produced by [sampleN]. *)
Lemma perform_wellFormed (sqrt exp log : Q -> Q) (a : Action) (s : Engine) :
  wellFormed s -> wellFormed (perform sqrt exp log a s).
Proof.
  intro W. destruct a; cbn [perform];
    try (destruct W as (Lp & Lm & Lb & Hs & Hp);
         unfold wellFormed; cbn; repeat split; assumption).
  - unfold clickPopulation. destruct (Qltb _ _); [exact W|].
    destruct W as (Lp & Lm & Lb & Hs & Hp).
    unfold wellFormed. cbn. rewrite ta_setN_length. repeat split; assumption.
  - unfold altClickPopulation. destruct (Qltb _ _); [exact W|].
    destruct W as (Lp & Lm & Lb & Hs & Hp).
    unfold wellFormed. cbn. rewrite ta_setN_length. repeat split; assumption.
  - now apply startSample_wellFormed.
  - now apply calculateWithGather_wellFormed.
  - unfold drawSampleWithAutoCalculate.
    destruct (nonemptyb (lastSample s) || hasSampleInMid s); cbn [fst].
    + now apply calculateWithGather_wellFormed.
    + now apply startSample_wellFormed.
  - destruct W as (Lp & Lm & Lb & Hs & Hp).
    unfold wellFormed. cbn. repeat split; try assumption; try reflexivity.
    + constructor.
    + discriminate.
  - assert (I : forall k, wellFormed (Nat.iter k (turboStep sqrt n) s)).
    { induction k as [|k IH]; [exact W|].
      rewrite Nat.iter_succ. now apply turboStep_wellFormed. }
    destruct (I 1000%nat) as (Lp & Lm & Lb & Hs & Hp).
    unfold wellFormed, handleRepeatTurbo. cbn [popCounts midCounts botCounts
      sampleParticles emissionPlan set_needsRedraw updateLines set_lines].
    repeat split; assumption.
  - now apply tick_wellFormed.
Qed.

Lemma draw_wellFormed (s : Engine) : wellFormed s -> wellFormed (fst (draw s)).
Proof.
  intro W. unfold draw. destruct (negb (ctx s) || negb (needsRedraw s)); [exact W|].
  destruct W as (Lp & Lm & Lb & Hs & Hp).
  unfold wellFormed. cbn. repeat split; assumption.
Qed.


Lemma fireTimers_wellFormed (now : Q) (ts : list Timer) :
  forall s : Engine, wellFormed s -> wellFormed (fst (fireTimers now ts s)).
Proof.
  induction ts as [|t r IH]; intros s W; cbn [fireTimers]; [exact W|].
  destruct (Qle_bool (timer_due t) now).
  - apply IH. now apply startSample_wellFormed.
  - specialize (IH s W). destruct (fireTimers now r s). exact IH.
Qed.

Lemma step_wellFormed (sqrt : Q -> Q) (w : World) (e : Event) :
  wellFormed (engine w) -> wellFormed (engine (step sqrt w e)).
Proof.
  intro W. destruct e as [n dropMs now | now | dt now]; cbn [step].
  - pose proof (perform_wellFormed sqrt sqrt sqrt
                  (ADrawSampleWithAutoCalculate n dropMs now) (engine w) W) as H.
    cbn [perform] in H.
    destruct (drawSampleWithAutoCalculate sqrt n dropMs now (engine w)).
    exact H.
  - pose proof (fireTimers_wellFormed now (timers w) (engine w) W) as H.
    destruct (fireTimers now (timers w) (engine w)). exact H.
  - cbn [engine]. unfold animate.
    pose proof (tick_wellFormed sqrt dt now (engine w) W) as T.
    destruct (needsRedraw _ || hasActiveAnimations _); [|exact T].
    now apply draw_wellFormed.
Qed.

(** Every state reached from a well-formed one is well formed. *)
Lemma run_wellFormed (sqrt : Q -> Q) (es : list Event) :
  forall w : World,
    wellFormed (engine w) -> wellFormed (engine (run sqrt w es)).
Proof.
  unfold run. induction es as [|e r IH]; intros w W; cbn [fold_left]; [exact W|].
  apply IH. now apply step_wellFormed.
Qed.

(* ================================================================== *)
(** ** Properties: tick and the sample histogram *)
(* ================================================================== *)

Lemma tickEmission_keeps_midCounts (sqrt : Q -> Q) (now : Q) (s : Engine) :
  midCounts (tickEmission sqrt now s) = midCounts s.
Proof.
  unfold tickEmission. destruct (emissionPlan s) as [p|]; [|reflexivity].
  cbv zeta.
  match goal with |- context [if nlt (Num 0) ?t then _ else _] =>
    destruct (nlt (Num 0) t) end.
  - match goal with |- context [emitLoop ?a ?b ?c ?d ?e ?f] =>
      destruct (emitLoop a b c d e f) as [fl parts] end.
    cbn [emissionPlan set_emissionPlan].
    match goal with |- context [if ?c then _ else _] => destruct c end;
      reflexivity.
  - destruct (emissionPlan s) as [p1|]; [|reflexivity].
    match goal with |- context [if ?c then _ else _] => destruct c end;
      reflexivity.
Qed.

(** The fall loop keeps the particles still in the air and counts every
    other one into its column, in order. *)
Lemma fallSamples_spec (sqrt : Q -> Q) (g dt : Q) (parts : list SampleParticle) :
  forall s : Engine,
    let moved := map (moveSample g dt) parts in
    fst (fallSamples sqrt g dt parts s) = List.filter sampleInAir moved
    /\ midCounts (snd (fallSamples sqrt g dt parts s))
       = fold_left bump16
           (map sp_col (List.filter (fun p => negb (sampleInAir p)) moved))
           (midCounts s).
Proof.
  induction parts as [|sp r IH]; intro s; cbn [fallSamples map List.filter].
  - split; reflexivity.
  - destruct (sampleInAir (moveSample g dt sp)) eqn:E; cbn [negb].
    + specialize (IH s). cbv zeta in IH. destruct IH as [IH1 IH2].
      destruct (fallSamples sqrt g dt r s) as [surv s'].
      cbn [fst snd] in *. now rewrite IH1, IH2.
    + specialize (IH (landSample sqrt (sp_col (moveSample g dt sp)) s)).
      cbv zeta in IH. destruct IH as [IH1 IH2].
      split; [exact IH1|]. rewrite IH2. reflexivity.
Qed.

Lemma tickSamples_spec (sqrt : Q -> Q) (g dt : Q) (s : Engine) :
  let moved := map (moveSample g dt) (sampleParticles s) in
  sampleParticles (tickSamples sqrt g dt s) = List.filter sampleInAir moved
  /\ midCounts (tickSamples sqrt g dt s)
     = fold_left bump16
         (map sp_col (List.filter (fun p => negb (sampleInAir p)) moved))
         (midCounts s).
Proof.
  unfold tickSamples. destruct (sampleParticles s) as [|sp r] eqn:E.
  - rewrite E. split; reflexivity.
  - destruct (fallSamples_spec sqrt g dt (sp :: r) s) as [H1 H2].
    destruct (fallSamples sqrt g dt (sp :: r) s) as [surv s'].
    cbn [fst snd] in H1, H2. split; [exact H1 | exact H2].
Qed.

Lemma fallStats_keeps_samples (sqrt : Q -> Q) (g dt : Q) (parts : list StatParticle) :
  forall s : Engine,
    midCounts (snd (fallStats sqrt g dt parts s)) = midCounts s
    /\ sampleParticles (snd (fallStats sqrt g dt parts s)) = sampleParticles s.
Proof.
  induction parts as [|p r IH]; intro s; cbn [fallStats]; [split; reflexivity|].
  destruct (statInAir (moveStat g dt p)).
  - specialize (IH s). destruct (fallStats sqrt g dt r s) as [surv s'].
    exact IH.
  - destruct (IH (landStat sqrt (st_bin (moveStat g dt p)) s)) as [A B].
    split; [rewrite A | rewrite B]; reflexivity.
Qed.

Lemma tickStats_keeps_samples (sqrt : Q -> Q) (g dt : Q) (s : Engine) :
  midCounts (tickStats sqrt g dt s) = midCounts s
  /\ sampleParticles (tickStats sqrt g dt s) = sampleParticles s.
Proof.
  unfold tickStats. destruct (statParticles s) as [|p r]; [split; reflexivity|].
  destruct (fallStats_keeps_samples sqrt g dt (p :: r) s) as [A B].
  destruct (fallStats sqrt g dt (p :: r) s) as [surv s'].
  cbn [snd] in A, B. split; [exact A | exact B].
Qed.

Lemma tickGather_keeps_samples (sqrt : Q -> Q) (now : Q) (s : Engine) :
  midCounts (tickGather sqrt now s) = midCounts s
  /\ sampleParticles (tickGather sqrt now s) = sampleParticles s.
Proof.
  unfold tickGather. destruct (gathering s); [|split; reflexivity].
  destruct (gatherTarget s) as [gt|]; [|split; reflexivity].
  cbv zeta. match goal with |- context [if ?c then _ else _] => destruct c end;
    split; reflexivity.
Qed.

(** Cells of a [Uint16Array] counter: below 65535 the increment is exact. *)
Lemma bump16_exact (a : list Z) (col v : Z) :
  ta_get a col = Some v -> 0 <= v < 65535 ->
  bump16 a col = <[Z.to_nat col := v + 1]> a
  /\ ta_get (bump16 a col) col = Some (v + 1)
  /\ (forall c : Z, c <> col -> ta_get (bump16 a col) c = ta_get a c)
  /\ sumZ (bump16 a col) = sumZ a + 1.
Proof.
  intros Hget Hv. unfold bump16, ta_set, ta_get0. rewrite Hget.
  unfold ta_get in *. destruct (Z.ltb_spec col 0) as [|Hc]; [discriminate|].
  simpl.
  assert (W : toUint16 (v + 1) = v + 1).
  { unfold toUint16. apply Z.mod_small. lia. }
  rewrite W. split; [reflexivity|].
  split.
  { apply list_lookup_insert_eq. now apply lookup_lt_Some in Hget. }
  split.
  { intros c Hne. destruct (Z.ltb_spec c 0); [reflexivity|].
    apply list_lookup_insert_ne. lia. }
  rewrite (sumZ_insert a _ v (v + 1) Hget). lia.
Qed.

Lemma emitLoop_appends (s : Engine) (now : Q) (cs : list Z) :
  forall (inflight : list Z) (flashes : list PopFlash) (parts : list SampleParticle),
    exists new : list SampleParticle,
      length new = length cs
      /\ snd (emitLoop s now cs inflight flashes parts) = parts ++ new.
Proof.
  induction cs as [|c r IH]; intros inflight flashes parts; cbn [emitLoop].
  - exists []. split; [reflexivity|]. now rewrite app_nil_r.
  - destruct (emitOne s now c inflight) as [[f sp] inflight'].
    destruct (IH inflight' (flashes ++ [f]) (parts ++ [sp])) as (new & L & E).
    exists (sp :: new). split; [simpl; now rewrite L|].
    rewrite E, <- app_assoc. reflexivity.
Qed.

Lemma tickEmission_only_adds (sqrt : Q -> Q) (now : Q) (s : Engine) :
  exists new : list SampleParticle,
    sampleParticles (tickEmission sqrt now s) = sampleParticles s ++ new.
Proof.
  unfold tickEmission. destruct (emissionPlan s) as [p|] eqn:P.
  2:{ exists []. now rewrite app_nil_r. }
  cbv zeta.
  match goal with |- context [if nlt (Num 0) ?t then _ else _] =>
    destruct (nlt (Num 0) t) end.
  - match goal with |- context [emitLoop ?a ?b ?c ?d ?e ?f] =>
      destruct (emitLoop_appends a b c d e f) as (new & _ & E);
      destruct (emitLoop a b c d e f) as [fl parts] end.
    cbn [snd] in E. exists new.
    cbn [emissionPlan set_emissionPlan].
    match goal with |- context [if ?c then _ else _] => destruct c end;
      exact E.
  - exists []. rewrite app_nil_r. rewrite P.
    match goal with |- context [if ?c then _ else _] => destruct c end;
      reflexivity.
Qed.

Lemma tick_samples_spec (sqrt : Q -> Q) (dt now : Q) (s : Engine) :
  sampleParticles (tick sqrt dt now s)
  = sampleParticles (tickSamples sqrt (gravity s) dt (tickEmission sqrt now s))
  /\ midCounts (tick sqrt dt now s)
     = midCounts (tickSamples sqrt (gravity s) dt (tickEmission sqrt now s)).
Proof.
  unfold tick. cbv zeta.
  set (s2 := tickSamples sqrt (gravity s) dt (tickEmission sqrt now s)).
  destruct (tickGather_keeps_samples sqrt now s2) as [G1 G2].
  destruct (tickStats_keeps_samples sqrt (gravity s) dt (tickGather sqrt now s2))
    as [T1 T2].
  match goal with |- context [if ?c then _ else _] => destruct c end;
    cbn [sampleParticles midCounts set_needsRedraw tickFlashes set_popFlashes];
    rewrite T1, T2, G1, G2; split; reflexivity.
Qed.

(** C6. During emission and fall the sample histogram changes only when
    a particle lands.  Releasing particles from the emission plan appends
    particles and leaves [midCounts] as it was; in the fall loop a
    particle whose updated position is within 0.1 of its target is removed
    from the particle list and its column's count is incremented by one
    (exactly one for a cell below the 16-bit ceiling); no other phase of
    [tick] writes [midCounts]. *)
Theorem sample_histogram_changes_only_on_landing :
  forall (sqrt : Q -> Q) (dt now : Q) (s : Engine),
    let afterEmission := tickEmission sqrt now s in
    let moved :=
      map (moveSample (gravity s) dt) (sampleParticles afterEmission) in
    let landedCols :=
      map sp_col (List.filter (fun p => negb (sampleInAir p)) moved) in
    let s' := tick sqrt dt now s in
    midCounts afterEmission = midCounts s
    /\ (exists new : list SampleParticle,
          sampleParticles afterEmission = sampleParticles s ++ new)
    /\ sampleParticles s' = List.filter sampleInAir moved
    /\ midCounts s' = fold_left bump16 landedCols (midCounts s)
    /\ (landedCols = [] -> midCounts s' = midCounts s)
    /\ (forall (a : list Z) (col v : Z),
          ta_get a col = Some v -> 0 <= v < 65535 ->
          ta_get (bump16 a col) col = Some (v + 1)
          /\ (forall c : Z, c <> col -> ta_get (bump16 a col) c = ta_get a c)
          /\ sumZ (bump16 a col) = sumZ a + 1).
Proof.
  intros sqrt dt now s afterEmission moved landedCols s'.
  destruct (tick_samples_spec sqrt dt now s) as [T1 T2].
  destruct (tickSamples_spec sqrt (gravity s) dt afterEmission) as [S1 S2].
  cbv zeta in S1, S2. fold afterEmission in T1, T2.
  assert (M : midCounts afterEmission = midCounts s)
    by apply tickEmission_keeps_midCounts.
  assert (H4 : midCounts s' = fold_left bump16 landedCols (midCounts s)).
  { subst s'. rewrite T2, S2, M. reflexivity. }
  split; [exact M|].
  split; [apply tickEmission_only_adds|].
  split; [subst s'; rewrite T1; exact S1|].
  split; [exact H4|].
  split; [intro E; rewrite H4, E; reflexivity|].
  intros a col v Hget Hv.
  destruct (bump16_exact a col v Hget Hv) as (_ & A & B & C). auto.
Qed.

Lemma sample_histogram_changes_only_on_landing_witness :
  midCounts (tick sqrtQ (16 # 1000) 0 flatEngine) = midCounts flatEngine
  /\ ta_get (bump16 (zeros COLS) 5) 5 = Some 1.
Proof.
  destruct (sample_histogram_changes_only_on_landing sqrtQ (16 # 1000) 0 flatEngine)
    as (_ & _ & _ & _ & Hn & Hb).
  split.
  - apply Hn. reflexivity.
  - exact (proj1 (Hb (zeros COLS) 5 0 eq_refl ltac:(lia))).
Defined.


(** Two ticks evaluated: one that releases a particle and counts
    nothing, one in which a particle lands. *)
Example emission_creates_without_counting :
  (let s := tick sqrtQ (1 # 20) 50 busyEngine in
   (length (sampleParticles s), sumZ (midCounts s), sumZ (midCounts busyEngine)))
  = (1%nat, 0, 0).
Proof. lazy. reflexivity. Qed.

Example landing_counts_once :
  (let s0 :=
     set_sampleParticles
       [mkSample 5 (colCenter readyEngine 5) 530 0 (1065 # 2)] readyEngine in
   let s := tick sqrtQ (1 # 20) 50 s0 in
   (length (sampleParticles s), ta_get (midCounts s0) 5, ta_get (midCounts s) 5,
    sumZ (midCounts s)))
  = (0%nat, Some 0, Some 1, 1).
Proof. lazy. reflexivity. Qed.

(* ================================================================== *)
(** ** Properties: the redraw flag *)
(* ================================================================== *)

Lemma tickEmission_keeps_flag (sqrt : Q -> Q) (now : Q) (s : Engine) :
  needsRedraw (tickEmission sqrt now s) = needsRedraw s.
Proof.
  unfold tickEmission. destruct (emissionPlan s) as [p|]; [|reflexivity].
  cbv zeta.
  match goal with |- context [if nlt (Num 0) ?t then _ else _] =>
    destruct (nlt (Num 0) t) end.
  - match goal with |- context [emitLoop ?a ?b ?c ?d ?e ?f] =>
      destruct (emitLoop a b c d e f) as [fl parts] end.
    cbn [emissionPlan set_emissionPlan].
    match goal with |- context [if ?c then _ else _] => destruct c end;
      reflexivity.
  - destruct (emissionPlan s) as [p1|]; [|reflexivity].
    match goal with |- context [if ?c then _ else _] => destruct c end;
      reflexivity.
Qed.

Lemma fallSamples_keeps_flag (sqrt : Q -> Q) (g dt : Q) (parts : list SampleParticle) :
  forall s : Engine,
    needsRedraw (snd (fallSamples sqrt g dt parts s)) = needsRedraw s.
Proof.
  induction parts as [|sp r IH]; intro s; cbn [fallSamples]; [reflexivity|].
  destruct (sampleInAir (moveSample g dt sp)).
  - specialize (IH s). destruct (fallSamples sqrt g dt r s). exact IH.
  - rewrite IH. reflexivity.
Qed.

Lemma fallStats_keeps_flag (sqrt : Q -> Q) (g dt : Q) (parts : list StatParticle) :
  forall s : Engine,
    needsRedraw (snd (fallStats sqrt g dt parts s)) = needsRedraw s.
Proof.
  induction parts as [|p r IH]; intro s; cbn [fallStats]; [reflexivity|].
  destruct (statInAir (moveStat g dt p)).
  - specialize (IH s). destruct (fallStats sqrt g dt r s). exact IH.
  - rewrite IH. reflexivity.
Qed.

Lemma tickSamples_keeps_flag (sqrt : Q -> Q) (g dt : Q) (s : Engine) :
  needsRedraw (tickSamples sqrt g dt s) = needsRedraw s.
Proof.
  unfold tickSamples. destruct (sampleParticles s) as [|sp r]; [reflexivity|].
  pose proof (fallSamples_keeps_flag sqrt g dt (sp :: r) s) as H.
  destruct (fallSamples sqrt g dt (sp :: r) s). exact H.
Qed.

Lemma tickStats_keeps_flag (sqrt : Q -> Q) (g dt : Q) (s : Engine) :
  needsRedraw (tickStats sqrt g dt s) = needsRedraw s.
Proof.
  unfold tickStats. destruct (statParticles s) as [|p r]; [reflexivity|].
  pose proof (fallStats_keeps_flag sqrt g dt (p :: r) s) as H.
  destruct (fallStats sqrt g dt (p :: r) s). exact H.
Qed.

Lemma tickGather_keeps_flag (sqrt : Q -> Q) (now : Q) (s : Engine) :
  needsRedraw (tickGather sqrt now s) = needsRedraw s.
Proof.
  unfold tickGather. destruct (gathering s); [|reflexivity].
  destruct (gatherTarget s) as [gt|]; [|reflexivity].
  cbv zeta. match goal with |- context [if ?c then _ else _] => destruct c end;
    reflexivity.
Qed.

(** [tick] never clears the flag, and sets it whenever an animation was
    active at its start. *)
Lemma tick_flag (sqrt : Q -> Q) (dt now : Q) (s : Engine) :
  (needsRedraw s = true -> needsRedraw (tick sqrt dt now s) = true)
  /\ (hasActiveAnimations s = true -> needsRedraw (tick sqrt dt now s) = true).
Proof.
  unfold tick. cbv zeta.
  set (s4 := tickStats sqrt (gravity s) dt _).
  assert (K : needsRedraw (tickFlashes now s4) = needsRedraw s).
  { cbn [tickFlashes needsRedraw set_popFlashes]. subst s4.
    now rewrite tickStats_keeps_flag, tickGather_keeps_flag,
      tickSamples_keeps_flag, tickEmission_keeps_flag. }
  split.
  - intro H. destruct (hasActiveAnimations (tickFlashes now s4) || _);
      [reflexivity|]. now rewrite K.
  - intro H. rewrite H, orb_true_r. reflexivity.
Qed.

(** Without any animation, [tick] returns the engine it was given. *)
Lemma tick_idle (sqrt : Q -> Q) (dt now : Q) (s : Engine) :
  hasActiveAnimations s = false -> tick sqrt dt now s = s.
Proof.
  intro H. unfold hasActiveAnimations in H.
  destruct (emissionPlan s) eqn:E1; [discriminate|].
  destruct (sampleParticles s) eqn:E2; [|discriminate].
  destruct (statParticles s) eqn:E3; [|discriminate].
  destruct (gathering s) eqn:E4; [discriminate|].
  destruct (popFlashes s) eqn:E5; [|discriminate].
  destruct (gatherParticles s) eqn:E6; [|discriminate].
  destruct s. cbn in E1, E2, E3, E4, E5, E6. subst.
  reflexivity.
Qed.

Lemma calculateWithGather_keeps_flag (sqrt : Q -> Q) (now : Q) (s : Engine) :
  needsRedraw (calculateWithGather sqrt now s) = needsRedraw s.
Proof.
  unfold calculateWithGather.
  destruct (negb (nonemptyb (lastSample s)) && negb (hasSampleInMid s));
    reflexivity.
Qed.

Lemma startSample_keeps_flag (n : nat) (dropMs now : Q) (s : Engine) :
  needsRedraw (startSample n dropMs now s) = needsRedraw s.
Proof. unfold startSample. rewrite sampleN_result. reflexivity. Qed.

(** No operation other than the render step clears the flag. *)
Lemma perform_keeps_flag (sqrt exp log : Q -> Q) (a : Action) (s : Engine) :
  needsRedraw s = true -> needsRedraw (perform sqrt exp log a s) = true.
Proof.
  intro H. destruct a; cbn [perform]; try reflexivity; try exact H.
  - unfold clickPopulation. destruct (Qltb _ _); [exact H|reflexivity].
  - unfold altClickPopulation. destruct (Qltb _ _); [exact H|reflexivity].
  - now rewrite startSample_keeps_flag.
  - now rewrite calculateWithGather_keeps_flag.
  - unfold drawSampleWithAutoCalculate.
    destruct (nonemptyb (lastSample s) || hasSampleInMid s); cbn [fst].
    + now rewrite calculateWithGather_keeps_flag.
    + now rewrite startSample_keeps_flag.
  - now apply (proj1 (tick_flag sqrt dt now s)).
Qed.

(** C7 (as amended).  With the dirty flag clear, [draw] issues no
    canvas call and returns the engine unchanged; with the flag set (and
    a context) it draws and clears the flag.  The flag is set by every
    population edit that changes anything, by a statistic or threshold
    change, by a geometry change, by clearing the tray, resetting the
    experiment and the turbo repeat, and by every [tick] that changes
    anything; no operation other than [draw] clears it.  The sampling
    operations ([startSample], [calculateWithGather],
    [drawSampleWithAutoCalculate]) and the speed and seed changes leave
    the flag as it is; a sampling operation that changes the engine
    leaves an animation active, so that the next [tick] sets the flag. *)
Theorem dirty_flag_contract :
  forall sqrt exp log : Q -> Q,
    (forall s : Engine, needsRedraw s = false -> draw s = (s, []))
    /\ (forall s : Engine,
          ctx s = true -> needsRedraw s = true ->
          needsRedraw (fst (draw s)) = false /\ snd (draw s) <> [])
    /\ (forall (name : Generator) (s : Engine),
          needsRedraw (applyGenerator sqrt exp log name s) = true)
    /\ (forall (x y : Q) (s : Engine),
          clickPopulation sqrt x y s = s
          \/ needsRedraw (clickPopulation sqrt x y s) = true)
    /\ (forall (x y : Q) (s : Engine),
          altClickPopulation sqrt x y s = s
          \/ needsRedraw (altClickPopulation sqrt x y s) = true)
    /\ (forall (v : Statistic) (s : Engine),
          needsRedraw (onStatisticChange sqrt v s) = true)
    /\ (forall (v : Q) (s : Engine),
          needsRedraw (onThresholdInput sqrt v s) = true)
    /\ (forall (w t m b : Q) (s : Engine),
          needsRedraw (resetGeometry w t m b s) = true)
    /\ (forall (w h : Q) (s : Engine),
          needsRedraw (layoutFromViewport w h s) = true)
    /\ (forall (dt now : Q) (s : Engine),
          tick sqrt dt now s = s \/ needsRedraw (tick sqrt dt now s) = true)
    /\ (forall (n : nat) (dropMs now dt now' : Q) (s : Engine),
          let s' := fst (drawSampleWithAutoCalculate sqrt n dropMs now s) in
          hasActiveAnimations s' = true
          /\ needsRedraw (tick sqrt dt now' s') = true)
    /\ (forall (a : Action) (s : Engine),
          needsRedraw s = true ->
          needsRedraw (perform sqrt exp log a s) = true)
    /\ (forall s : Engine,
          needsRedraw (clearTray sqrt s) = true
          /\ needsRedraw (resetExperiment sqrt s) = true
          /\ (forall n : nat, needsRedraw (handleRepeatTurbo sqrt n s) = true))
    /\ (forall (n : nat) (dropMs now : Q) (s : Engine),
          needsRedraw (startSample n dropMs now s) = needsRedraw s
          /\ needsRedraw (calculateWithGather sqrt now s) = needsRedraw s
          /\ needsRedraw (fst (drawSampleWithAutoCalculate sqrt n dropMs now s))
             = needsRedraw s
          /\ hasActiveAnimations (startSample n dropMs now s) = true
          /\ (calculateWithGather sqrt now s = s
              \/ hasActiveAnimations (calculateWithGather sqrt now s) = true))
    /\ (forall (v : Speed) (seed : Z) (s : Engine),
          needsRedraw (onSpeedChange v s) = needsRedraw s
          /\ needsRedraw (onSeedInput seed s) = needsRedraw s)
    /\ (forall (dt now : Q) (s : Engine),
          hasActiveAnimations s = true ->
          needsRedraw (tick sqrt dt now s) = true).
Proof.
  intros sqrt exp log.
  split.
  { intros s H. unfold draw. rewrite H. now rewrite orb_true_r. }
  split.
  { intros s C H. unfold draw. rewrite C, H. cbn. split; [reflexivity|discriminate]. }
  split; [reflexivity|].
  split.
  { intros x y s. unfold clickPopulation.
    destruct (Qltb _ _); [left|right]; reflexivity. }
  split.
  { intros x y s. unfold altClickPopulation.
    destruct (Qltb _ _); [left|right]; reflexivity. }
  split; [reflexivity|]. split; [reflexivity|].
  split; [reflexivity|]. split; [reflexivity|].
  split.
  { intros dt now s. destruct (hasActiveAnimations s) eqn:A.
    - right. now apply (proj2 (tick_flag sqrt dt now s)).
    - left. now apply tick_idle. }
  split.
  { intros n dropMs now dt now' s s'.
    assert (A : hasActiveAnimations s' = true).
    { subst s'. unfold drawSampleWithAutoCalculate.
      destruct (nonemptyb (lastSample s) || hasSampleInMid s) eqn:C; cbn [fst].
      - unfold calculateWithGather.
        rewrite <- negb_orb, C. cbn [negb].
        unfold hasActiveAnimations. cbn. now rewrite !orb_true_r.
      - unfold startSample. rewrite sampleN_result. reflexivity. }
    split; [exact A|]. now apply (proj2 (tick_flag sqrt dt now' s')). }
  split; [intros a s; apply perform_keeps_flag|].
  split.
  { intro s. split; [reflexivity|]. split; [reflexivity|].
    intro n. reflexivity. }
  split.
  { intros n dropMs now s.
    split; [apply startSample_keeps_flag|].
    split; [apply calculateWithGather_keeps_flag|].
    split.
    { unfold drawSampleWithAutoCalculate.
      destruct (nonemptyb (lastSample s) || hasSampleInMid s); cbn [fst];
        [apply calculateWithGather_keeps_flag | apply startSample_keeps_flag]. }
    split.
    { unfold startSample. rewrite sampleN_result. reflexivity. }
    unfold calculateWithGather.
    destruct (negb (nonemptyb (lastSample s)) && negb (hasSampleInMid s));
      [now left | right].
    unfold hasActiveAnimations. cbn. now rewrite !orb_true_r. }
  split; [intros v seed s; split; reflexivity|].
  intros dt now s. apply (proj2 (tick_flag sqrt dt now s)).
Qed.

(** C7, as stated, fails.  The flag is not set by every mutating
    operation: on the engine that has just been rendered, a sampling request stores a sample, an
    emission plan and a new generator state, and the gather that follows
    empties the sample again and starts the gathering animation, both
    with the flag left clear, so that [draw] still does nothing. *)
Lemma sampling_leaves_flag_clear :
  needsRedraw readyEngine = false
  /\ lastSample readyEngine = []
  /\ lastSample busyEngine <> []
  /\ needsRedraw busyEngine = false
  /\ lastSample (calculateWithGather sqrtQ 0 busyEngine) = []
  /\ gathering busyEngine = false
  /\ gathering (calculateWithGather sqrtQ 0 busyEngine) = true
  /\ needsRedraw (calculateWithGather sqrtQ 0 busyEngine) = false
  /\ snd (draw (calculateWithGather sqrtQ 0 busyEngine)) = []
  /\ ~ setsFlagIfChanges (startSample 30 1200 0)
  /\ ~ setsFlagIfChanges (calculateWithGather sqrtQ 0).
Proof.
  assert (R : needsRedraw readyEngine = false) by reflexivity.
  assert (L0 : lastSample readyEngine = []) by reflexivity.
  assert (B : needsRedraw busyEngine = false).
  { unfold busyEngine. now rewrite startSample_keeps_flag. }
  assert (L1 : lastSample busyEngine <> []).
  { unfold busyEngine, startSample. rewrite sampleN_result.
    cbn [lastSample scheduleEmission set_lastSample set_emissionPlan fst snd].
    intro E. apply (f_equal (@length Q)) in E.
    rewrite length_map, length_map, rngStream_length in E. discriminate. }
  assert (C : calculateWithGather sqrtQ 0 busyEngine
              = set_lastSample []
                  (calculateWithGather sqrtQ 0 busyEngine)
              /\ gathering (calculateWithGather sqrtQ 0 busyEngine) = true).
  { unfold calculateWithGather.
    destruct (lastSample busyEngine) as [|x r] eqn:E; [contradiction|].
    cbn [nonemptyb negb andb]. split; reflexivity. }
  destruct C as [C1 C2].
  assert (G : gathering busyEngine = false) by reflexivity.
  assert (F : needsRedraw (calculateWithGather sqrtQ 0 busyEngine) = false)
    by now rewrite calculateWithGather_keeps_flag.
  split; [exact R|]. split; [exact L0|]. split; [exact L1|].
  split; [exact B|].
  split; [rewrite C1; reflexivity|].
  split; [exact G|]. split; [exact C2|]. split; [exact F|].
  split.
  { unfold draw. rewrite F. now rewrite orb_true_r. }
  split.
  - intro H. destruct (H readyEngine) as [E|E].
    + apply L1. unfold busyEngine. rewrite E. exact L0.
    + fold busyEngine in E. congruence.
  - intro H. destruct (H busyEngine) as [E|E].
    + rewrite E in C2. congruence.
    + congruence.
Qed.


Lemma dirty_flag_contract_witness :
  draw (set_needsRedraw false flatEngine) = (set_needsRedraw false flatEngine, [])
  /\ needsRedraw (fst (draw flatEngine)) = false
  /\ needsRedraw (perform sqrtQ expQ logQ (ATick (16 # 1000) 0) flatEngine) = true.
Proof.
  destruct (dirty_flag_contract sqrtQ expQ logQ)
    as (Hn & Hd & _ & _ & _ & _ & _ & _ & _ & _ & _ & Hk & _).
  split; [apply Hn; reflexivity|].
  split; [apply Hd; reflexivity|].
  apply Hk. reflexivity.
Defined.

(* ================================================================== *)
(** ** Properties: a sampling request while a sample is current *)
(* ================================================================== *)

Lemma expandCounts_nonempty (counts : list Z) :
  existsb (fun i => 0 <? ta_get0 counts i) colRange = true ->
  expandCounts counts <> [].
Proof.
  unfold expandCounts. generalize colRange. intro l.
  induction l as [|c r IH]; simpl; [discriminate|].
  destruct (Z.ltb_spec 0 (ta_get0 counts c)) as [P|_]; simpl.
  - intros _. destruct (Z.to_nat (ta_get0 counts c)) eqn:E; [lia|].
    simpl. discriminate.
  - intros H C. apply app_eq_nil in C. destruct C as [_ C]. now apply IH.
Qed.

(** What the call does at once when a current sample exists. *)
Lemma drawSample_starts_gather (sqrt : Q -> Q) (n : nat) (dropMs now : Q) (s : Engine) :
  nonemptyb (lastSample s) || hasSampleInMid s = true ->
  let r := drawSampleWithAutoCalculate sqrt n dropMs now s in
  let sample :=
    if nonemptyb (lastSample s) then lastSample s
    else expandCounts (midCounts s) in
  let bin := binOf (computeStat sqrt s sample) (statDomain s) in
  snd r = Some (mkTimer (now + 100) n dropMs)
  /\ (botCounts (fst r), statParticles (fst r), emissionPlan (fst r),
      sampleParticles (fst r), rng (fst r), popCounts (fst r))
     = (botCounts s, statParticles s, emissionPlan s,
        sampleParticles s, rng s, popCounts s)
  /\ midCounts (fst r) = zeros COLS
  /\ lastSample (fst r) = []
  /\ lastGatheringSample (fst r) = Some sample
  /\ gathering (fst r) = true
  /\ gatherStart (fst r) = now
  /\ (exists gt : GatherTarget,
        gatherTarget (fst r) = Some gt /\ gt_bin gt = bin)
  /\ (exists b : Z, bin = Num (inject_Z b) /\ 0 <= b <= STAT_BINS - 1).
Proof.
  intros C r sample bin. subst r. unfold drawSampleWithAutoCalculate.
  rewrite C. cbn [fst snd]. unfold calculateWithGather.
  rewrite <- negb_orb, C. cbn [negb]. cbv zeta.
  split; [reflexivity|]. split; [reflexivity|].
  split; [reflexivity|]. split; [reflexivity|].
  split; [reflexivity|]. split; [reflexivity|].
  split; [reflexivity|].
  split; [eexists; split; reflexivity|].
  assert (Hne : sample <> []).
  { subst sample. destruct (nonemptyb (lastSample s)) eqn:L.
    - destruct (lastSample s); [discriminate|congruence].
    - simpl in C. now apply expandCounts_nonempty. }
  destruct (computeStat_nonempty sqrt s sample Hne) as [q Hq].
  destruct (binOf_general (statDomain s) (proj1 (statDomain_wide s)))
    as (Hr & _).
  subst bin. rewrite Hq. now apply Hr.
Qed.

Lemma fallStats_spec (sqrt : Q -> Q) (g dt : Q) (parts : list StatParticle) :
  forall s : Engine,
    let moved := map (moveStat g dt) parts in
    fst (fallStats sqrt g dt parts s) = List.filter statInAir moved
    /\ botCounts (snd (fallStats sqrt g dt parts s))
       = fold_left (fun a b => ta_setN toUint32 a b (ta_getN0 a b + 1))
           (map st_bin (List.filter (fun p => negb (statInAir p)) moved))
           (botCounts s).
Proof.
  induction parts as [|p r IH]; intro s; cbn [fallStats map List.filter].
  - split; reflexivity.
  - destruct (statInAir (moveStat g dt p)) eqn:E; cbn [negb].
    + specialize (IH s). cbv zeta in IH. destruct IH as [IH1 IH2].
      destruct (fallStats sqrt g dt r s) as [surv s'].
      cbn [fst snd] in *. now rewrite IH1, IH2.
    + specialize (IH (landStat sqrt (st_bin (moveStat g dt p)) s)).
      cbv zeta in IH. destruct IH as [IH1 IH2].
      split; [exact IH1|]. rewrite IH2. reflexivity.
Qed.

Lemma tickStats_spec (sqrt : Q -> Q) (g dt : Q) (s : Engine) :
  let moved := map (moveStat g dt) (statParticles s) in
  statParticles (tickStats sqrt g dt s) = List.filter statInAir moved
  /\ botCounts (tickStats sqrt g dt s)
     = fold_left (fun a b => ta_setN toUint32 a b (ta_getN0 a b + 1))
         (map st_bin (List.filter (fun p => negb (statInAir p)) moved))
         (botCounts s).
Proof.
  unfold tickStats. destruct (statParticles s) as [|p r] eqn:E.
  - rewrite E. split; reflexivity.
  - destruct (fallStats_spec sqrt g dt (p :: r) s) as [H1 H2].
    destruct (fallStats sqrt g dt (p :: r) s) as [surv s'].
    cbn [fst snd] in H1, H2. split; [exact H1 | exact H2].
Qed.

(** The gather phase of [tick]: nothing is counted; when the time
    fraction reaches 1 exactly one statistic particle is created for the
    target bin and the gather ends. *)
Lemma tickGather_spec (sqrt : Q -> Q) (now : Q) (s : Engine) (gt : GatherTarget) :
  gathering s = true -> gatherTarget s = Some gt ->
  let t :=
    clamp (ndiv (Num (now - gatherStart s)) (Num (gatherDur s)))
          (Num 0) (Num 1) in
  botCounts (tickGather sqrt now s) = botCounts s
  /\ (nle (Num 1) t = true ->
      gathering (tickGather sqrt now s) = false
      /\ gatherTarget (tickGather sqrt now s) = None
      /\ exists p : StatParticle,
           st_bin p = gt_bin gt
           /\ statParticles (tickGather sqrt now s) = statParticles s ++ [p])
  /\ (nle (Num 1) t = false ->
      gathering (tickGather sqrt now s) = true
      /\ gatherTarget (tickGather sqrt now s) = Some gt
      /\ statParticles (tickGather sqrt now s) = statParticles s).
Proof.
  intros G T t. unfold tickGather. rewrite G, T. cbv zeta. fold t.
  destruct (nle (Num 1) t).
  - split; [reflexivity|]. split; [|discriminate].
    intros _. split; [reflexivity|]. split; [reflexivity|].
    eexists. split; [|reflexivity]. reflexivity.
  - split; [reflexivity|]. split; [discriminate|].
    intros _. cbn. rewrite G, T. repeat split.
Qed.

Lemma bumpBot_exact (a : list Z) (b v : Z) :
  ta_get a b = Some v -> 0 <= v < 4294967295 ->
  ta_getN (ta_setN toUint32 a (Num (inject_Z b)) (ta_getN0 a (Num (inject_Z b)) + 1))
          (Num (inject_Z b)) = Some (v + 1)
  /\ sumZ (ta_setN toUint32 a (Num (inject_Z b)) (ta_getN0 a (Num (inject_Z b)) + 1))
     = sumZ a + 1.
Proof.
  intros Hget Hv. unfold ta_setN, ta_getN0, ta_getN. rewrite intOf_inject.
  rewrite Hget. simpl. unfold ta_set, ta_get in *.
  destruct (Z.ltb_spec b 0); [discriminate|].
  assert (W : toUint32 (v + 1) = v + 1).
  { unfold toUint32. apply Z.mod_small. lia. }
  rewrite W. split.
  - apply list_lookup_insert_eq. now apply lookup_lt_Some in Hget.
  - rewrite (sumZ_insert a _ v (v + 1) Hget). lia.
Qed.

Lemma startSample_spec (n : nat) (dropMs now : Q) (s : Engine) :
  emissionPlan (startSample n dropMs now s)
  = Some (mkPlan now (now + dropMs) 0 (snd (fst (sampleN n s)))
                 (fst (fst (sampleN n s))))
  /\ lastSample (startSample n dropMs now s) = fst (fst (sampleN n s))
  /\ (midCounts (startSample n dropMs now s),
      sampleParticles (startSample n dropMs now s),
      botCounts (startSample n dropMs now s),
      statParticles (startSample n dropMs now s),
      gathering (startSample n dropMs now s))
     = (midCounts s, sampleParticles s, botCounts s, statParticles s, gathering s).
Proof.
  unfold startSample. rewrite sampleN_result. repeat split.
Qed.

(** Emission, the fall of the sample particles, the flashes, [draw] and
    the timer callbacks leave the gather and the sampling distribution
    alone. *)
Lemma tickEmission_gatherState (sqrt : Q -> Q) (now : Q) (s : Engine) :
  gatherState (tickEmission sqrt now s) = gatherState s.
Proof.
  unfold tickEmission. destruct (emissionPlan s) as [p|]; [|reflexivity].
  cbv zeta.
  match goal with |- context [if nlt (Num 0) ?t then _ else _] =>
    destruct (nlt (Num 0) t) end.
  - match goal with |- context [emitLoop ?a ?b ?c ?d ?e ?f] =>
      destruct (emitLoop a b c d e f) as [fl parts] end.
    cbn [emissionPlan set_emissionPlan].
    match goal with |- context [if ?c then _ else _] => destruct c end;
      reflexivity.
  - destruct (emissionPlan s) as [p1|]; [|reflexivity].
    match goal with |- context [if ?c then _ else _] => destruct c end;
      reflexivity.
Qed.

Lemma fallSamples_gatherState (sqrt : Q -> Q) (g dt : Q) (parts : list SampleParticle) :
  forall s : Engine,
    gatherState (snd (fallSamples sqrt g dt parts s)) = gatherState s.
Proof.
  induction parts as [|sp r IH]; intro s; cbn [fallSamples]; [reflexivity|].
  destruct (sampleInAir (moveSample g dt sp)).
  - specialize (IH s). destruct (fallSamples sqrt g dt r s). exact IH.
  - rewrite IH. reflexivity.
Qed.

Lemma tickSamples_gatherState (sqrt : Q -> Q) (g dt : Q) (s : Engine) :
  gatherState (tickSamples sqrt g dt s) = gatherState s.
Proof.
  unfold tickSamples. destruct (sampleParticles s) as [|sp r]; [reflexivity|].
  pose proof (fallSamples_gatherState sqrt g dt (sp :: r) s) as H.
  destruct (fallSamples sqrt g dt (sp :: r) s). exact H.
Qed.

Lemma fallStats_keeps_gather (sqrt : Q -> Q) (g dt : Q) (parts : list StatParticle) :
  forall s : Engine,
    gathering (snd (fallStats sqrt g dt parts s)) = gathering s
    /\ gatherTarget (snd (fallStats sqrt g dt parts s)) = gatherTarget s.
Proof.
  induction parts as [|p r IH]; intro s; cbn [fallStats]; [split; reflexivity|].
  destruct (statInAir (moveStat g dt p)).
  - specialize (IH s). destruct (fallStats sqrt g dt r s) as [surv s'].
    exact IH.
  - destruct (IH (landStat sqrt (st_bin (moveStat g dt p)) s)) as [A B].
    split; [rewrite A | rewrite B]; reflexivity.
Qed.

Lemma tickStats_keeps_gather (sqrt : Q -> Q) (g dt : Q) (s : Engine) :
  gathering (tickStats sqrt g dt s) = gathering s
  /\ gatherTarget (tickStats sqrt g dt s) = gatherTarget s.
Proof.
  unfold tickStats. destruct (statParticles s) as [|p r]; [split; reflexivity|].
  destruct (fallStats_keeps_gather sqrt g dt (p :: r) s) as [A B].
  destruct (fallStats sqrt g dt (p :: r) s) as [surv s'].
  cbn [snd] in A, B. split; [exact A | exact B].
Qed.

Lemma draw_gatherState (s : Engine) : gatherState (fst (draw s)) = gatherState s.
Proof.
  unfold draw. destruct (negb (ctx s) || negb (needsRedraw s)); reflexivity.
Qed.

Lemma startSample_gatherState (n : nat) (dropMs now : Q) (s : Engine) :
  gatherState (startSample n dropMs now s) = gatherState s.
Proof. unfold startSample. rewrite sampleN_result. reflexivity. Qed.

Lemma fireTimers_gatherState (now : Q) (ts : list Timer) :
  forall s : Engine, gatherState (fst (fireTimers now ts s)) = gatherState s.
Proof.
  induction ts as [|t r IH]; intro s; cbn [fireTimers]; [reflexivity|].
  destruct (Qle_bool (timer_due t) now).
  - rewrite IH. apply startSample_gatherState.
  - specialize (IH s). destruct (fireTimers now r s). exact IH.
Qed.

Lemma GatherStage_ext (bin : num) (B0 : list Z) (s s' : Engine) :
  gatherState s' = gatherState s -> GatherStage bin B0 s -> GatherStage bin B0 s'.
Proof.
  unfold gatherState. intros E H. injection E as E1 E2 E3 E4.
  destruct H as [gt G T B P C | p G P B C | G P C].
  - apply (StageGathering _ _ _ gt); congruence.
  - apply (StageFalling _ _ _ p); congruence.
  - apply StageCounted; congruence.
Qed.

(** Every phase of [tick] keeps the gather in one of its stages. *)
Lemma tickGather_stage (sqrt : Q -> Q) (now : Q) (bin : num) (B0 : list Z) (s : Engine) :
  GatherStage bin B0 s -> GatherStage bin B0 (tickGather sqrt now s).
Proof.
  intros [gt G T B P C | p G P B C | G P C].
  - destruct (tickGather_spec sqrt now s gt G T) as (Hb & Hend & Hgo).
    cbv zeta in Hend, Hgo.
    destruct (nle (Num 1)
                (clamp (ndiv (Num (now - gatherStart s)) (Num (gatherDur s)))
                       (Num 0) (Num 1))).
    + destruct (Hend eq_refl) as (G' & _ & p & Bp & Sp).
      rewrite P in Sp. cbn [app] in Sp.
      apply (StageFalling _ _ _ p); congruence.
    + destruct (Hgo eq_refl) as (G' & T' & Sp).
      apply (StageGathering _ _ _ gt); congruence.
  - unfold tickGather. rewrite G. now apply (StageFalling _ _ _ p).
  - unfold tickGather. rewrite G. now apply StageCounted.
Qed.

Lemma tickStats_stage (sqrt : Q -> Q) (g dt : Q) (bin : num) (B0 : list Z) (s : Engine) :
  GatherStage bin B0 s -> GatherStage bin B0 (tickStats sqrt g dt s).
Proof.
  intros [gt G T B P C | p G P B C | G P C].
  - unfold tickStats. rewrite P. now apply (StageGathering _ _ _ gt).
  - destruct (tickStats_spec sqrt g dt s) as [H1 H2]. cbv zeta in H1, H2.
    destruct (tickStats_keeps_gather sqrt g dt s) as [K1 _].
    rewrite P in H1, H2. cbn [map List.filter] in H1, H2.
    destruct (statInAir (moveStat g dt p)) eqn:A;
      cbn [negb map fold_left List.filter] in H1, H2.
    + apply (StageFalling _ _ _ (moveStat g dt p));
        [congruence | exact H1 | exact B | congruence].
    + apply StageCounted; [congruence | exact H1 |].
      rewrite H2, C. change (st_bin (moveStat g dt p)) with (st_bin p).
      now rewrite B.
  - unfold tickStats. rewrite P. now apply StageCounted.
Qed.

Lemma tick_stage (sqrt : Q -> Q) (dt now : Q) (bin : num) (B0 : list Z) (s : Engine) :
  GatherStage bin B0 s -> GatherStage bin B0 (tick sqrt dt now s).
Proof.
  intro H. unfold tick. cbv zeta.
  set (s4 := tickStats sqrt (gravity s) dt _).
  assert (H4 : GatherStage bin B0 s4).
  { subst s4. apply tickStats_stage, tickGather_stage.
    eapply GatherStage_ext; [|exact H].
    now rewrite tickSamples_gatherState, tickEmission_gatherState. }
  clearbody s4.
  assert (H5 : GatherStage bin B0 (tickFlashes now s4))
    by (eapply GatherStage_ext; [|exact H4]; reflexivity).
  destruct (hasActiveAnimations (tickFlashes now s4) || hasActiveAnimations s);
    [|exact H5].
  eapply GatherStage_ext; [|exact H5]. reflexivity.
Qed.

Lemma step_stage (sqrt : Q -> Q) (bin : num) (B0 : list Z) (w : World) (e : Event) :
  quietEvent e = true ->
  GatherStage bin B0 (engine w) -> GatherStage bin B0 (engine (step sqrt w e)).
Proof.
  intros Q H. destruct e as [n dropMs now | now | dt now]; [discriminate | |];
    cbn [step].
  - pose proof (fireTimers_gatherState now (timers w) (engine w)) as F.
    destruct (fireTimers now (timers w) (engine w)) as [s' ts'].
    cbn [engine fst] in *. eapply GatherStage_ext; [exact F | exact H].
  - cbn [engine]. unfold animate. cbv zeta.
    pose proof (tick_stage sqrt dt now bin B0 (engine w) H) as T.
    destruct (needsRedraw _ || hasActiveAnimations _); cbn [fst]; [|exact T].
    eapply GatherStage_ext; [apply draw_gatherState | exact T].
Qed.

Lemma run_stage (sqrt : Q -> Q) (bin : num) (B0 : list Z) (es : list Event) :
  forall w : World,
    forallb quietEvent es = true ->
    GatherStage bin B0 (engine w) -> GatherStage bin B0 (engine (run sqrt w es)).
Proof.
  unfold run. induction es as [|e r IH]; intros w Q H; cbn [fold_left];
    [exact H|].
  cbn [forallb] in Q. apply andb_true_iff in Q as [Q1 Q2].
  apply IH; [exact Q2|]. now apply step_stage.
Qed.

Lemma settled_stage (bin : num) (B0 : list Z) (s : Engine) :
  GatherStage bin B0 s -> hasActiveAnimations s = false ->
  botCounts s = ta_setN toUint32 B0 bin (ta_getN0 B0 bin + 1).
Proof.
  intros [gt G T B P C | p G P B C | G P C] A; [| |exact C];
    unfold hasActiveAnimations in A; rewrite ?G, ?P in A;
    cbn in A; rewrite ?orb_true_r in A; discriminate.
Qed.

Lemma bump_cell (a : list Z) (b : Z) :
  0 <= b -> (Z.to_nat b < length a)%nat ->
  Forall (fun v => 0 <= v < 4294967295) a ->
  ta_setN toUint32 a (Num (inject_Z b)) (ta_getN0 a (Num (inject_Z b)) + 1)
  = <[Z.to_nat b := ta_get0 a b + 1]> a
  /\ sumZ (<[Z.to_nat b := ta_get0 a b + 1]> a) = sumZ a + 1.
Proof.
  intros Hb Hlen Hall.
  destruct (lookup_lt_is_Some_2 a (Z.to_nat b) Hlen) as [v Hv].
  assert (G : ta_get a b = Some v).
  { unfold ta_get. destruct (Z.ltb_spec b 0); [lia | exact Hv]. }
  pose proof (Forall_lookup_1 _ _ _ _ Hall Hv) as R. cbv beta in R.
  assert (G0 : ta_get0 a b = v) by (unfold ta_get0; now rewrite G).
  unfold ta_setN, ta_getN0, ta_getN. rewrite intOf_inject, G. simpl.
  unfold ta_set. destruct (Z.ltb_spec b 0); [lia|].
  assert (W : toUint32 (v + 1) = v + 1).
  { unfold toUint32. apply Z.mod_small. lia. }
  rewrite W, G0. split; [reflexivity|].
  rewrite (sumZ_insert a _ v (v + 1) Hv). lia.
Qed.

(** From the request to the settled engine: exactly one count, in the
    bin of the gathered sample's statistic. *)
Lemma gather_counts_once (sqrt : Q -> Q) (n : nat) (dropMs now : Q)
    (s : Engine) (ts : list Timer) (es : list Event) :
  nonemptyb (lastSample s) || hasSampleInMid s = true ->
  statParticles s = [] ->
  length (botCounts s) = Z.to_nat STAT_BINS ->
  Forall (fun v => 0 <= v < 4294967295) (botCounts s) ->
  forallb quietEvent es = true ->
  let sample :=
    if nonemptyb (lastSample s) then lastSample s
    else expandCounts (midCounts s) in
  let w := run sqrt (mkWorld s ts) (EvDrawSample n dropMs now :: es) in
  hasActiveAnimations (engine w) = false ->
  exists b : Z,
    binOf (computeStat sqrt s sample) (statDomain s) = Num (inject_Z b)
    /\ 0 <= b <= STAT_BINS - 1
    /\ botCounts (engine w)
       = <[Z.to_nat b := ta_get0 (botCounts s) b + 1]> (botCounts s)
    /\ sumZ (botCounts (engine w)) = sumZ (botCounts s) + 1.
Proof.
  intros C P L R Q sample w A.
  destruct (drawSample_starts_gather sqrt n dropMs now s C)
    as (_ & Hf & _ & _ & _ & Hg & _ & (gt & Ht & Hb) & (b & Hbin & Hrange)).
  cbv zeta in Hf, Hg, Ht, Hb, Hbin. fold sample in Hb, Hbin.
  exists b. split; [exact Hbin|]. split; [exact Hrange|].
  assert (S0 : GatherStage (Num (inject_Z b)) (botCounts s)
                 (engine (step sqrt (mkWorld s ts) (EvDrawSample n dropMs now)))).
  { cbn [step engine].
    destruct (drawSampleWithAutoCalculate sqrt n dropMs now s) as [s' t].
    cbn [fst engine] in *.
    apply (StageGathering _ _ _ gt); congruence. }
  assert (F : botCounts (engine w)
              = ta_setN toUint32 (botCounts s) (Num (inject_Z b))
                  (ta_getN0 (botCounts s) (Num (inject_Z b)) + 1)).
  { apply settled_stage; [|exact A].
    subst w. unfold run. cbn [fold_left].
    apply (run_stage sqrt _ _ es _ Q S0). }
  destruct (bump_cell (botCounts s) b) as [E1 E2];
    [lia | rewrite L; unfold STAT_BINS, COLS in *; lia | exact R |].
  rewrite F, E1. split; [reflexivity | exact E2].
Qed.

(** C2 (as amended). A sampling request that finds a current sample
    (a non-empty [lastSample] or a non-empty sample histogram) does not
    resolve it instantly.  The call starts an animated gather: it clears
    the sample histogram and [lastSample], records as gather target the
    bin of the current sample's statistic (a valid index), leaves the
    sampling-distribution histogram, the statistic particles and the
    generator as they are, and leaves the new sample to a timer due
    100 ms later.  The sampling distribution is written by later ticks
    only: the gather phase counts nothing and, when its time fraction
    reaches 1, creates exactly one statistic particle for the target bin;
    the fall phase adds one to the bin of each statistic particle that
    lands.  The timer callback makes the new sample of [n] values the
    current one (scheduling its emission when none is pending) and
    leaves the gather, the statistic particles and the sampling
    distribution alone.  So, with no statistic particle in flight at the
    request, counts below the 32-bit maximum and only timers and frames
    after the request, once the engine has settled the sampling
    distribution has been incremented by exactly one, in the bin of the
    first sample's statistic.  On an engine without current sample and
    without pending emission the request starts the new sample at once. *)
Theorem sampling_request_starts_deferred_gather :
  forall (sqrt : Q -> Q) (n : nat) (dropMs now : Q) (s : Engine),
    (nonemptyb (lastSample s) || hasSampleInMid s = true ->
     let r := drawSampleWithAutoCalculate sqrt n dropMs now s in
     let sample :=
       if nonemptyb (lastSample s) then lastSample s
       else expandCounts (midCounts s) in
     let bin := binOf (computeStat sqrt s sample) (statDomain s) in
     snd r = Some (mkTimer (now + 100) n dropMs)
     /\ (botCounts (fst r), statParticles (fst r), rng (fst r),
         popCounts (fst r))
        = (botCounts s, statParticles s, rng s, popCounts s)
     /\ midCounts (fst r) = zeros COLS
     /\ lastSample (fst r) = []
     /\ lastGatheringSample (fst r) = Some sample
     /\ gathering (fst r) = true
     /\ gatherStart (fst r) = now
     /\ (exists gt : GatherTarget,
           gatherTarget (fst r) = Some gt /\ gt_bin gt = bin)
     /\ (exists b : Z, bin = Num (inject_Z b) /\ 0 <= b <= STAT_BINS - 1))
    /\ (nonemptyb (lastSample s) || hasSampleInMid s = false ->
        emissionPlan s = None ->
        drawSampleWithAutoCalculate sqrt n dropMs now s
        = (startSample n dropMs now s, None))
    /\ (forall (now' : Q) (gt : GatherTarget),
          gathering s = true -> gatherTarget s = Some gt ->
          let t :=
            clamp (ndiv (Num (now' - gatherStart s)) (Num (gatherDur s)))
                  (Num 0) (Num 1) in
          botCounts (tickGather sqrt now' s) = botCounts s
          /\ (nle (Num 1) t = true ->
              gathering (tickGather sqrt now' s) = false
              /\ gatherTarget (tickGather sqrt now' s) = None
              /\ exists p : StatParticle,
                   st_bin p = gt_bin gt
                   /\ statParticles (tickGather sqrt now' s)
                      = statParticles s ++ [p])
          /\ (nle (Num 1) t = false ->
              gathering (tickGather sqrt now' s) = true
              /\ gatherTarget (tickGather sqrt now' s) = Some gt
              /\ statParticles (tickGather sqrt now' s) = statParticles s))
    /\ (forall g dt : Q,
          let moved := map (moveStat g dt) (statParticles s) in
          statParticles (tickStats sqrt g dt s) = List.filter statInAir moved
          /\ botCounts (tickStats sqrt g dt s)
             = fold_left (fun a b => ta_setN toUint32 a b (ta_getN0 a b + 1))
                 (map st_bin (List.filter (fun p => negb (statInAir p)) moved))
                 (botCounts s))
    /\ (forall (a : list Z) (b v : Z),
          ta_get a b = Some v -> 0 <= v < 4294967295 ->
          ta_getN (ta_setN toUint32 a (Num (inject_Z b))
                           (ta_getN0 a (Num (inject_Z b)) + 1))
                  (Num (inject_Z b)) = Some (v + 1)
          /\ sumZ (ta_setN toUint32 a (Num (inject_Z b))
                           (ta_getN0 a (Num (inject_Z b)) + 1))
             = sumZ a + 1)
    /\ (forall (n' : nat) (dropMs' now' : Q),
          lastSample (startSample n' dropMs' now' s) = fst (fst (sampleN n' s))
          /\ length (lastSample (startSample n' dropMs' now' s)) = n'
          /\ gatherState (startSample n' dropMs' now' s) = gatherState s
          /\ (emissionPlan s = None ->
              emissionPlan (startSample n' dropMs' now' s)
              = Some (mkPlan now' (now' + dropMs') 0
                             (snd (fst (sampleN n' s)))
                             (fst (fst (sampleN n' s))))))
    /\ (forall (ts : list Timer) (es : list Event),
          nonemptyb (lastSample s) || hasSampleInMid s = true ->
          statParticles s = [] ->
          length (botCounts s) = Z.to_nat STAT_BINS ->
          Forall (fun v => 0 <= v < 4294967295) (botCounts s) ->
          forallb quietEvent es = true ->
          let sample :=
            if nonemptyb (lastSample s) then lastSample s
            else expandCounts (midCounts s) in
          let w := run sqrt (mkWorld s ts) (EvDrawSample n dropMs now :: es) in
          hasActiveAnimations (engine w) = false ->
          exists b : Z,
            binOf (computeStat sqrt s sample) (statDomain s) = Num (inject_Z b)
            /\ 0 <= b <= STAT_BINS - 1
            /\ botCounts (engine w)
               = <[Z.to_nat b := ta_get0 (botCounts s) b + 1]> (botCounts s)
            /\ sumZ (botCounts (engine w)) = sumZ (botCounts s) + 1).
Proof.
  intros sqrt n dropMs now s.
  split.
  { intro C.
    destruct (drawSample_starts_gather sqrt n dropMs now s C)
      as (H1 & H2 & H3 & H4 & H5 & H6 & H7 & H8 & H9).
    cbv zeta in *.
    split; [exact H1|]. split; [congruence|].
    split; [exact H3|]. split; [exact H4|]. split; [exact H5|].
    split; [exact H6|]. split; [exact H7|]. split; [exact H8 | exact H9]. }
  split.
  { intros C _. unfold drawSampleWithAutoCalculate. now rewrite C. }
  split; [intros now' gt; apply tickGather_spec|].
  split; [intros g dt; apply tickStats_spec|].
  split; [apply bumpBot_exact|].
  split.
  { intros n' dropMs' now'.
    destruct (startSample_spec n' dropMs' now' s) as (P & L & _).
    split; [exact L|].
    split.
    { rewrite L, sampleN_result. cbn [fst snd].
      rewrite !length_map. apply rngStream_length. }
    split; [apply startSample_gatherState|].
    intros _. exact P. }
  intros ts es. apply gather_counts_once.
Qed.

Lemma sampling_request_starts_deferred_gather_witness :
  snd (drawSampleWithAutoCalculate sqrtQ 2 1200 0 (startSample 2 1200 0 readyEngine))
  = Some (mkTimer (0 + 100) 2 1200)
  /\ drawSampleWithAutoCalculate sqrtQ 2 1200 0 readyEngine
     = (startSample 2 1200 0 readyEngine, None)
  /\ sumZ (botCounts (engine
        (run sqrtQ (mkWorld (startSample 2 1200 0 readyEngine) [])
           (EvDrawSample 2 1200 0
              :: [EvFrame (1 # 20) 50; EvFrame (1 # 20) 100; EvTimers 100]
                 ++ framesFrom 50 150))))
     = sumZ (botCounts (startSample 2 1200 0 readyEngine)) + 1.
Proof.
  destruct (sampling_request_starts_deferred_gather sqrtQ 2 1200 0
              (startSample 2 1200 0 readyEngine))
    as (Hg & _ & _ & _ & _ & _ & Hc).
  destruct (Hg eq_refl) as (Ht & _).
  destruct (sampling_request_starts_deferred_gather sqrtQ 2 1200 0 readyEngine)
    as (_ & Hn & _).
  split; [exact Ht|].
  split; [apply Hn; reflexivity|].
  destruct (Hc [] ([EvFrame (1 # 20) 50; EvFrame (1 # 20) 100; EvTimers 100]
                   ++ framesFrom 50 150))
    as (b & _ & _ & _ & Hs).
  - reflexivity.
  - reflexivity.
  - reflexivity.
  - apply List.Forall_forall. intros x Hin.
    change (botCounts (startSample 2 1200 0 readyEngine))
      with (repeat 0 60%nat) in Hin.
    apply repeat_spec in Hin. subst x. lia.
  - reflexivity.
  - lazy; reflexivity.
  - exact Hs.
Defined.

(** C2, as stated, fails.  With an emission of 30 particles active, a new
    request leaves the plan pending and the sampling distribution as it
    was; and once two back-to-back requests have settled, the sample
    histogram holds 32 counts for a current sample of 30 values (two
    particles of the first sample were released before the timer replaced
    its plan, the other 28 never were). *)
Lemma fast_forward_counterexample :
  let s' := fst (drawSampleWithAutoCalculate sqrtQ 30 1200 0 busyEngine) in
  isSomeb (emissionPlan busyEngine) = true
  /\ ~ resolvedInstantly busyEngine s'
  /\ emissionPlan s' = emissionPlan busyEngine
  /\ sumZ (botCounts s') = sumZ (botCounts busyEngine)
  /\ (let w := run sqrtQ (mkWorld readyEngine []) (backToBack 30 50) in
      (hasActiveAnimations (engine w), timers w,
       length (lastSample (engine w)),
       sumZ (midCounts (engine w)), sumZ (botCounts (engine w))))
     = (false, [], 30%nat, 32, 1).
Proof.
  intros s'.
  destruct (drawSample_starts_gather sqrtQ 30 1200 0 busyEngine eq_refl)
    as (_ & Hf & _).
  cbv zeta in Hf. fold s' in Hf.
  assert (Hb : botCounts s' = botCounts busyEngine) by congruence.
  assert (Hp : emissionPlan s' = emissionPlan busyEngine) by congruence.
  split; [reflexivity|].
  split; [intros (_ & _ & _ & C); exact (C Hp)|].
  split; [exact Hp|].
  split; [now rewrite Hb|].
  lazy. reflexivity.
Qed.

(** The same run with the smallest valid sample size: no particle of the
    first sample is released before the timer, and the settled state has
    one count in the sampling distribution and two in the sample
    histogram. *)
Example back_to_back_two_settles :
  (let w := run sqrtQ (mkWorld readyEngine []) (backToBack 2 50) in
   (hasActiveAnimations (engine w), timers w,
    sumZ (midCounts (engine w)), sumZ (botCounts (engine w))))
  = (false, [], 2, 1).
Proof. lazy. reflexivity. Qed.

(* ================================================================== *)
(** ** Further properties of the engine *)
(* ================================================================== *)

Lemma insertQ_perm (x : Q) (l : list Q) : Permutation (insertQ x l) (x :: l).
Proof.
  induction l as [|y r IH]; simpl; [reflexivity|].
  destruct (Qle_bool y x); [|reflexivity].
  rewrite IH. apply perm_swap.
Qed.

Lemma sortQ_perm (l : list Q) : Permutation (sortQ l) l.
Proof.
  unfold sortQ.
  assert (G : forall acc, Permutation (fold_left (fun a x => insertQ x a) l acc) (l ++ acc)).
  { induction l as [|x r IH]; intro acc; simpl; [reflexivity|].
    rewrite IH, insertQ_perm. symmetry. apply Permutation_middle. }
  rewrite G. now rewrite app_nil_r.
Qed.

Lemma insertQ_sorted (x : Q) (l : list Q) :
  StronglySorted Qle l -> StronglySorted Qle (insertQ x l).
Proof.
  induction 1 as [|y r Hr IH Hy]; simpl.
  - constructor; constructor.
  - destruct (Qle_bool y x) eqn:E.
    + apply Qle_bool_true in E. constructor; [exact IH|].
      rewrite insertQ_perm. constructor; assumption.
    + apply Qle_bool_false in E. constructor; [now constructor|].
      constructor; [lra|].
      eapply List.Forall_impl; [|exact Hy]. intros z Hz. simpl in Hz. lra.
Qed.

Lemma sortQ_sorted (l : list Q) : StronglySorted Qle (sortQ l).
Proof.
  unfold sortQ.
  assert (G : forall acc, StronglySorted Qle acc ->
            StronglySorted Qle (fold_left (fun a x => insertQ x a) l acc)).
  { induction l as [|x r IH]; intros acc H; simpl; [exact H|].
    apply IH. now apply insertQ_sorted. }
  apply G. constructor.
Qed.

Lemma elemQ_lookup (b : list Q) (i : Z) :
  0 <= i < Z.of_nat (length b) ->
  exists q, b !! Z.to_nat i = Some q /\ elemQ b i = Num q.
Proof.
  intros [H0 H1]. unfold elemQ. destruct (Z.ltb_spec i 0); [lia|].
  destruct (b !! Z.to_nat i) as [v|] eqn:E; [eauto|].
  apply lookup_ge_None in E. lia.
Qed.

Lemma med_sorted_spec (a : list Q) :
  a <> [] ->
       exists b : list Q,
         Permutation b a /\ StronglySorted Qle b
         /\ let k := (length a / 2)%nat in
            (Nat.odd (length a) = true ->
             exists q, b !! k = Some q /\ med a = Num q)
            /\ (Nat.odd (length a) = false ->
                exists q1 q2,
                  b !! (k - 1)%nat = Some q1 /\ b !! k = Some q2
                  /\ med a = Num ((1 # 2) * (q1 + q2))).
Proof.
  intros Hne. exists (sortQ a).
  split; [apply sortQ_perm|]. split; [apply sortQ_sorted|].
  assert (Hlen : length (sortQ a) = length a) by apply sortQ_length.
  assert (Hpos : (1 <= length a)%nat).
  { destruct a; [congruence|simpl; lia]. }
  unfold med. destruct a as [|x r] eqn:Ea; [congruence|]. rewrite <- Ea in *.
  cbv zeta. rewrite Hlen.
  set (n := length a) in *.
  assert (Hm : Z.shiftr (Z.of_nat n) 1 = Z.of_nat (n / 2)).
  { rewrite Z.shiftr_div_pow2 by lia. change (2 ^ 1) with 2.
    now rewrite Nat2Z.inj_div. }
  rewrite Hm.
  assert (Hmod : Z.of_nat n mod 2 = Z.of_nat (n mod 2)).
  { now rewrite Nat2Z.inj_mod. }
  pose proof (Nat.div_mod_eq n 2) as Hdm.
  pose proof (Nat.mod_upper_bound n 2 ltac:(lia)) as Hub.
  split.
  - intro Hodd. rewrite Nat.odd_spec in Hodd. 
    assert (n mod 2 = 1)%nat.
    { destruct Hodd as [j Hj]. rewrite Hj.
      replace (2 * j + 1)%nat with (1 + j * 2)%nat by lia.
      rewrite Nat.Div0.mod_add. reflexivity. }
    destruct (Z.eqb_spec (Z.of_nat n mod 2) 0) as [C|_]; [lia|]. cbn [negb].
    destruct (elemQ_lookup (sortQ a) (Z.of_nat (n / 2))) as (q & L & E).
    { rewrite Hlen. fold n. lia. }
    rewrite Nat2Z.id in L. eauto.
  - intro Hev.
    assert (n mod 2 = 0)%nat.
    { destruct (Nat.odd n) eqn:O; [discriminate|].
      rewrite <- Nat.negb_even in O. apply negb_false_iff in O.
      apply Nat.even_spec in O. destruct O as [j Hj]. rewrite Hj.
      rewrite Nat.mul_comm. apply Nat.Div0.mod_mul. }
    destruct (Z.eqb_spec (Z.of_nat n mod 2) 0) as [_|C]; [|lia]. cbn [negb].
    destruct (elemQ_lookup (sortQ a) (Z.of_nat (n / 2) - 1)) as (q1 & L1 & E1).
    { rewrite Hlen. fold n. lia. }
    destruct (elemQ_lookup (sortQ a) (Z.of_nat (n / 2))) as (q2 & L2 & E2).
    { rewrite Hlen. fold n. lia. }
    rewrite E1, E2. cbn [nadd nmul].
    replace (Z.to_nat (Z.of_nat (n / 2) - 1)) with (n / 2 - 1)%nat in L1 by lia.
    rewrite Nat2Z.id in L2. eauto.
Qed.

(** X1. [med] returns NaN on the empty array and otherwise reads the
    stably sorted copy of its argument: the middle element for an odd
    length, half the sum of the two middle elements for an even length. *)
Theorem med_reads_sorted_copy :
  med [] = NaN
  /\ forall a : list Q,
       a <> [] ->
       exists b : list Q,
         Permutation b a /\ StronglySorted Qle b
         /\ let k := (length a / 2)%nat in
            (Nat.odd (length a) = true ->
             exists q, b !! k = Some q /\ med a = Num q)
            /\ (Nat.odd (length a) = false ->
                exists q1 q2,
                  b !! (k - 1)%nat = Some q1 /\ b !! k = Some q2
                  /\ med a = Num ((1 # 2) * (q1 + q2))).
Proof.
  split; [reflexivity | exact med_sorted_spec].
Qed.

Lemma med_reads_sorted_copy_witness :
  exists b : list Q,
    Permutation b [3 # 4; 1 # 4; 1 # 2]
    /\ StronglySorted Qle b
    /\ exists q, b !! 1%nat = Some q /\ med [3 # 4; 1 # 4; 1 # 2] = Num q.
Proof.
  destruct med_reads_sorted_copy as [_ H].
  destruct (H [3 # 4; 1 # 4; 1 # 2] ltac:(discriminate)) as (b & P & S & Ho & _).
  exists b. split; [exact P|]. split; [exact S|]. apply Ho. reflexivity.
Defined.







Lemma sumCols_snoc (w : list Z) (k : nat) :
  forall c, sumCols w c (S k) = sumCols w c k + ta_get0 w (c + Z.of_nat k).
Proof.
  induction k as [|k IH]; intro c.
  - simpl. replace (c + Z.of_nat 0) with c by lia. lia.
  - change (sumCols w c (S (S k))) with (ta_get0 w c + sumCols w (c + 1) (S k)).
    rewrite IH. cbn [sumCols]. replace (c + 1 + Z.of_nat k) with (c + Z.of_nat (S k)) by lia.
    lia.
Qed.

Lemma scanCols_found (target : Q) (w : list Z) (k : nat) :
  forall c acc c',
    (inject_Z acc < target)%Q ->
    scanCols target w c acc k = Some c' ->
    exists j : nat,
      (j < k)%nat /\ c' = c + Z.of_nat j
      /\ (inject_Z (acc + sumCols w c j) < target)%Q
      /\ (target <= inject_Z (acc + sumCols w c (S j)))%Q.
Proof.
  induction k as [|k IH]; intros c acc c' Hacc H; simpl in H; [discriminate|].
  destruct (Qle_bool target (inject_Z (acc + ta_get0 w c))) eqn:E.
  - injection H as <-. exists 0%nat. apply Qle_bool_true in E.
    split; [lia|]. split; [lia|].
    cbn [sumCols]. rewrite !Z.add_0_r. split; assumption.
  - apply Qle_bool_false in E.
    destruct (IH _ _ _ E H) as (j & Hj & -> & A & B).
    exists (S j). split; [lia|]. split; [lia|].
    change (sumCols w c (S j)) with (ta_get0 w c + sumCols w (c + 1) j).
    change (sumCols w c (S (S j))) with (ta_get0 w c + sumCols w (c + 1) (S j)).
    rewrite !Z.add_assoc. split; assumption.
Qed.

Lemma scanCols_none (target : Q) (w : list Z) (k : nat) :
  forall c acc,
    scanCols target w c acc k = None ->
    (k = 0)%nat \/ (inject_Z (acc + sumCols w c k) < target)%Q.
Proof.
  induction k as [|k IH]; intros c acc H; [now left|]. right.
  simpl in H.
  destruct (Qle_bool target (inject_Z (acc + ta_get0 w c))) eqn:E; [discriminate|].
  apply Qle_bool_false in E.
  destruct (IH _ _ H) as [->|L].
  - simpl. now rewrite Z.add_0_r.
  - change (sumCols w c (S k)) with (ta_get0 w c + sumCols w (c + 1) k).
    now rewrite Z.add_assoc.
Qed.

Lemma chooseCol_inverts (weights : list Z) (target : Q) :
  (0 < target <= inject_Z (totalWeight weights))%Q ->
  let c := chooseCol target weights in
  0 <= c <= COLS - 1
  /\ (inject_Z (prefixWeight weights c) < target
      <= inject_Z (prefixWeight weights c + ta_get0 weights c))%Q
  /\ 0 < ta_get0 weights c.
Proof.
  intros [Hpos Htot] c. subst c. unfold chooseCol.
  destruct (scanCols target weights 0 0 (Z.to_nat COLS)) as [c|] eqn:E.
  - destruct (scanCols_found target weights _ 0 0 c Hpos E) as (j & Hj & -> & A & B).
    simpl. rewrite sumCols_snoc in B. rewrite !Z.add_0_l in *.
    unfold prefixWeight. rewrite Nat2Z.id.
    split; [unfold COLS in *; lia|]. split; [split; assumption|].
    assert (H : (inject_Z (sumCols weights 0 j)
                 < inject_Z (sumCols weights 0 j
                             + ta_get0 weights (Z.of_nat j)))%Q)
      by (eapply Qlt_le_trans; eassumption).
    rewrite <- Zlt_Qlt in H. lia.
  - exfalso. destruct (scanCols_none target weights _ 0 0 E) as [C|C];
      [unfold COLS in C; lia|].
    rewrite Z.add_0_l in C. fold (totalWeight weights) in C.
    apply (Qlt_irrefl target). eapply Qle_lt_trans; eassumption.
Qed.

(** X3. With positive total weight [sampleN] inverts the cumulative
    weights: a generator output [u] in (0, 1) selects the column [c] with
    [prefix(c) < u * total <= prefix(c) + weights[c]], so a column of
    weight zero is never drawn from a positive output; an output of
    exactly 0 selects column 0 whatever its weight. *)
Theorem sampleN_inverts_cumulative_weights :
  forall (weights : list Z),
    0 < totalWeight weights ->
    (forall u : Q,
        (0 < u < 1)%Q ->
        let c := pickCol weights (totalWeight weights) u in
        0 <= c <= COLS - 1
        /\ (inject_Z (prefixWeight weights c) < u * inject_Z (totalWeight weights)
            <= inject_Z (prefixWeight weights c + ta_get0 weights c))%Q
        /\ 0 < ta_get0 weights c)
    /\ (0 <= ta_get0 weights 0 -> pickCol weights (totalWeight weights) 0 = 0)
    /\ (forall (n : nat) (s : Engine),
          popCounts s = weights ->
          Forall (fun c => 0 <= c <= COLS - 1) (snd (fst (sampleN n s)))
          /\ snd (fst (sampleN n s))
             = map (pickCol weights (totalWeight weights)) (rngStream n (rng s))
          /\ Forall (fun u => (0 < u)%Q ->
                              0 < ta_get0 weights
                                    (pickCol weights (totalWeight weights) u))
                    (rngStream n (rng s))).
Proof.
  intros weights Htot.
  assert (Hq : (0 < inject_Z (totalWeight weights))%Q).
  { change 0%Q with (inject_Z 0). now rewrite <- Zlt_Qlt. }
  assert (Hne : (totalWeight weights =? 0) = false) by (apply Z.eqb_neq; lia).
  assert (Hpick : forall u : Q, (0 < u < 1)%Q ->
            let c := pickCol weights (totalWeight weights) u in
            0 <= c <= COLS - 1
            /\ (inject_Z (prefixWeight weights c) < u * inject_Z (totalWeight weights)
                <= inject_Z (prefixWeight weights c + ta_get0 weights c))%Q
            /\ 0 < ta_get0 weights c).
  { intros u [H0 H1]. unfold pickCol. rewrite Hne.
    apply chooseCol_inverts.
    revert Hq. generalize (inject_Z (totalWeight weights)). intros t Ht.
    split; [apply Qmult_lt_0_compat; assumption|].
    rewrite <- (Qmult_1_l t) at 2. apply Qmult_le_compat_r; lra. }
  split; [exact Hpick|].
  split.
  { intro H0. unfold pickCol. rewrite Hne. unfold chooseCol.
    change (Z.to_nat COLS) with 60%nat. cbn [scanCols].
    assert (E : Qle_bool (0 * inject_Z (totalWeight weights))
                         (inject_Z (0 + ta_get0 weights 0)) = true).
    { apply Qle_bool_true. rewrite Qmult_0_l. change 0%Q with (inject_Z 0).
      rewrite <- Zle_Qle. lia. }
    now rewrite E. }
  intros n s <-. rewrite sampleN_result. cbn [fst snd].
  split.
  { apply List.Forall_map. eapply List.Forall_impl; [|apply rngStream_range].
    intros u Hu. now apply pickCol_range. }
  split; [reflexivity|].
  eapply List.Forall_impl; [|apply rngStream_range].
  intros u [_ H1] H0. simpl. apply (Hpick u). split; assumption.
Qed.

Lemma sampleN_inverts_cumulative_weights_witness :
  0 < ta_get0 [0; 3; 0; 2] (pickCol [0; 3; 0; 2] (totalWeight [0; 3; 0; 2]) (1 # 2))
  /\ pickCol [0; 3; 0; 2] (totalWeight [0; 3; 0; 2]) 0 = 0.
Proof.
  destruct (sampleN_inverts_cumulative_weights [0; 3; 0; 2] eq_refl)
    as (Hp & H0 & _).
  split.
  - apply (Hp (1 # 2)). split; reflexivity.
  - apply H0. discriminate.
Defined.

Lemma fold_total_sumCols (w : list Z) (k : nat) :
  forall (a : nat) (t0 : Z),
    fold_left (fun t c => t + ta_get0 w c) (map Z.of_nat (seq a k)) t0
    = t0 + sumCols w (Z.of_nat a) k.
Proof.
  induction k as [|k IH]; intros a t0; cbn [seq map fold_left sumCols]; [lia|].
  rewrite IH. replace (Z.of_nat (S a)) with (Z.of_nat a + 1) by lia. lia.
Qed.

Lemma popStats_total (sqrt : Q -> Q) (s : Engine) :
  ps_total (popStats sqrt s) = totalWeight (popCounts s).
Proof.
  unfold popStats. cbn [ps_total]. unfold colRange.
  rewrite fold_total_sumCols. reflexivity.
Qed.

Lemma ta_get0_nonneg (w : list Z) (c : Z) :
  Forall (fun x => 0 <= x) w -> 0 <= ta_get0 w c.
Proof.
  intro H. unfold ta_get0, ta_get. destruct (c <? 0); [simpl; lia|].
  destruct (w !! Z.to_nat c) as [v|] eqn:E; simpl; [|lia].
  rewrite Forall_lookup in H. exact (H _ _ E).
Qed.

Lemma colRange_ok : Forall (fun c => 0 <= c <= COLS - 1) colRange.
Proof.
  unfold colRange. apply List.Forall_map. apply List.Forall_forall.
  intros i Hi. apply in_seq in Hi. unfold COLS in *. lia.
Qed.

Lemma weighted_sum_bounds (w : list Z) (cs : list Z) :
  Forall (fun x => 0 <= x) w ->
  Forall (fun c => 0 <= c <= COLS - 1) cs ->
  forall (m0 : Q) (t0 : Z),
    let m := fold_left (fun m c => (m + inject_Z (ta_get0 w c) * colValue c)%Q) cs m0 in
    let t := fold_left (fun t c => t + ta_get0 w c) cs t0 in
    (m0 <= m)%Q /\ (m - m0 <= inject_Z (t - t0))%Q /\ t0 <= t.
Proof.
  intros Hw Hcs. induction Hcs as [|c r Hc Hr IH]; intros m0 t0; cbn [fold_left].
  - cbv zeta. replace (t0 - t0) with 0 by lia. change (inject_Z 0) with 0%Q.
    repeat split; try lra; lia.
  - specialize (IH (m0 + inject_Z (ta_get0 w c) * colValue c)%Q (t0 + ta_get0 w c)).
    cbv zeta in *. destruct IH as (A & B & C).
    pose proof (ta_get0_nonneg w c Hw) as Hn.
    pose proof (colValue_range c Hc) as [X0 X1].
    set (m := fold_left
                (fun m c => (m + inject_Z (ta_get0 w c) * colValue c)%Q) r _) in *.
    set (t := fold_left (fun t c => t + ta_get0 w c) r _) in *.
    assert (Wq : (0 <= inject_Z (ta_get0 w c))%Q).
    { change 0%Q with (inject_Z 0). now rewrite <- Zle_Qle. }
    assert (P0 : (0 <= inject_Z (ta_get0 w c) * colValue c)%Q).
    { apply Qmult_le_0_compat; lra. }
    assert (P1 : (inject_Z (ta_get0 w c) * colValue c <= inject_Z (ta_get0 w c))%Q).
    { rewrite <- (Qmult_1_r (inject_Z (ta_get0 w c))) at 2.
      apply Qmult_le_compat_nonneg; split; lra. }
    replace (t - t0) with ((t - (t0 + ta_get0 w c)) + ta_get0 w c) by lia.
    rewrite inject_Z_plus.
    revert A B P0 P1 Wq. generalize (inject_Z (t - (t0 + ta_get0 w c))).
    generalize (inject_Z (ta_get0 w c) * colValue c)%Q.
    generalize (inject_Z (ta_get0 w c)). intros a b d A B P0 P1 Wq.
    split; [lra|]. split; [lra|lia].
Qed.

Lemma greater_bounds (w : list Z) (p : Z -> bool) (cs : list Z) :
  Forall (fun x => 0 <= x) w ->
  forall (g0 t0 : Z),
    let g := fold_left (fun g c => if p c then g + ta_get0 w c else g) cs g0 in
    let t := fold_left (fun t c => t + ta_get0 w c) cs t0 in
    g0 <= g /\ g - g0 <= t - t0.
Proof.
  intros Hw. induction cs as [|c r IH]; intros g0 t0; cbn [fold_left].
  - cbv zeta. lia.
  - pose proof (ta_get0_nonneg w c Hw) as Hn.
    destruct (p c).
    + specialize (IH (g0 + ta_get0 w c) (t0 + ta_get0 w c)). cbv zeta in *. lia.
    + specialize (IH g0 (t0 + ta_get0 w c)). cbv zeta in *. lia.
Qed.

Lemma median_scan_value (w : list Z) (half : Q) (cs : list Z) :
  forall (st : Z * option Q),
    let step (st : Z * option Q) (c : Z) : Z * option Q :=
      match st with
      | (acc, Some m) => (acc, Some m)
      | (acc, None) =>
          let acc' := acc + ta_get0 w c in
          if Qle_bool half (inject_Z acc') then (acc', Some (colValue c))
          else (acc', None)
      end in
    forall m, snd (fold_left step cs st) = Some m ->
              snd st = Some m \/ exists c, In c cs /\ m = colValue c.
Proof.
  induction cs as [|c r IH]; intros st step m H; cbn [fold_left] in H.
  - now left.
  - destruct (IH _ m H) as [L|(c' & I & E)].
    + destruct st as [acc [m'|]]; cbn in L.
      * now left.
      * right. exists c. split; [now left|].
        destruct (Qle_bool half (inject_Z (acc + ta_get0 w c))); cbn in L;
          congruence.
    + right. exists c'. split; [now right|exact E].
Qed.

(** X4. The population summary.  Its total is the total weight
    [sampleN] computes.  For an empty population it is the fixed summary
    (mean 0.5, SD 0, median 0.5, proportion 0).  The median is strictly
    between 0 and 1 in every case, and for non-negative weights with a
    positive total the mean and the proportion above the threshold lie in
    [0, 1]. *)
Theorem popStats_summary :
  forall (sqrt : Q -> Q) (s : Engine),
    let ps := popStats sqrt s in
    ps_total ps = totalWeight (popCounts s)
    /\ (totalWeight (popCounts s) = 0 ->
        ps = mkPopStats (1 # 2) (Num 0) (1 # 2) 0 0)
    /\ (0 < ps_med ps < 1)%Q
    /\ (Forall (fun x => 0 <= x) (popCounts s) ->
        0 < totalWeight (popCounts s) ->
        (0 <= ps_mu ps <= 1)%Q /\ (0 <= ps_pthr ps <= 1)%Q).
Proof.
  intros sqrt s ps.
  assert (Ht : ps_total ps = totalWeight (popCounts s)) by apply popStats_total.
  split; [exact Ht|].
  assert (Hfold : fold_left (fun t c => t + ta_get0 (popCounts s) c) colRange 0
                  = totalWeight (popCounts s)).
  { unfold colRange. now rewrite fold_total_sumCols. }
  split.
  { intro H0. subst ps. unfold popStats. rewrite Hfold, H0. reflexivity. }
  split.
  { subst ps. unfold popStats. cbn [ps_med]. rewrite Hfold.
    destruct (totalWeight (popCounts s) =? 0); [split; reflexivity|].
    match goal with |- context [fold_left ?f colRange (0, None)] =>
      destruct (snd (fold_left f colRange (0, None))) as [m|] eqn:E end;
      [|split; reflexivity].
    destruct (median_scan_value _ _ _ _ _ E) as [C|(c & I & ->)];
      [discriminate|].
    cbn [default]. simpl. apply colValue_range.
    pose proof colRange_ok as R. rewrite List.Forall_forall in R. now apply R. }
  intros Hw Hpos. subst ps. unfold popStats. cbn [ps_mu ps_pthr].
  rewrite Hfold.
  destruct (Z.eqb_spec (totalWeight (popCounts s)) 0) as [C|_]; [lia|].
  assert (Hq : (0 < inject_Z (totalWeight (popCounts s)))%Q).
  { change 0%Q with (inject_Z 0). now rewrite <- Zlt_Qlt. }
  split.
  - destruct (weighted_sum_bounds (popCounts s) colRange Hw colRange_ok 0 0)
      as (A & B & _).
    cbv zeta in A, B. rewrite Hfold in B. rewrite Z.sub_0_r in B.
    split.
    + apply Qle_shift_div_l; [exact Hq|]. lra.
    + apply Qle_shift_div_r; [exact Hq|]. lra.
  - destruct (greater_bounds (popCounts s)
                (fun c => Qltb (threshold s) (colValue c)) colRange Hw 0 0)
      as (A & B).
    cbv zeta in A, B. rewrite Hfold in B.
    split.
    + apply Qle_shift_div_l; [exact Hq|]. rewrite Qmult_0_l.
      change 0%Q with (inject_Z 0). rewrite <- Zle_Qle. exact A.
    + apply Qle_shift_div_r; [exact Hq|]. rewrite Qmult_1_l.
      rewrite <- Zle_Qle. lia.
Qed.

Lemma popStats_summary_witness :
  popStats sqrtQ (newEngine true) = mkPopStats (1 # 2) (Num 0) (1 # 2) 0 0
  /\ (0 <= ps_mu (popStats sqrtQ flatEngine) <= 1)%Q.
Proof.
  split.
  - apply (proj1 (proj2 (popStats_summary sqrtQ (newEngine true)))). reflexivity.
  - apply (proj2 (proj2 (proj2 (popStats_summary sqrtQ flatEngine)))).
    + repeat constructor; discriminate.
    + reflexivity.
Defined.

Lemma populationCol_valid (s : Engine) (x : Q) :
  (0 < BOX s)%Q ->
  populationCol s x
  = Num (inject_Z (clampZ (Qfloor ((x - gridX0 s) / BOX s)) 0 (COLS - 1))).
Proof.
  intro HB. unfold populationCol. cbn [ndiv].
  assert (E : Qeq_bool (BOX s) 0 = false).
  { destruct (Qeq_bool (BOX s) 0) eqn:E; [|reflexivity].
    apply Qeq_bool_eq in E. lra. }
  rewrite E. cbn [Math_floor]. rewrite clamp_finite.
  change (inject_Z (COLS - 1)) with 59%Q. now rewrite clampQ_inject.
Qed.

Lemma paint_cell (pop : list Z) (c v : Z) (delta : Z) :
  0 <= c -> pop !! Z.to_nat c = Some v ->
  ta_setN toUint16 pop (Num (inject_Z c))
          (clampZ (ta_getN0 pop (Num (inject_Z c)) + delta) 0 10000)
  = <[Z.to_nat c := clampZ (v + delta) 0 10000]> pop.
Proof.
  intros Hc L. unfold ta_setN, ta_getN0, ta_getN. rewrite intOf_inject.
  unfold ta_set, ta_get. destruct (Z.ltb_spec c 0); [lia|]. rewrite L. simpl.
  f_equal. unfold toUint16. apply Z.mod_small. unfold clampZ. lia.
Qed.

(** X5. A click on the population tier (pointer not below it, positive
    column width) changes exactly one cell of [popCounts]: the column
    under the pointer, clamped to [0, COLS-1], goes from [v] to
    [min(v + 1, 10000)] ([max(v - 1, 0)] for the erasing click, after
    the same clamp to [0, 10000]); both histograms and all particles are
    untouched.  Below the tier either click returns the engine as it is.
    An adding click followed by an erasing click at the same point
    restores the population when the cell was in [0, 9999]. *)
Theorem population_clicks_paint_one_cell :
  forall (sqrt : Q -> Q) (x y : Q) (s : Engine),
    (Qltb (marginY s + H_TOP s) y = true ->
     clickPopulation sqrt x y s = s /\ altClickPopulation sqrt x y s = s)
    /\ (Qltb (marginY s + H_TOP s) y = false ->
        (0 < BOX s)%Q ->
        length (popCounts s) = Z.to_nat COLS ->
        let c := clampZ (Qfloor ((x - gridX0 s) / BOX s)) 0 (COLS - 1) in
        exists v : Z,
          popCounts s !! Z.to_nat c = Some v
          /\ popCounts (clickPopulation sqrt x y s)
             = <[Z.to_nat c := clampZ (v + 1) 0 10000]> (popCounts s)
          /\ popCounts (altClickPopulation sqrt x y s)
             = <[Z.to_nat c := clampZ (v - 1) 0 10000]> (popCounts s)
          /\ (midCounts (clickPopulation sqrt x y s),
              botCounts (clickPopulation sqrt x y s),
              sampleParticles (clickPopulation sqrt x y s),
              statParticles (clickPopulation sqrt x y s),
              midCounts (altClickPopulation sqrt x y s),
              botCounts (altClickPopulation sqrt x y s),
              sampleParticles (altClickPopulation sqrt x y s),
              statParticles (altClickPopulation sqrt x y s))
             = (midCounts s, botCounts s, sampleParticles s, statParticles s,
                midCounts s, botCounts s, sampleParticles s, statParticles s)
          /\ (0 <= v < 10000 ->
              popCounts (altClickPopulation sqrt x y (clickPopulation sqrt x y s))
              = popCounts s)).
Proof.
  intros sqrt x y s. split.
  { intro H. unfold clickPopulation, altClickPopulation. now rewrite H. }
  intros Hy HB Hlen c.
  assert (Hc : 0 <= c <= COLS - 1) by (subst c; unfold clampZ, COLS; lia).
  destruct (popCounts s !! Z.to_nat c) as [v|] eqn:L.
  2:{ apply lookup_ge_None in L. unfold COLS in *. lia. }
  exists v. split; [reflexivity|].
  assert (Hclick : popCounts (clickPopulation sqrt x y s)
                   = <[Z.to_nat c := clampZ (v + 1) 0 10000]> (popCounts s)).
  { unfold clickPopulation. rewrite Hy. cbn [popCounts set_needsRedraw updateLines
      set_lines set_popCounts]. rewrite populationCol_valid by exact HB.
    fold c. apply paint_cell; [lia|exact L]. }
  split; [exact Hclick|].
  split.
  { unfold altClickPopulation. rewrite Hy. cbn [popCounts set_needsRedraw updateLines
      set_lines set_popCounts]. rewrite populationCol_valid by exact HB.
    fold c. replace (ta_getN0 (popCounts s) (Num (inject_Z c)) - 1)
      with (ta_getN0 (popCounts s) (Num (inject_Z c)) + -1) by lia.
    rewrite (paint_cell _ c v (-1)); [|lia|exact L]. reflexivity. }
  split.
  { unfold clickPopulation, altClickPopulation. rewrite Hy. reflexivity. }
  intro Hv.
  set (s1 := clickPopulation sqrt x y s).
  assert (G : (marginY s1, H_TOP s1, gridX0 s1, BOX s1)
              = (marginY s, H_TOP s, gridX0 s, BOX s)).
  { subst s1. unfold clickPopulation. rewrite Hy. reflexivity. }
  injection G as G1 G2 G3 G4.
  unfold altClickPopulation. rewrite G1, G2, Hy.
  cbn [popCounts set_needsRedraw updateLines set_lines set_popCounts].
  rewrite populationCol_valid by (rewrite G4; exact HB).
  rewrite G3, G4. fold c.
  fold s1 in Hclick. rewrite Hclick.
  replace (ta_getN0 (<[Z.to_nat c:=clampZ (v + 1) 0 10000]> (popCounts s))
                    (Num (inject_Z c)) - 1)
    with (ta_getN0 (<[Z.to_nat c:=clampZ (v + 1) 0 10000]> (popCounts s))
                   (Num (inject_Z c)) + -1) by lia.
  rewrite (paint_cell _ c (clampZ (v + 1) 0 10000) (-1)); [|lia|].
  2:{ apply list_lookup_insert_eq. now apply lookup_lt_Some in L. }
  rewrite list_insert_insert_eq.
  replace (clampZ (clampZ (v + 1) 0 10000 + -1) 0 10000) with v
    by (unfold clampZ; lia).
  now apply list_insert_id.
Qed.

Lemma population_clicks_paint_one_cell_witness :
  clickPopulation sqrtQ 100 5000 flatEngine = flatEngine
  /\ popCounts (altClickPopulation sqrtQ 100 50
                  (clickPopulation sqrtQ 100 50 flatEngine))
     = popCounts flatEngine.
Proof.
  destruct (population_clicks_paint_one_cell sqrtQ 100 5000 flatEngine)
    as (Hb & _).
  destruct (population_clicks_paint_one_cell sqrtQ 100 50 flatEngine)
    as (_ & Hi).
  split; [exact (proj1 (Hb eq_refl))|].
  destruct (Hi eq_refl eq_refl eq_refl) as (v & L & _ & _ & _ & R).
  apply R.
  assert (E : v = 20) by (lazy in L; congruence).
  lia.
Defined.

Lemma Qfloor_ge (z : Z) (q : Q) : (inject_Z z <= q)%Q -> z <= Qfloor q.
Proof.
  intro H. rewrite <- (Qfloor_Z z). now apply Qfloor_resp_le.
Qed.

(** X6. [resetGeometry] always leaves a column width of at least 6 and
    a grid of [COLS] columns of that width.  For a plot at least 392
    wide the grid keeps a margin of at least 16 on both sides; for a plot
    narrower than 360 the grid starts left of the plot.  It sets the
    dirty flag and touches no histogram. *)
Theorem resetGeometry_places_grid :
  forall (w t m b : Q) (s : Engine),
    let s' := resetGeometry w t m b s in
    (6 <= BOX s')%Q
    /\ gridW s' = (BOX s' * inject_Z COLS)%Q
    /\ (360 <= gridW s')%Q
    /\ ((392 <= w)%Q ->
        (16 <= gridX0 s')%Q /\ (gridX0 s' + gridW s' <= w - 16)%Q)
    /\ ((w < 360)%Q -> (gridX0 s' < 0)%Q)
    /\ needsRedraw s' = true
    /\ (popCounts s', midCounts s', botCounts s')
       = (popCounts s, midCounts s, botCounts s).
Proof.
  intros w t m b s s'. subst s'. unfold resetGeometry.
  cbn [BOX gridW gridX0 needsRedraw popCounts midCounts botCounts].
  set (colW' := inject_Z (Qfloor ((w - 2 * PAD) / inject_Z COLS))).
  set (box := Qmax 6 colW').
  assert (Hbox : (6 <= box)%Q).
  { subst box. apply (Qmax_spec 6 colW'). }
  change (inject_Z COLS) with 60%Q in *. unfold PAD in *.
  split; [exact Hbox|]. split; [reflexivity|].
  split; [lra|].
  split.
  { intro Hw.
    assert (Hc : (6 <= colW')%Q).
    { subst colW'. change 6%Q with (inject_Z 6). rewrite <- Zle_Qle.
      apply Qfloor_ge. change (inject_Z 6) with 6%Q.
      apply Qle_shift_div_l; [reflexivity|]. lra. }
    assert (Hb : (box * 60 <= w - 32)%Q).
    { assert (E : box = colW').
      { subst box. unfold Qmax.
        destruct (Qle_bool 6 colW') eqn:E; [reflexivity|].
        apply Qle_bool_false in E. lra. }
      rewrite E. subst colW'.
      pose proof (Qfloor_le ((w - 2 * 16) / 60)) as F.
      assert (G : ((w - 2 * 16) / 60 * 60 == w - 32)%Q) by field.
      lra. }
    split.
    - change 16%Q with (inject_Z 16). rewrite <- Zle_Qle. apply Qfloor_ge.
      change (inject_Z 16) with 16%Q.
      apply Qle_shift_div_l; [reflexivity|]. lra.
    - pose proof (Qfloor_le ((w - box * 60) / 2)) as F.
      assert (G : ((w - box * 60) / 2 * 2 == w - box * 60)%Q) by field.
      lra. }
  split.
  { intro Hw. pose proof (Qfloor_le ((w - box * 60) / 2)) as F.
    assert (G : ((w - box * 60) / 2 * 2 == w - box * 60)%Q) by field.
    lra. }
  split; reflexivity.
Qed.

Lemma resetGeometry_places_grid_witness :
  (16 <= gridX0 (resetGeometry 960 300 240 360 (newEngine true)))%Q
  /\ (gridX0 (resetGeometry 320 300 240 360 (newEngine true)) < 0)%Q.
Proof.
  split.
  - apply (resetGeometry_places_grid 960 300 240 360 (newEngine true)).
    discriminate.
  - apply (resetGeometry_places_grid 320 300 240 360 (newEngine true)).
    reflexivity.
Defined.

(** X7. [layoutFromViewport] gives the three tiers the heights 30, 24
    and 36 times one box size, a whole number of at least 6 that is at
    most the column width it leaves; for a canvas at least 572 high the
    tiers and the two 16-pixel margins fit in the canvas height, and a
    shorter canvas is overflowed.  Laying out twice for the same viewport
    changes nothing more. *)
Theorem layoutFromViewport_tiers :
  forall (w h : Q) (s : Engine),
    let s' := layoutFromViewport w h s in
    (exists box : Z,
        6 <= box
        /\ (inject_Z box <= BOX s')%Q
        /\ H_TOP s' = (TOP_UNITS * inject_Z box)%Q
        /\ H_MID s' = (MID_UNITS * inject_Z box)%Q
        /\ H_BOT s' = (BOT_UNITS * inject_Z box)%Q)
    /\ ((572 <= h)%Q -> (H_TOP s' + H_MID s' + H_BOT s' + 2 * 16 <= h)%Q)
    /\ ((h < 572)%Q -> (h < H_TOP s' + H_MID s' + H_BOT s' + 2 * 16)%Q)
    /\ layoutFromViewport w h s' = s'.
Proof.
  intros w h s s'. subst s'. unfold layoutFromViewport, resetGeometry.
  cbn [BOX H_TOP H_MID H_BOT].
  set (fw := Qfloor (Qmax 200 (w - 2 * PAD) / inject_Z COLS)).
  set (fh := Qfloor ((h - 2 * 16) / TOTAL_UNITS)).
  set (cw := Qfloor ((w - 2 * PAD) / inject_Z COLS)).
  assert (Hcw : cw <= fw).
  { subst cw fw. apply Qfloor_resp_le. apply Qdiv_le_mono; [reflexivity|].
    apply (Qmax_spec 200 (w - 2 * PAD)). }
  assert (M : forall a b : Z, Qmax (inject_Z a) (inject_Z b) = inject_Z (Z.max a b)).
  { intros a b. unfold Qmax. destruct (Qle_bool (inject_Z a) (inject_Z b)) eqn:E.
    - apply Qle_bool_true in E. rewrite <- Zle_Qle in E. now rewrite Z.max_r.
    - apply Qle_bool_false in E. rewrite <- Zlt_Qlt in E. rewrite Z.max_l by lia.
      reflexivity. }
  assert (N : forall a b : Z, Qmin (inject_Z a) (inject_Z b) = inject_Z (Z.min a b)).
  { intros a b. unfold Qmin. destruct (Qle_bool (inject_Z a) (inject_Z b)) eqn:E.
    - apply Qle_bool_true in E. rewrite <- Zle_Qle in E. now rewrite Z.min_l.
    - apply Qle_bool_false in E. rewrite <- Zlt_Qlt in E. rewrite Z.min_r by lia.
      reflexivity. }
  change 6%Q with (inject_Z 6). rewrite !M, N.
  set (box := Z.min (Z.max 6 fw) (Z.max 6 fh)).
  split.
  { exists box. split; [subst box; lia|].
    split; [rewrite <- Zle_Qle; subst box|repeat split].
    assert (F : fw <= Z.max 6 cw).
    { subst fw cw. unfold Qmax.
      destruct (Qle_bool 200 (w - 2 * PAD)) eqn:E; [lia|].
      assert (Qfloor (200 / inject_Z COLS) = 3) by reflexivity. lia. }
    lia. }
  assert (A : forall q : Q, (572 <= q)%Q -> 6 <= Qfloor ((q - 2 * 16) / TOTAL_UNITS)).
  { intros q Hq. apply Qfloor_ge. apply Qle_shift_div_l; [reflexivity|].
    change (inject_Z 6) with 6%Q. unfold TOTAL_UNITS, TOP_UNITS, MID_UNITS, BOT_UNITS. lra. }
  assert (B : forall q : Q, (q < 572)%Q -> Qfloor ((q - 2 * 16) / TOTAL_UNITS) < 6).
  { intros q Hq. apply Z.lt_nge. intro C.
    pose proof (Qfloor_le ((q - 2 * 16) / TOTAL_UNITS)) as F.
    assert (G : (6 <= (q - 2 * 16) / TOTAL_UNITS)%Q).
    { eapply Qle_trans; [|exact F]. change 6%Q with (inject_Z 6).
      now rewrite <- Zle_Qle. }
    assert (E : ((q - 2 * 16) / TOTAL_UNITS * 90 == q - 32)%Q)
      by (unfold TOTAL_UNITS, TOP_UNITS, MID_UNITS, BOT_UNITS; field).
    lra. }
  unfold TOP_UNITS, MID_UNITS, BOT_UNITS.
  split.
  { intro Hh. specialize (A h Hh). fold fh in A.
    assert (Hb : (inject_Z box <= inject_Z fh)%Q).
    { rewrite <- Zle_Qle. subst box. lia. }
    pose proof (Qfloor_le ((h - 2 * 16) / TOTAL_UNITS)) as F. fold fh in F.
    assert (E : ((h - 2 * 16) / TOTAL_UNITS * 90 == h - 32)%Q)
      by (unfold TOTAL_UNITS, TOP_UNITS, MID_UNITS, BOT_UNITS; field).
    revert Hb F E. generalize (inject_Z box), (inject_Z fh),
      ((h - 2 * 16) / TOTAL_UNITS)%Q. intros; lra. }
  split.
  { intro Hh. specialize (B h Hh). fold fh in B.
    assert (Hb : (6 <= inject_Z box)%Q).
    { change 6%Q with (inject_Z 6). rewrite <- Zle_Qle. subst box. lia. }
    revert Hb. generalize (inject_Z box). intros; lra. }
  reflexivity.
Qed.

Lemma layoutFromViewport_tiers_witness :
  (H_TOP (layoutFromViewport 960 900 (newEngine true))
   + H_MID (layoutFromViewport 960 900 (newEngine true))
   + H_BOT (layoutFromViewport 960 900 (newEngine true)) + 2 * 16 <= 900)%Q
  /\ (400 < H_TOP (layoutFromViewport 960 400 (newEngine true))
            + H_MID (layoutFromViewport 960 400 (newEngine true))
            + H_BOT (layoutFromViewport 960 400 (newEngine true)) + 2 * 16)%Q.
Proof.
  split.
  - apply (layoutFromViewport_tiers 960 900 (newEngine true)). discriminate.
  - apply (layoutFromViewport_tiers 960 400 (newEngine true)). reflexivity.
Defined.

Lemma maxOf_fold_ge (arr : list Z) :
  forall m : Z,
    m <= fold_left (fun m v => if m <? v then v else m) arr m
    /\ Forall (fun v => v <= fold_left (fun m v => if m <? v then v else m) arr m) arr.
Proof.
  induction arr as [|v r IH]; intro m; cbn [fold_left].
  - split; [lia | constructor].
  - destruct (IH (if m <? v then v else m)) as [A B].
    destruct (Z.ltb_spec m v); (split; [lia|]); constructor; try lia; exact B.
Qed.

Lemma maxOf_upper (arr : list Z) (c : Z) : 0 <= maxOf arr /\ ta_get0 arr c <= maxOf arr.
Proof.
  unfold maxOf. destruct (maxOf_fold_ge arr 0) as [A B]. split; [exact A|].
  unfold ta_get0, ta_get. destruct (c <? 0); [exact A|].
  destruct (arr !! Z.to_nat c) as [v|] eqn:E; [|exact A]. simpl.
  exact (Forall_lookup_1 _ _ _ _ B E).
Qed.

Lemma scaleOf_fits (counts : list Z) (box h : Q) (c : Z) :
  (0 < box)%Q -> (28 <= h)%Q ->
  (0 <= scaleOf counts box h <= 1)%Q
  /\ (inject_Z (ta_get0 counts c) * (box * scaleOf counts box h) <= h - 28)%Q.
Proof.
  intros Hb Hh. unfold scaleOf. cbv zeta.
  destruct (maxOf_upper counts c) as [M0 Mc].
  set (m := maxOf counts) in *.
  assert (Q0 : (0 <= inject_Z m)%Q) by (change 0%Q with (inject_Z 0); now rewrite <- Zle_Qle).
  assert (Qc : (inject_Z (ta_get0 counts c) <= inject_Z m)%Q) by now rewrite <- Zle_Qle.
  destruct (Qltb 0 (inject_Z m * box)) eqn:E.
  - apply Qltb_true in E.
    set (need := (inject_Z m * box)%Q) in *.
    assert (D : (0 <= (h - 28) / need)%Q).
    { apply Qle_shift_div_l; [exact E|]. lra. }
    destruct (Qmin_spec 1 ((h - 28) / need)) as (A & B & C).
    set (sc := Qmin 1 ((h - 28) / need)) in *.
    assert (S0 : (0 <= sc)%Q) by (destruct C as [C|C]; rewrite C; [lra | exact D]).
    split; [split; [exact S0 | exact A]|].
    assert (N : (need * sc <= h - 28)%Q).
    { assert (G : ((h - 28) / need * need == h - 28)%Q) by (field; lra).
      rewrite <- G. rewrite (Qmult_comm need sc).
      apply Qmult_le_compat_r; [exact B | lra]. }
    eapply Qle_trans; [|exact N]. subst need.
    assert (P : (0 <= box * sc)%Q) by (apply Qmult_le_0_compat; lra).
    assert (R : (inject_Z (ta_get0 counts c) * (box * sc) <= inject_Z m * (box * sc))%Q)
      by (apply Qmult_le_compat_r; assumption).
    eapply Qle_trans; [exact R|]. rewrite Qmult_assoc. apply Qle_refl.
  - apply Qltb_false in E. split; [lra|].
    assert (Z0 : (inject_Z m * box <= 0)%Q) by exact E.
    assert (P : (inject_Z (ta_get0 counts c) * box <= inject_Z m * box)%Q)
      by (apply Qmult_le_compat_r; [exact Qc | lra]).
    rewrite Qmult_1_r. lra.
Qed.

Lemma scaleOf_one (counts : list Z) (box h : Q) :
  (inject_Z (maxOf counts) * box <= h - 28)%Q -> scaleOf counts box h = 1%Q.
Proof.
  intro H. unfold scaleOf. cbv zeta.
  destruct (Qltb 0 (inject_Z (maxOf counts) * box)) eqn:E; [|reflexivity].
  apply Qltb_true in E. unfold Qmin.
  set (need := (inject_Z (maxOf counts) * box)%Q) in *.
  assert (D : (1 <= (h - 28) / need)%Q).
  { apply Qle_shift_div_l; [exact E|]. lra. }
  apply Qle_bool_true in D. now rewrite D.
Qed.

Lemma slack_bound (x y : Q) : (0 <= y)%Q -> (x <= y)%Q -> (x <= y * ROUNDING_SLACK)%Q.
Proof.
  intros Hy H. unfold ROUNDING_SLACK.
  assert (P : (0 <= y * (1 # 1099511627776))%Q)
    by (apply Qmult_le_0_compat; [exact Hy | discriminate]).
  assert (E : (y * (1 + (1 # 1099511627776)) == y + y * (1 # 1099511627776))%Q)
    by ring.
  rewrite E. lra.
Qed.

(** X8. A frame drawn by [draw] fits every stack in its tier.  With a
    positive box size and tiers at least 28 high, the three vertical
    step sizes it stores are between 0 and the box size; a tier whose
    tallest column fits at full box size keeps the box size as its step;
    and in each histogram every column's count times the tier's step is
    at most the tier height less 28, up to the rounding of the scale
    (a factor [1 + 2^-40]).  The histograms, the particles and the
    geometry are not written. *)
Theorem draw_fits_stacks :
  forall (s : Engine) (c : Z),
    ctx s = true -> needsRedraw s = true ->
    (0 < BOX s)%Q -> (28 <= H_TOP s)%Q -> (28 <= H_MID s)%Q -> (28 <= H_BOT s)%Q ->
    let s' := fst (draw s) in
    (0 <= BOX_TOP_Y s' <= BOX s)%Q
    /\ (0 <= BOX_MID_Y s' <= BOX s)%Q
    /\ (0 <= BOX_BOT_Y s' <= BOX s)%Q
    /\ ((inject_Z (maxOf (popCounts s)) * BOX s <= H_TOP s - 28)%Q ->
        (BOX_TOP_Y s' == BOX s)%Q)
    /\ ((inject_Z (maxOf (midCounts s)) * BOX s <= H_MID s - 28)%Q ->
        (BOX_MID_Y s' == BOX s)%Q)
    /\ ((inject_Z (maxOf (botCounts s)) * BOX s <= H_BOT s - 28)%Q ->
        (BOX_BOT_Y s' == BOX s)%Q)
    /\ (inject_Z (ta_get0 (popCounts s) c) * BOX_TOP_Y s'
        <= (H_TOP s - 28) * ROUNDING_SLACK)%Q
    /\ (inject_Z (ta_get0 (midCounts s) c) * BOX_MID_Y s'
        <= (H_MID s - 28) * ROUNDING_SLACK)%Q
    /\ (inject_Z (ta_get0 (botCounts s) c) * BOX_BOT_Y s'
        <= (H_BOT s - 28) * ROUNDING_SLACK)%Q
    /\ (popCounts s', midCounts s', botCounts s', sampleParticles s',
        statParticles s', BOX s', H_TOP s', H_MID s', H_BOT s')
       = (popCounts s, midCounts s, botCounts s, sampleParticles s,
          statParticles s, BOX s, H_TOP s, H_MID s, H_BOT s).
Proof.
  intros s c Hc Hn Hb Ht Hm Ho s'. subst s'. unfold draw. rewrite Hc, Hn.
  cbn [negb orb fst].
  cbn [BOX_TOP_Y BOX_MID_Y BOX_BOT_Y popCounts midCounts botCounts
       sampleParticles statParticles BOX H_TOP H_MID H_BOT
       set_needsRedraw set_BOX_BOT_Y set_BOX_MID_Y set_BOX_TOP_Y].
  destruct (scaleOf_fits (popCounts s) (BOX s) (H_TOP s) c Hb Ht) as [[A1 A2] A3].
  destruct (scaleOf_fits (midCounts s) (BOX s) (H_MID s) c Hb Hm) as [[B1 B2] B3].
  destruct (scaleOf_fits (botCounts s) (BOX s) (H_BOT s) c Hb Ho) as [[C1 C2] C3].
  assert (S : forall sc : Q, (0 <= sc <= 1)%Q -> (0 <= BOX s * sc <= BOX s)%Q).
  { intros sc [L U]. split; [apply Qmult_le_0_compat; lra|].
    assert (BOX s * sc <= BOX s * 1)%Q by (apply Qmult_le_l; lra).
    revert H Hb. generalize (BOX s * sc)%Q, (BOX s). intros a b H Hb.
    clear - H Hb. lra. }
  split; [apply S; split; assumption|].
  split; [apply S; split; assumption|].
  split; [apply S; split; assumption|].
  split; [intro F; rewrite (scaleOf_one _ _ _ F); apply Qmult_1_r|].
  split; [intro F; rewrite (scaleOf_one _ _ _ F); apply Qmult_1_r|].
  split; [intro F; rewrite (scaleOf_one _ _ _ F); apply Qmult_1_r|].
  split; [apply slack_bound; [lra | exact A3]|].
  split; [apply slack_bound; [lra | exact B3]|].
  split; [apply slack_bound; [lra | exact C3]|].
  reflexivity.
Qed.

Lemma draw_fits_stacks_witness :
  (inject_Z (ta_get0 (popCounts flatEngine) 7) * BOX_TOP_Y (fst (draw flatEngine))
   <= (H_TOP flatEngine - 28) * ROUNDING_SLACK)%Q.
Proof.
  refine (proj1 (proj2 (proj2 (proj2 (proj2 (proj2 (proj2
            (draw_fits_stacks flatEngine 7 _ _ _ _ _ _))))))));
    reflexivity || discriminate.
Defined.

Lemma valueToX_finite (s : Engine) (q : Q) :
  valueToX s (Num q)
  = Num (gridX0 s
         + Qmax 0 (Qmin 1 ((q + - dmin (statDomain s))
                           / (dmax (statDomain s) - dmin (statDomain s))))
           * gridW s).
Proof.
  unfold valueToX. cbv zeta. unfold nsub, nneg, nadd at 2, ndiv.
  assert (E : Qeq_bool (dmax (statDomain s) - dmin (statDomain s)) 0 = false)
    by (unfold statDomain; destruct (statistic s); reflexivity).
  rewrite E, clamp_finite. reflexivity.
Qed.

Lemma statDomain_width (s : Engine) :
  (dmin (statDomain s) == 0)%Q
  /\ (0 < dmax (statDomain s) - dmin (statDomain s))%Q.
Proof. unfold statDomain. destruct (statistic s); split; reflexivity. Qed.

(** X9. [valueToX] maps every value that is a number into the grid: the
    result lies between [gridX0] and [gridX0 + gridW] (for a grid of
    non-negative width), is the left edge for values at or below the
    domain minimum, the right edge at or above the domain maximum, and
    does not decrease when the value grows.  NaN is mapped to NaN. *)
Theorem valueToX_within_grid :
  forall (s : Engine),
    (0 <= gridW s)%Q ->
    valueToX s NaN = NaN
    /\ (forall q : Q,
          exists x : Q,
            valueToX s (Num q) = Num x
            /\ (gridX0 s <= x <= gridX0 s + gridW s)%Q
            /\ ((q <= dmin (statDomain s))%Q -> (x == gridX0 s)%Q)
            /\ ((dmax (statDomain s) <= q)%Q -> (x == gridX0 s + gridW s)%Q))
    /\ (forall q q' : Q,
          (q <= q')%Q ->
          exists x x' : Q,
            valueToX s (Num q) = Num x /\ valueToX s (Num q') = Num x'
            /\ (x <= x')%Q).
Proof.
  intros s Hw. destruct (statDomain_width s) as [D0 DW].
  split; [reflexivity|]. split.
  - intro q. eexists. split; [apply valueToX_finite|].
    set (D := (dmax (statDomain s) - dmin (statDomain s))%Q) in *.
    set (y := ((q + - dmin (statDomain s)) / D)%Q).
    destruct (unit_clamp_range y) as [L U].
    destruct (Qmax_spec 0 (Qmin 1 y)) as (M1 & M2 & M3).
    destruct (Qmin_spec 1 y) as (N1 & N2 & N3).
    set (p := Qmax 0 (Qmin 1 y)) in *. clearbody p.
    assert (P0 : (0 <= p * gridW s)%Q) by (apply Qmult_le_0_compat; assumption).
    assert (P1 : (p * gridW s <= 1 * gridW s)%Q)
      by (apply Qmult_le_compat_r; assumption).
    split; [split; lra|]. split.
    + intro Hq.
      assert (Y : (y <= 0)%Q).
      { subst y. apply Qle_shift_div_r; [exact DW|]. rewrite Qmult_0_l.
        revert Hq. generalize (dmin (statDomain s)). intros q0 Hq. clear - Hq. lra. }
      assert (E : (p == 0)%Q).
      { clearbody y. destruct M3 as [M3|M3]; [rewrite M3; reflexivity|].
        rewrite M3 in M1 |- *. clear - M1 N2 Y. lra. }
      rewrite E. ring.
    + intro Hq.
      assert (Y : (1 <= y)%Q).
      { subst y. apply Qle_shift_div_l; [exact DW|]. subst D. rewrite Qmult_1_l.
        revert Hq. generalize (dmin (statDomain s)), (dmax (statDomain s)).
        intros q0 q1 Hq. clear - Hq. lra. }
      assert (E : (p == 1)%Q).
      { clearbody y. clear - M1 M2 M3 N3 Y U.
        destruct N3 as [N3|N3]; rewrite N3 in *; lra. }
      rewrite E. ring.
  - intros q q' Hq. eexists; eexists.
    split; [apply valueToX_finite|]. split; [apply valueToX_finite|].
    set (D := (dmax (statDomain s) - dmin (statDomain s))%Q) in *.
    assert (Y : ((q + - dmin (statDomain s)) / D <= (q' + - dmin (statDomain s)) / D)%Q).
    { apply Qdiv_le_mono; [exact DW | lra]. }
    pose proof (unit_clamp_mono _ _ Y) as Mo.
    assert (P : (Qmax 0 (Qmin 1 ((q + - dmin (statDomain s)) / D)) * gridW s
                 <= Qmax 0 (Qmin 1 ((q' + - dmin (statDomain s)) / D)) * gridW s)%Q)
      by (apply Qmult_le_compat_r; assumption).
    lra.
Qed.

Lemma valueToX_within_grid_witness :
  exists x : Q, valueToX flatEngine (Num (1 # 3)) = Num x
    /\ (gridX0 flatEngine <= x <= gridX0 flatEngine + gridW flatEngine)%Q.
Proof.
  destruct (valueToX_within_grid flatEngine) as (_ & H & _); [discriminate|].
  destruct (H (1 # 3)) as (x & E & B & _). exists x. split; [exact E | exact B].
Defined.

Lemma sumCols_sumZ (w : list Z) (k : nat) :
  forall a : nat, sumCols w (Z.of_nat a) k = sumZ (take k (drop a w)).
Proof.
  induction k as [|k IH]; intro a; cbn [sumCols]; [reflexivity|].
  replace (Z.of_nat a + 1) with (Z.of_nat (S a)) by lia. rewrite IH.
  unfold ta_get0, ta_get. destruct (Z.ltb_spec (Z.of_nat a) 0) as [|_]; [lia|].
  rewrite Nat2Z.id.
  destruct (w !! a) as [x|] eqn:E.
  - rewrite (drop_S _ _ _ E). reflexivity.
  - apply lookup_ge_None in E. rewrite !drop_ge by lia. now rewrite !take_nil.
Qed.

Lemma totalWeight_sumZ (w : list Z) :
  length w = Z.to_nat COLS -> totalWeight w = sumZ w.
Proof.
  intro L. unfold totalWeight. rewrite (sumCols_sumZ w _ 0%nat).
  rewrite drop_0, <- L, firstn_all. reflexivity.
Qed.

Lemma weighted_fold_bounds (w : list Z) (f : Z -> Q) (M : Q) (cs : list Z) :
  Forall (fun x => 0 <= x) w ->
  Forall (fun c => 0 <= f c <= M)%Q cs ->
  forall (m0 : Q) (t0 : Z),
    let m := fold_left (fun m c => (m + inject_Z (ta_get0 w c) * f c)%Q) cs m0 in
    let t := fold_left (fun t c => t + ta_get0 w c) cs t0 in
    (m0 <= m)%Q /\ (m - m0 <= inject_Z (t - t0) * M)%Q.
Proof.
  intros Hw Hcs. induction Hcs as [|c r Hc Hr IH]; intros m0 t0; cbn [fold_left].
  - cbv zeta. replace (t0 - t0) with 0 by lia. change (inject_Z 0) with 0%Q.
    split; lra.
  - specialize (IH (m0 + inject_Z (ta_get0 w c) * f c)%Q (t0 + ta_get0 w c)).
    cbv zeta in *. destruct IH as (A & B).
    pose proof (ta_get0_nonneg w c Hw) as Hn. destruct Hc as [X0 X1].
    set (m := fold_left (fun m c => (m + inject_Z (ta_get0 w c) * f c)%Q) r _) in *.
    set (t := fold_left (fun t c => t + ta_get0 w c) r _) in *.
    clearbody m t.
    assert (Wq : (0 <= inject_Z (ta_get0 w c))%Q).
    { change 0%Q with (inject_Z 0). now rewrite <- Zle_Qle. }
    assert (P0 : (0 <= inject_Z (ta_get0 w c) * f c)%Q).
    { apply Qmult_le_0_compat; assumption. }
    assert (P1 : (inject_Z (ta_get0 w c) * f c <= inject_Z (ta_get0 w c) * M)%Q).
    { rewrite (Qmult_comm _ (f c)), (Qmult_comm _ M).
      apply Qmult_le_compat_r; assumption. }
    replace (t - t0) with ((t - (t0 + ta_get0 w c)) + ta_get0 w c) by lia.
    rewrite inject_Z_plus, Qmult_plus_distr_l.
    revert A B P0 P1. generalize (inject_Z (t - (t0 + ta_get0 w c)) * M)%Q.
    generalize (inject_Z (ta_get0 w c) * M)%Q.
    generalize (inject_Z (ta_get0 w c) * f c)%Q.
    intros a b d A B P0 P1. clear - A B P0 P1. split; lra.
Qed.

Lemma botTotal_sumZ (w : list Z) :
  length w = Z.to_nat COLS ->
  fold_left (fun t b => t + ta_get0 w b) colRange 0 = sumZ w.
Proof.
  intro L. unfold colRange. rewrite fold_total_sumCols.
  rewrite Z.add_0_l. now apply totalWeight_sumZ.
Qed.

(** X10. [updateLines] writes the three tracked lines and nothing else.
    The parameter line always receives a value and its position and
    keeps its visibility; the sample-statistic line is visible exactly
    when there is a current sample, and then carries that sample's
    statistic, a number, and its position; without a current sample it
    keeps its old value and position.  The sampling-mean line is visible
    exactly when the sampling-distribution histogram is non-empty, and
    then carries a value inside the statistic's domain (for non-negative
    counts). *)
Theorem updateLines_visibility :
  forall (sqrt : Q -> Q) (s : Engine),
    let s' := updateLines sqrt s in
    let L := lines s' in
    s' = set_lines L s
    /\ line_visible (parameter L) = line_visible (parameter (lines s))
    /\ (exists v : num,
          line_value (parameter L) = Some v
          /\ line_x (parameter L) = Some (valueToX s v))
    /\ line_visible (sampleStat L) = nonemptyb (lastSample s)
    /\ (lastSample s <> [] ->
        exists q : Q,
          computeStat sqrt s (lastSample s) = Num q
          /\ line_value (sampleStat L) = Some (Num q)
          /\ line_x (sampleStat L) = Some (valueToX s (Num q)))
    /\ (lastSample s = [] ->
        line_value (sampleStat L) = line_value (sampleStat (lines s))
        /\ line_x (sampleStat L) = line_x (sampleStat (lines s)))
    /\ (length (botCounts s) = Z.to_nat STAT_BINS ->
        line_visible (samplingMean L) = (0 <? sumZ (botCounts s))
        /\ (0 < sumZ (botCounts s) ->
            Forall (fun x => 0 <= x) (botCounts s) ->
            exists m : Q,
              line_value (samplingMean L) = Some (Num m)
              /\ line_x (samplingMean L) = Some (valueToX s (Num m))
              /\ (dmin (statDomain s) <= m <= dmax (statDomain s))%Q)).
Proof.
  intros sqrt s s' L. subst L s'. unfold updateLines. cbv zeta.
  cbn [lines set_lines parameter sampleStat samplingMean].
  split; [reflexivity|]. split; [reflexivity|].
  split; [eexists; split; reflexivity|].
  split.
  { destruct (lastSample s) as [|x r] eqn:E; [reflexivity|].
    cbn [line_visible nonemptyb]. rewrite <- E.
    destruct (computeStat_nonempty sqrt s (lastSample s)) as [q Hq];
      [rewrite E; discriminate|].
    now rewrite Hq. }
  split.
  { intro Hne. destruct (computeStat_nonempty sqrt s (lastSample s) Hne) as [q Hq].
    exists q. split; [exact Hq|].
    destruct (lastSample s) as [|x r] eqn:E; [congruence|].
    cbn [line_value line_x]. rewrite <- Hq. split; reflexivity. }
  split.
  { intro E. rewrite E. split; reflexivity. }
  intro Len. rewrite (botTotal_sumZ (botCounts s) Len).
  split.
  { destruct (0 <? sumZ (botCounts s)); reflexivity. }
  intros Hpos Hnn. destruct (Z.ltb_spec 0 (sumZ (botCounts s))) as [_|]; [|lia].
  eexists. split; [reflexivity|]. split; [reflexivity|].
  set (W := (dmax (statDomain s) - dmin (statDomain s))%Q).
  set (f := fun b : Z =>
              (dmin (statDomain s)
               + (inject_Z b + (1 # 2)) / inject_Z STAT_BINS * W)%Q).
  assert (D : (dmin (statDomain s) == 0)%Q /\ (0 < W)%Q /\ (dmax (statDomain s) == W)%Q).
  { subst W. unfold statDomain. destruct (statistic s); repeat split. }
  destruct D as (D0 & DW & DM).
  assert (F : Forall (fun c => 0 <= f c <= W)%Q colRange).
  { eapply List.Forall_impl; [|exact colRange_ok]. intros c Hc. cbv beta.
    destruct (colValue_range c Hc) as [X0 X1]. subst f. cbv beta.
    change ((inject_Z c + (1 # 2)) / inject_Z STAT_BINS)%Q with (colValue c).
    assert (P0 : (0 <= colValue c * W)%Q) by (apply Qmult_le_0_compat; lra).
    assert (P1 : (colValue c * W <= 1 * W)%Q)
      by (apply Qmult_le_compat_r; lra).
    clearbody W. revert D0 P0 P1. generalize (dmin (statDomain s)).
    generalize (colValue c * W)%Q. intros a b D0 P0 P1.
    clear - D0 P0 P1. split; lra. }
  destruct (weighted_fold_bounds (botCounts s) f W colRange Hnn F 0%Q 0) as [A B].
  cbv zeta in A, B. rewrite (botTotal_sumZ (botCounts s) Len) in B.
  subst f. cbv beta in A, B.
  set (msum := fold_left _ colRange 0%Q) in *. clearbody msum.
  rewrite Z.sub_0_r in B.
  assert (T : (0 < inject_Z (sumZ (botCounts s)))%Q).
  { change 0%Q with (inject_Z 0). now rewrite <- Zlt_Qlt. }
  revert B T. generalize (inject_Z (sumZ (botCounts s))). intros t B T.
  split.
  - rewrite D0. apply Qle_shift_div_l; [exact T|]. clear - A. lra.
  - rewrite DM. apply Qle_shift_div_r; [exact T|].
    rewrite (Qmult_comm W t). clear - B. lra.
Qed.

Lemma updateLines_visibility_witness :
  let s := set_botCounts (<[3%nat := 2]> (zeros STAT_BINS))
             (set_lastSample [1 # 4]%Q (newEngine true)) in
  (exists q : Q, computeStat sqrtQ s (lastSample s) = Num q)
  /\ (exists m : Q,
        line_value (samplingMean (lines (updateLines sqrtQ s))) = Some (Num m)
        /\ (dmin (statDomain s) <= m <= dmax (statDomain s))%Q).
Proof.
  intro s.
  destruct (updateLines_visibility sqrtQ s) as (_ & _ & _ & _ & A & _ & B).
  split.
  - destruct A as (q & Hq & _); [discriminate|]. exists q. exact Hq.
  - destruct B as (_ & B); [reflexivity|].
    destruct B as (m & Hm & _ & Hd); [reflexivity| |].
    + repeat constructor; discriminate.
    + exists m. split; [exact Hm | exact Hd].
Defined.

Lemma emitLoop_lengths (s : Engine) (now : Q) (cs : list Z) :
  forall (inflight : list Z) (flashes : list PopFlash) (parts : list SampleParticle),
    length (fst (emitLoop s now cs inflight flashes parts))
    = (length flashes + length cs)%nat
    /\ length (snd (emitLoop s now cs inflight flashes parts))
       = (length parts + length cs)%nat.
Proof.
  induction cs as [|c r IH]; intros inflight flashes parts; cbn [emitLoop].
  - cbn. split; lia.
  - destruct (emitOne s now c inflight) as [[f sp] inflight'].
    destruct (IH inflight' (flashes ++ [f]) (parts ++ [sp])) as [A B].
    rewrite A, B, !length_app. cbn. split; lia.
Qed.

Lemma Qceiling_diff (a b : Z) : Qceiling (inject_Z a + - inject_Z b) = a - b.
Proof.
  rewrite <- (Qceiling_Z (a - b)). apply Qceiling_comp.
  unfold Z.sub. rewrite inject_Z_plus, inject_Z_opp. reflexivity.
Qed.

Lemma Qltb_diff (a b : Z) : Qltb 0 (inject_Z a + - inject_Z b) = (b <? a).
Proof.
  destruct (Z.ltb_spec b a) as [H|H].
  - apply Qltb_true. rewrite Zlt_Qlt in H. lra.
  - apply Qltb_false. rewrite Zle_Qle in H. lra.
Qed.

(** In the arithmetic of the model, where the product [f * total] is
    not rounded before its floor is taken, the release loop brings the
    number of released particles to [max(emitted, floor(f * total))]. *)
Lemma tickEmission_schedule (sqrt : Q -> Q) (now : Q) (s : Engine) (p : EmissionPlan) :
    emissionPlan s = Some p ->
    (p_start p < p_end p)%Q ->
    (p_emitted p <= p_total p)%nat ->
    let s' := tickEmission sqrt now s in
    let f := Qmax 0 (Qmin 1 ((now - p_start p) / (p_end p - p_start p))) in
    let e' :=
      Nat.max (p_emitted p)
        (Z.to_nat (Qfloor (f * inject_Z (Z.of_nat (p_total p))))) in
    (p_emitted p <= e' <= p_total p)%nat
    /\ length (sampleParticles s')
       = (length (sampleParticles s) + (e' - p_emitted p))%nat
    /\ length (popFlashes s')
       = (length (popFlashes s) + (e' - p_emitted p))%nat
    /\ emissionPlan s'
       = (if (p_total p <=? e')%nat then None
          else Some (mkPlan (p_start p) (p_end p) e' (p_cols p) (p_xs p)))
    /\ ((p_end p <= now)%Q -> e' = p_total p /\ emissionPlan s' = None)
    /\ ((now <= p_start p)%Q -> e' = p_emitted p).
Proof.
  intros P Hse Hle s' f e'. subst s' e' f.
  set (y := ((now - p_start p) / (p_end p - p_start p))%Q).
  set (fq := Qmax 0 (Qmin 1 y)).
  set (tot := p_total p) in *. set (E := p_emitted p) in *.
  set (T := Qfloor (fq * inject_Z (Z.of_nat tot))).
  destruct (unit_clamp_range y) as [F0 F1]. fold fq in F0, F1.
  assert (Tn : (0 <= inject_Z (Z.of_nat tot))%Q).
  { change 0%Q with (inject_Z 0). rewrite <- Zle_Qle. lia. }
  assert (T0 : 0 <= T).
  { subst T. change 0 with (Qfloor 0). apply Qfloor_resp_le.
    apply Qmult_le_0_compat; assumption. }
  assert (T1 : T <= Z.of_nat tot).
  { subst T. rewrite <- (Qfloor_Z (Z.of_nat tot)) at 2. apply Qfloor_resp_le.
    rewrite <- (Qmult_1_l (inject_Z (Z.of_nat tot))) at 2.
    apply Qmult_le_compat_r; assumption. }
  assert (Hd : (0 < p_end p - p_start p)%Q) by lra.
  assert (Ez : Qeq_bool (p_end p - p_start p) 0 = false).
  { destruct (Qeq_bool _ 0) eqn:Q0; [|reflexivity].
    apply Qeq_bool_eq in Q0. lra. }
  (* the state after the release loop *)
  assert (S1 :
    exists s1 : Engine,
      tickEmission sqrt now s
      = match emissionPlan s1 with
        | Some p1 =>
            if (p_total p1 <=? p_emitted p1)%nat
            then updateLines sqrt (set_emissionPlan None s1) else s1
        | None => s1
        end
      /\ emissionPlan s1
         = Some (mkPlan (p_start p) (p_end p) (Nat.max E (Z.to_nat T))
                        (p_cols p) (p_xs p))
      /\ length (sampleParticles s1)
         = (length (sampleParticles s) + (Nat.max E (Z.to_nat T) - E))%nat
      /\ length (popFlashes s1)
         = (length (popFlashes s) + (Nat.max E (Z.to_nat T) - E))%nat).
  { unfold tickEmission. rewrite P. cbv zeta.
    assert (Fq : clamp (ndiv (Num (now - p_start p)) (Num (p_end p - p_start p)))
                       (Num 0) (Num 1) = Num fq).
    { unfold ndiv. rewrite Ez. apply clamp_finite. }
    rewrite !Fq.
    fold tot. fold E.
    change (Math_floor (nmul (Num fq) (Num (inject_Z (Z.of_nat tot)))))
      with (Num (inject_Z T)).
    change (nsub (Num (inject_Z T)) (Num (inject_Z (Z.of_nat E))))
      with (Num (inject_Z T + - inject_Z (Z.of_nat E))).
    set (toEmit := (inject_Z T + - inject_Z (Z.of_nat E))%Q).
    set (toEmit' := if nle (Num toEmit) (Num 0) && nle (Num 1) (Num fq)
                    then nsub (Num (inject_Z (Z.of_nat tot))) (Num (inject_Z (Z.of_nat E)))
                    else Num toEmit).
    assert (TE : exists T' : Z,
               toEmit' = Num (inject_Z T' + - inject_Z (Z.of_nat E))
               /\ Z.to_nat T' = Z.to_nat T /\ 0 <= T').
    { subst toEmit'.
      destruct (nle (Num toEmit) (Num 0) && nle (Num 1) (Num fq)) eqn:C.
      - apply andb_prop in C. destruct C as [_ C]. cbn in C.
        apply Qle_bool_true in C.
        exists (Z.of_nat tot). split; [reflexivity|]. split; [|lia].
        f_equal. subst T.
        assert (Q1 : (fq * inject_Z (Z.of_nat tot) == inject_Z (Z.of_nat tot))%Q).
        { assert (fq == 1)%Q by lra. rewrite H. ring. }
        rewrite (Qfloor_comp _ _ Q1), Qfloor_Z. reflexivity.
      - exists T. split; [reflexivity|]. split; [reflexivity | exact T0]. }
    destruct TE as (T' & TE & TT & T0').
    rewrite TE. clear TE toEmit'.
    unfold nlt. rewrite Qltb_diff.
    destruct (Z.ltb_spec (Z.of_nat E) T') as [Hlt|Hge].
    - unfold toEmitCount. rewrite Qltb_diff.
      destruct (Z.ltb_spec (Z.of_nat E) T') as [_|]; [|lia].
      rewrite Qceiling_diff.
      set (k := Nat.min (Z.to_nat (T' - Z.of_nat E)) (tot - E)).
      set (cs := take k (drop E (p_cols p))).
      assert (K : k = (Z.to_nat T - E)%nat) by (subst k; lia).
      assert (Lc : length cs = k).
      { subst cs. rewrite length_take, length_drop. fold (p_total p). fold tot. lia. }
      destruct (emitLoop_lengths s now cs (inflightOf (sampleParticles s))
                  (popFlashes s) (sampleParticles s)) as [A B].
      destruct (emitLoop s now cs (inflightOf (sampleParticles s))
                  (popFlashes s) (sampleParticles s)) as [fl parts].
      cbn [fst snd] in A, B.
      eexists. split; [reflexivity|].
      cbn [emissionPlan set_emissionPlan sampleParticles set_sampleParticles
           popFlashes set_popFlashes].
      rewrite A, B, Lc.
      replace (Nat.max E (Z.to_nat T)) with (E + k)%nat by lia.
      split; [reflexivity|]. split; f_equal; lia.
    - exists s. split; [reflexivity|].
      replace (Nat.max E (Z.to_nat T)) with E by lia.
      rewrite P. split; [destruct p; reflexivity|]. split; lia. }
  destruct S1 as (s1 & Eq & P1 & L1 & L2).
  set (e' := Nat.max E (Z.to_nat T)) in *.
  assert (R : (E <= e' <= tot)%nat) by (subst e'; lia).
  split; [exact R|].
  assert (Main :
    length (sampleParticles (tickEmission sqrt now s))
    = (length (sampleParticles s) + (e' - E))%nat
    /\ length (popFlashes (tickEmission sqrt now s))
       = (length (popFlashes s) + (e' - E))%nat
    /\ emissionPlan (tickEmission sqrt now s)
       = (if (tot <=? e')%nat then None
          else Some (mkPlan (p_start p) (p_end p) e' (p_cols p) (p_xs p)))).
  { rewrite Eq, P1.
    change (p_total (mkPlan (p_start p) (p_end p) e' (p_cols p) (p_xs p))) with tot.
    cbn [p_emitted].
    destruct (tot <=? e')%nat.
    - unfold updateLines.
      cbn [sampleParticles popFlashes emissionPlan set_lines set_emissionPlan].
      split; [exact L1|]. split; [exact L2 | reflexivity].
    - split; [exact L1|]. split; [exact L2 | exact P1]. }
  destruct Main as (M1 & M2 & M3).
  split; [exact M1|]. split; [exact M2|]. split; [exact M3|].
  split.
  - intro Hend.
    assert (Y : (1 <= y)%Q).
    { subst y. apply Qle_shift_div_l; [exact Hd|]. clear - Hend. lra. }
    assert (F : (fq == 1)%Q).
    { destruct (Qmin_spec 1 y) as (N1 & N2 & N3).
      destruct (Qmax_spec 0 (Qmin 1 y)) as (X1 & X2 & X3). fold fq in X1, X2, X3.
      clearbody fq y. clear - Y F1 N3 X2. destruct N3 as [N|N]; rewrite N in X2; lra. }
    assert (TT : T = Z.of_nat tot).
    { subst T.
      assert (Q1 : (fq * inject_Z (Z.of_nat tot) == inject_Z (Z.of_nat tot))%Q)
        by (rewrite F; ring).
      rewrite (Qfloor_comp _ _ Q1). apply Qfloor_Z. }
    assert (e' = tot) by (subst e'; lia).
    split; [assumption|]. rewrite M3.
    destruct (Nat.leb_spec tot e'); [reflexivity | lia].
  - intro Hst.
    assert (Y : (y <= 0)%Q).
    { subst y. apply Qle_shift_div_r; [exact Hd|]. clear - Hst. lra. }
    assert (F : (fq == 0)%Q).
    { destruct (Qmin_spec 1 y) as (N1 & N2 & N3).
      destruct (Qmax_spec 0 (Qmin 1 y)) as (X1 & X2 & X3). fold fq in X1, X2, X3.
      clearbody fq y. clear - Y F0 N2 X3. destruct X3 as [X|X]; rewrite X in *; lra. }
    assert (TT : T = 0).
    { subst T.
      assert (Q1 : (fq * inject_Z (Z.of_nat tot) == inject_Z 0)%Q)
        by (rewrite F; ring).
      rewrite (Qfloor_comp _ _ Q1). apply Qfloor_Z. }
    subst e'. lia.
Qed.

(** X11. While an emission plan with [start < end] is active, the
    release loop of [tick] follows the linear schedule.  A tick at [now]
    releases [k] further particles of the plan, never more than are
    left: it adds exactly [k] new particles and [k] population flashes
    and advances the plan by [k], removing it as soon as all its
    particles are released.  The number released so far stays within one
    particle of [max(emitted, floor(f * total))], [f] being the elapsed
    fraction of the plan's duration clamped to [0, 1] (the product is
    rounded before its floor is taken).  Nothing is released up to the
    start, and everything is released by a tick at or after the end. *)
Theorem emission_follows_linear_schedule :
  forall (sqrt : Q -> Q) (now : Q) (s : Engine) (p : EmissionPlan),
    emissionPlan s = Some p ->
    (p_start p < p_end p)%Q ->
    (p_emitted p <= p_total p)%nat ->
    let s' := tickEmission sqrt now s in
    let f := Qmax 0 (Qmin 1 ((now - p_start p) / (p_end p - p_start p))) in
    let T := Z.to_nat (Qfloor (f * inject_Z (Z.of_nat (p_total p)))) in
    exists k : nat,
      (p_emitted p + k <= p_total p)%nat
      /\ length (sampleParticles s') = (length (sampleParticles s) + k)%nat
      /\ length (popFlashes s') = (length (popFlashes s) + k)%nat
      /\ emissionPlan s'
         = (if (p_total p <=? p_emitted p + k)%nat then None
            else Some (mkPlan (p_start p) (p_end p) (p_emitted p + k)
                              (p_cols p) (p_xs p)))
      /\ (Nat.max (p_emitted p) (T - 1) <= p_emitted p + k
          <= Nat.max (p_emitted p) (T + 1))%nat
      /\ ((p_end p <= now)%Q ->
          (p_emitted p + k)%nat = p_total p /\ emissionPlan s' = None)
      /\ ((now <= p_start p)%Q -> k = 0%nat).
Proof.
  intros sqrt now s p P Hse Hle s' f T.
  destruct (tickEmission_schedule sqrt now s p P Hse Hle)
    as (R & L1 & L2 & Pl & Hend & Hst).
  cbv zeta in R, L1, L2, Pl, Hend, Hst. fold f in R, L1, L2, Pl, Hend, Hst.
  fold T in R, L1, L2, Pl, Hend, Hst. fold s' in L1, L2, Pl, Hend.
  set (e' := Nat.max (p_emitted p) T) in *.
  exists (e' - p_emitted p)%nat.
  replace (p_emitted p + (e' - p_emitted p))%nat with e' by lia.
  split; [lia|]. split; [exact L1|]. split; [exact L2|].
  split; [exact Pl|]. split; [subst e'; lia|].
  split; [exact Hend|]. intro H. specialize (Hst H). lia.
Qed.

Lemma emission_follows_linear_schedule_witness :
  emissionPlan (tickEmission sqrtQ 1200 busyEngine) = None.
Proof.
  pose (p := mkPlan 0 (0 + 1200) 0 (snd (fst (sampleN 30 readyEngine)))
                    (fst (fst (sampleN 30 readyEngine)))).
  assert (P : emissionPlan busyEngine = Some p)
    by exact (proj1 (startSample_spec 30 1200 0 readyEngine)).
  destruct (emission_follows_linear_schedule sqrtQ 1200 busyEngine p P)
    as (k & _ & _ & _ & _ & _ & H & _).
  - reflexivity.
  - apply Nat.le_0_l.
  - apply H. discriminate.
Defined.

(** The fields the fall loops write. *)
Lemma fallSamples_shape (sqrt : Q -> Q) (g dt : Q) (parts : list SampleParticle) :
  forall s : Engine,
    exists (M : list Z) (L : Lines),
      snd (fallSamples sqrt g dt parts s) = set_lines L (set_midCounts M s).
Proof.
  induction parts as [|sp r IH]; intro s; cbn [fallSamples].
  - exists (midCounts s), (lines s). destruct s; reflexivity.
  - destruct (sampleInAir (moveSample g dt sp)).
    + destruct (IH s) as (M & L & E).
      destruct (fallSamples sqrt g dt r s). exists M, L. exact E.
    + destruct (IH (landSample sqrt (sp_col (moveSample g dt sp)) s)) as (M & L & E).
      exists M, L. rewrite E. reflexivity.
Qed.

Lemma tickSamples_shape (sqrt : Q -> Q) (g dt : Q) (s : Engine) :
  exists (P : list SampleParticle) (M : list Z) (L : Lines),
    tickSamples sqrt g dt s
    = set_sampleParticles P (set_lines L (set_midCounts M s)).
Proof.
  unfold tickSamples. destruct (sampleParticles s) as [|sp r] eqn:E.
  - exists [], (midCounts s), (lines s). destruct s; cbn in E; subst; reflexivity.
  - destruct (fallSamples_shape sqrt g dt (sp :: r) s) as (M & L & H).
    destruct (fallSamples sqrt g dt (sp :: r) s) as [surv s'].
    cbn [snd] in H. exists surv, M, L. now rewrite H.
Qed.

Lemma fallStats_shape (sqrt : Q -> Q) (g dt : Q) (parts : list StatParticle) :
  forall s : Engine,
    exists (B : list Z) (L : Lines),
      snd (fallStats sqrt g dt parts s) = set_lines L (set_botCounts B s).
Proof.
  induction parts as [|sp r IH]; intro s; cbn [fallStats].
  - exists (botCounts s), (lines s). destruct s; reflexivity.
  - destruct (statInAir (moveStat g dt sp)).
    + destruct (IH s) as (M & L & E).
      destruct (fallStats sqrt g dt r s). exists M, L. exact E.
    + destruct (IH (landStat sqrt (st_bin (moveStat g dt sp)) s)) as (M & L & E).
      exists M, L. rewrite E. reflexivity.
Qed.

Lemma tickStats_shape (sqrt : Q -> Q) (g dt : Q) (s : Engine) :
  exists (P : list StatParticle) (B : list Z) (L : Lines),
    tickStats sqrt g dt s
    = set_statParticles P (set_lines L (set_botCounts B s)).
Proof.
  unfold tickStats. destruct (statParticles s) as [|sp r] eqn:E.
  - exists [], (botCounts s), (lines s). destruct s; cbn in E; subst; reflexivity.
  - destruct (fallStats_shape sqrt g dt (sp :: r) s) as (M & L & H).
    destruct (fallStats sqrt g dt (sp :: r) s) as [surv s'].
    cbn [snd] in H. exists surv, M, L. now rewrite H.
Qed.

Lemma tickGather_keeps_flashes (sqrt : Q -> Q) (now : Q) (s : Engine) :
  popFlashes (tickGather sqrt now s) = popFlashes s
  /\ emissionPlan (tickGather sqrt now s) = emissionPlan s.
Proof.
  unfold tickGather. destruct (gathering s); [|split; reflexivity].
  destruct (gatherTarget s); [|split; reflexivity]. cbv zeta.
  match goal with |- context [if ?c then _ else _] => destruct c end;
    split; reflexivity.
Qed.

Lemma tick_flashes_spec (sqrt : Q -> Q) (dt now : Q) (s : Engine) :
  popFlashes (tick sqrt dt now s)
  = List.filter (fun f => Qltb now (pf_until f))
      (popFlashes (tickEmission sqrt now s))
  /\ emissionPlan (tick sqrt dt now s) = emissionPlan (tickEmission sqrt now s).
Proof.
  unfold tick. cbv zeta.
  set (s1 := tickEmission sqrt now s).
  destruct (tickSamples_shape sqrt (gravity s) dt s1) as (P & M & L & E2).
  set (s2 := tickSamples sqrt (gravity s) dt s1) in *.
  destruct (tickGather_keeps_flashes sqrt now s2) as [E3 E3'].
  set (s3 := tickGather sqrt now s2) in *.
  destruct (tickStats_shape sqrt (gravity s) dt s3) as (P' & B & L' & E4).
  set (s4 := tickStats sqrt (gravity s) dt s3) in *.
  assert (F : popFlashes s4 = popFlashes s1 /\ emissionPlan s4 = emissionPlan s1).
  { rewrite E4. cbn [popFlashes emissionPlan set_statParticles set_lines set_botCounts].
    rewrite E3, E3', E2. split; reflexivity. }
  destruct F as [F1 F2].
  match goal with |- context [if ?c then _ else _] => destruct c end;
    cbn [popFlashes emissionPlan set_needsRedraw tickFlashes set_popFlashes];
    rewrite F1, F2; split; reflexivity.
Qed.

Lemma toEmitCount_le (t : num) (r : nat) : (toEmitCount t r <= r)%nat.
Proof.
  unfold toEmitCount. destruct t as [|[|]|q]; try lia.
  destruct (Qltb 0 q); lia.
Qed.

Lemma tickEmission_moves_pending (sqrt : Q -> Q) (now : Q) (s : Engine) :
  (length (sampleParticles (tickEmission sqrt now s))
   + pendingEmission (tickEmission sqrt now s)
   = length (sampleParticles s) + pendingEmission s)%nat.
Proof.
  unfold tickEmission, pendingEmission.
  destruct (emissionPlan s) as [p|] eqn:P; [|rewrite P; reflexivity].
  cbv zeta.
  match goal with |- context [if nlt (Num 0) ?t then _ else _] =>
    destruct (nlt (Num 0) t); [set (k := toEmitCount _ _)|] end.
  - pose proof (toEmitCount_le
                  (if nle (nsub (Math_floor (nmul
                       (clamp (ndiv (Num (now - p_start p)) (Num (p_end p - p_start p)))
                              (Num 0) (Num 1))
                       (Num (inject_Z (Z.of_nat (p_total p))))))
                       (Num (inject_Z (Z.of_nat (p_emitted p))))) (Num 0)
                      && nle (Num 1)
                           (clamp (ndiv (Num (now - p_start p)) (Num (p_end p - p_start p)))
                              (Num 0) (Num 1))
                   then nsub (Num (inject_Z (Z.of_nat (p_total p))))
                             (Num (inject_Z (Z.of_nat (p_emitted p))))
                   else nsub (Math_floor (nmul
                       (clamp (ndiv (Num (now - p_start p)) (Num (p_end p - p_start p)))
                              (Num 0) (Num 1))
                       (Num (inject_Z (Z.of_nat (p_total p))))))
                       (Num (inject_Z (Z.of_nat (p_emitted p)))))
                  (p_total p - p_emitted p)) as K.
    fold k in K.
    set (cs := take k (drop (p_emitted p) (p_cols p))).
    assert (Lc : length cs = k).
    { subst cs. rewrite length_take, length_drop. fold (p_total p). lia. }
    destruct (emitLoop_lengths s now cs (inflightOf (sampleParticles s))
                (popFlashes s) (sampleParticles s)) as [_ B].
    destruct (emitLoop s now cs (inflightOf (sampleParticles s))
                (popFlashes s) (sampleParticles s)) as [fl parts].
    cbn [snd] in B. cbn [emissionPlan set_emissionPlan].
    change (p_total (mkPlan (p_start p) (p_end p) (p_emitted p + length cs)
                            (p_cols p) (p_xs p))) with (p_total p).
    cbn [p_emitted]. rewrite Lc.
    destruct (Nat.leb_spec (p_total p) (p_emitted p + k)).
    + unfold updateLines.
      cbn [sampleParticles emissionPlan set_lines set_emissionPlan set_sampleParticles].
      rewrite B. lia.
    + cbn [sampleParticles emissionPlan set_emissionPlan set_sampleParticles].
      change (p_total (mkPlan (p_start p) (p_end p) (p_emitted p + k)
                              (p_cols p) (p_xs p))) with (p_total p).
      cbn [p_emitted]. rewrite B. lia.
  - rewrite P. destruct (Nat.leb_spec (p_total p) (p_emitted p)).
    + unfold updateLines.
      cbn [sampleParticles emissionPlan set_lines set_emissionPlan]. lia.
    + rewrite P. reflexivity.
Qed.

Lemma zeros_nonneg (n : Z) : Forall (fun x => 0 <= x) (zeros n).
Proof.
  unfold zeros. induction (Z.to_nat n); cbn; constructor; [lia | assumption].
Qed.

Lemma sumZ_nonneg (a : list Z) : Forall (fun x => 0 <= x) a -> 0 <= sumZ a.
Proof. induction 1; simpl; lia. Qed.

Lemma bumpAll_counts (cols : list Z) :
  forall a : list Z,
    Forall colOk cols ->
    length a = Z.to_nat COLS ->
    Forall (fun x => 0 <= x) a ->
    sumZ a + Z.of_nat (length cols) <= 65535 ->
    sumZ (fold_left bump16 cols a) = sumZ a + Z.of_nat (length cols)
    /\ Forall (fun x => 0 <= x) (fold_left bump16 cols a).
Proof.
  induction cols as [|c r IH]; intros a Hc La Hn Hb; cbn [fold_left].
  - cbn. split; [lia | exact Hn].
  - apply Forall_cons in Hc. destruct Hc as [Hc Hr].
    assert (G : exists v, ta_get a c = Some v).
    { unfold ta_get. unfold colOk, COLS in *.
      destruct (Z.ltb_spec c 0); [lia|].
      apply lookup_lt_is_Some. rewrite La. lia. }
    destruct G as [v G].
    assert (V : 0 <= v <= sumZ a).
    { unfold ta_get in G. destruct (c <? 0); [discriminate|].
      eapply sumZ_bound; eassumption. }
    cbn [length] in Hb.
    destruct (bump16_exact a c v G) as (E & _ & _ & S); [lia|].
    assert (Hn' : Forall (fun x => 0 <= x) (bump16 a c)).
    { rewrite E. apply Forall_insert; [exact Hn | lia]. }
    destruct (IH (bump16 a c) Hr) as [A B].
    + now rewrite bump16_length.
    + exact Hn'.
    + lia.
    + split; [rewrite A, S; cbn [length]; lia | exact B].
Qed.

Lemma filter_split_length {A : Type} (f : A -> bool) (l : list A) :
  (length (List.filter f l) + length (List.filter (fun x => negb (f x)) l)
   = length l)%nat.
Proof.
  induction l as [|x r IH]; cbn; [reflexivity|].
  destruct (f x); cbn; lia.
Qed.

(** X12. [tick] neither loses nor duplicates a particle of the current
    sample.  On a well-formed engine whose sample histogram has no
    negative cell, the number of particles counted in the sample
    histogram, in the air and still to be released is the same after a
    tick as before, as long as that number is at most 65535 (the ceiling
    of a 16-bit cell); the tick keeps the engine well formed and the
    histogram non-negative, so the statement carries over any number of
    ticks. *)
Theorem tick_conserves_sample_particles :
  forall (sqrt : Q -> Q) (dt now : Q) (s : Engine),
    wellFormed s ->
    Forall (fun x => 0 <= x) (midCounts s) ->
    sampleMass s <= 65535 ->
    let s' := tick sqrt dt now s in
    sampleMass s' = sampleMass s
    /\ wellFormed s'
    /\ Forall (fun x => 0 <= x) (midCounts s').
Proof.
  intros sqrt dt now s W Hn Hb s'. subst s'.
  pose proof (tick_wellFormed sqrt dt now s W) as W'.
  destruct (tick_samples_spec sqrt dt now s) as [TP TM].
  pose proof (proj2 (tick_flashes_spec sqrt dt now s)) as TE.
  set (s1 := tickEmission sqrt now s) in *.
  pose proof (tickEmission_wellFormed sqrt now s W) as W1. fold s1 in W1.
  pose proof (tickEmission_moves_pending sqrt now s) as M1. fold s1 in M1.
  pose proof (tickEmission_keeps_midCounts sqrt now s) as K1. fold s1 in K1.
  destruct (tickSamples_spec sqrt (gravity s) dt s1) as [SP SM].
  cbv zeta in SP, SM.
  set (moved := map (moveSample (gravity s) dt) (sampleParticles s1)) in *.
  set (landed := List.filter (fun p => negb (sampleInAir p)) moved) in *.
  pose proof (filter_split_length sampleInAir moved) as FL. fold landed in FL.
  assert (LM : length moved = length (sampleParticles s1))
    by (subst moved; apply length_map).
  assert (Hl : Forall colOk (map sp_col landed)).
  { destruct W1 as (_ & _ & _ & Hs & _).
    assert (Hm : Forall colOk (map sp_col moved)).
    { subst moved. rewrite map_map. exact Hs. }
    subst landed. clear - Hm. induction moved as [|x r IH]; cbn; [constructor|].
    cbn in Hm. apply Forall_cons in Hm. destruct Hm as [Hx Hr].
    destruct (sampleInAir x); cbn; [now apply IH|].
    constructor; [exact Hx | now apply IH]. }
  assert (Ll : length (map sp_col landed) = length landed) by apply length_map.
  unfold sampleMass in Hb.
  destruct (bumpAll_counts (map sp_col landed) (midCounts s1) Hl) as [A B].
  - destruct W1 as (_ & Lm & _). exact Lm.
  - rewrite K1. exact Hn.
  - rewrite K1, Ll. lia.
  - unfold sampleMass, pendingEmission in *.
    rewrite TP, TM, TE, SP, SM, A, Ll, K1.
    split; [|split; [exact W'|]].
    + lia.
    + rewrite <- K1. exact B.
Qed.

Lemma tick_conserves_sample_particles_witness :
  sampleMass (tick sqrtQ (1 # 20) 600 busyEngine) = sampleMass busyEngine.
Proof.
  assert (W : wellFormed busyEngine).
  { apply startSample_wellFormed. apply draw_wellFormed.
    apply (perform_wellFormed sqrtQ expQ logQ (AApplyGenerator GenUniform)).
    apply newEngine_wellFormed. }
  assert (M : midCounts busyEngine = zeros COLS).
  { exact (f_equal (fun t => fst (fst (fst (fst t))))
             (proj2 (proj2 (startSample_spec 30 1200 0 readyEngine)))). }
  assert (L : length (fst (fst (sampleN 30 readyEngine))) = 30%nat
              /\ length (snd (fst (sampleN 30 readyEngine))) = 30%nat).
  { rewrite sampleN_result. cbn [fst snd].
    rewrite !length_map, rngStream_length. split; reflexivity. }
  apply (tick_conserves_sample_particles sqrtQ (1 # 20) 600 busyEngine W).
  - rewrite M. apply zeros_nonneg.
  - unfold sampleMass, pendingEmission.
    rewrite M, sumZ_zeros.
    replace (sampleParticles busyEngine) with (@nil SampleParticle).
    + change busyEngine with (startSample 30 1200 0 readyEngine).
      rewrite (proj1 (startSample_spec 30 1200 0 readyEngine)).
      unfold p_total. cbn [p_cols p_emitted]. rewrite (proj2 L). cbn. lia.
    + symmetry.
      exact (f_equal (fun t => snd (fst (fst (fst t))))
             (proj2 (proj2 (startSample_spec 30 1200 0 readyEngine)))).
Defined.

Lemma moveSample_iter_frame (g dt : Q) (sp : SampleParticle) (n : nat) :
  sp_col (Nat.iter n (moveSample g dt) sp) = sp_col sp
  /\ sp_x (Nat.iter n (moveSample g dt) sp) = sp_x sp
  /\ sp_targetY (Nat.iter n (moveSample g dt) sp) = sp_targetY sp.
Proof.
  induction n as [|n IH]; [repeat split|].
  change (Nat.iter (S n) (moveSample g dt) sp)
    with (moveSample g dt (Nat.iter n (moveSample g dt) sp)).
  set (cur := Nat.iter n (moveSample g dt) sp) in *.
  unfold moveSample. cbn [sp_col sp_x sp_targetY]. exact IH.
Qed.

Lemma moveSample_iter_vy (g dt : Q) (sp : SampleParticle) (n : nat) :
  (sp_vy (Nat.iter n (moveSample g dt) sp)
   == sp_vy sp + inject_Z (Z.of_nat n) * (g * dt))%Q.
Proof.
  induction n as [|n IH].
  - cbn. ring.
  - change (Nat.iter (S n) (moveSample g dt) sp)
      with (moveSample g dt (Nat.iter n (moveSample g dt) sp)).
    set (cur := Nat.iter n (moveSample g dt) sp) in *.
    unfold moveSample. cbn [sp_vy]. rewrite IH.
    rewrite Nat2Z.inj_succ. unfold Z.succ. rewrite inject_Z_plus. ring.
Qed.

Lemma freeFall_step (g dt : Q) (sp : SampleParticle) (k : nat) :
  (freeFall g dt sp (S k)
   == freeFall g dt sp k
      + (sp_vy sp + inject_Z (Z.of_nat (S k)) * (g * dt)) * dt)%Q.
Proof.
  unfold freeFall. cbv zeta. rewrite Nat2Z.inj_succ. unfold Z.succ.
  rewrite inject_Z_plus. change (inject_Z 1) with 1%Q. field.
Qed.

Lemma moveSample_iter_y (g dt : Q) (sp : SampleParticle) (n : nat) :
  (0 <= g)%Q -> (0 <= dt)%Q -> (0 <= sp_vy sp)%Q ->
  let sp' := Nat.iter (S n) (moveSample g dt) sp in
  (sp_y sp' <= sp_targetY sp)%Q
  /\ ((freeFall g dt sp (S n) <= sp_targetY sp)%Q ->
      (sp_y sp' == freeFall g dt sp (S n))%Q)
  /\ ((sp_targetY sp <= freeFall g dt sp (S n))%Q ->
      (sp_y sp' == sp_targetY sp)%Q).
Proof.
  intros Hg Hdt Hv.
  assert (D : forall k : nat,
             (0 <= (sp_vy sp + inject_Z (Z.of_nat k) * (g * dt)) * dt)%Q).
  { intro k. apply Qmult_le_0_compat; [|exact Hdt].
    assert (0 <= inject_Z (Z.of_nat k))%Q.
    { change 0%Q with (inject_Z 0). rewrite <- Zle_Qle. lia. }
    assert (0 <= inject_Z (Z.of_nat k) * (g * dt))%Q.
    { apply Qmult_le_0_compat; [assumption|]. now apply Qmult_le_0_compat. }
    lra. }
  induction n as [|n IH].
  - cbv zeta. change (Nat.iter 1 (moveSample g dt) sp) with (moveSample g dt sp).
    unfold moveSample. cbn [sp_y].
    destruct (Qmin_spec (sp_y sp + (sp_vy sp + g * dt) * dt) (sp_targetY sp))
      as (A & B & C).
    assert (F : (freeFall g dt sp 1 == sp_y sp + (sp_vy sp + g * dt) * dt)%Q).
    { unfold freeFall. cbn. field. }
    set (m := Qmin _ _) in *. clearbody m.
    revert A B C F. generalize (sp_y sp + (sp_vy sp + g * dt) * dt)%Q.
    generalize (freeFall g dt sp 1), (sp_targetY sp). intros f T0 y1 A B C F.
    clear - A B C F. split; [exact B|].
    split; intro H; destruct C as [C|C]; rewrite C in *; lra.
  - cbv zeta in *. destruct IH as (I1 & I2 & I3).
    pose proof (freeFall_step g dt sp (S n)) as FS.
    pose proof (D (S (S n))) as Dk.
    pose proof (moveSample_iter_vy g dt sp (S n)) as V.
    destruct (moveSample_iter_frame g dt sp (S n)) as (_ & _ & T).
    set (cur := Nat.iter (S n) (moveSample g dt) sp) in *.
    change (Nat.iter (S (S n)) (moveSample g dt) sp) with (moveSample g dt cur).
    unfold moveSample. cbn [sp_y]. rewrite T.
    destruct (Qmin_spec (sp_y cur + (sp_vy cur + g * dt) * dt) (sp_targetY sp))
      as (A & B & C).
    assert (E : ((sp_vy cur + g * dt) * dt
                 == (sp_vy sp + inject_Z (Z.of_nat (S (S n))) * (g * dt)) * dt)%Q).
    { rewrite V. rewrite (Nat2Z.inj_succ (S n)). unfold Z.succ.
      rewrite inject_Z_plus. change (inject_Z 1) with 1%Q. ring. }
    set (m := Qmin _ _) in *. clearbody m.
    set (d := ((sp_vy sp + inject_Z (Z.of_nat (S (S n))) * (g * dt)) * dt)%Q) in *.
    clearbody d.
    revert A C E. generalize ((sp_vy cur + g * dt) * dt)%Q. intros d' A C E.
    revert I2 I3 FS. generalize (freeFall g dt sp (S (S n))), (freeFall g dt sp (S n)).
    intros f2 f1 I2 I3 FS.
    revert I1 I2 I3 A B C. generalize (sp_y cur), (sp_targetY sp).
    intros y T0 I1 I2 I3 A B C. clear - I1 I2 I3 A B C FS E Dk.
    split; [exact B|].
    split; intro H.
    + assert (f1 <= T0)%Q by lra. specialize (I2 H0).
      destruct C as [C|C]; rewrite C in *; lra.
    + destruct (Qlt_le_dec T0 f1) as [L|L].
      * assert (y == T0)%Q by (apply I3; lra).
        destruct C as [C|C]; rewrite C in *; lra.
      * specialize (I2 L). destruct C as [C|C]; rewrite C in *; lra.
Qed.

(** X13. A falling sample particle follows the free-fall parabola until
    it reaches its target.  For non-negative gravity, tick length and
    initial speed, after [n + 1] physics updates with the same tick
    length the speed has grown by [(n + 1) * g * dt], the height is the
    smaller of the target height and the free-fall height, never beyond
    the target, and the particle counts as in the air exactly while its
    free-fall height is more than 0.1 above the target.  Column,
    horizontal position and target are never changed. *)
Theorem falling_particle_follows_free_fall :
  forall (g dt : Q) (sp : SampleParticle) (n : nat),
    (0 <= g)%Q -> (0 <= dt)%Q -> (0 <= sp_vy sp)%Q ->
    let sp' := Nat.iter (S n) (moveSample g dt) sp in
    (sp_col sp', sp_x sp', sp_targetY sp') = (sp_col sp, sp_x sp, sp_targetY sp)
    /\ (sp_vy sp' == sp_vy sp + inject_Z (Z.of_nat (S n)) * (g * dt))%Q
    /\ (sp_y sp' <= sp_targetY sp)%Q
    /\ ((freeFall g dt sp (S n) <= sp_targetY sp)%Q ->
        (sp_y sp' == freeFall g dt sp (S n))%Q)
    /\ ((sp_targetY sp <= freeFall g dt sp (S n))%Q ->
        (sp_y sp' == sp_targetY sp)%Q)
    /\ (sampleInAir sp' = true
        <-> (freeFall g dt sp (S n) < sp_targetY sp - (1 # 10))%Q).
Proof.
  intros g dt sp n Hg Hdt Hv sp'.
  destruct (moveSample_iter_frame g dt sp (S n)) as (F1 & F2 & F3).
  destruct (moveSample_iter_y g dt sp n Hg Hdt Hv) as (Y1 & Y2 & Y3).
  fold sp' in F1, F2, F3, Y1, Y2, Y3.
  split; [now rewrite F1, F2, F3|].
  split; [apply moveSample_iter_vy|].
  split; [exact Y1|]. split; [exact Y2|]. split; [exact Y3|].
  unfold sampleInAir. rewrite F3. clearbody sp'.
  revert Y1 Y2 Y3.
  generalize (freeFall g dt sp (S n)), (sp_y sp'), (sp_targetY sp).
  intros f y T Y1 Y2 Y3. clear - Y1 Y2 Y3.
  split.
  - intro H. apply Qltb_true in H.
    destruct (Qlt_le_dec T f) as [L|L].
    + assert (y == T)%Q by (apply Y3; lra). lra.
    + specialize (Y2 L). lra.
  - intro H. apply Qltb_true.
    assert (L : (f <= T)%Q) by lra. specialize (Y2 L). lra.
Qed.

Lemma falling_particle_follows_free_fall_witness :
  sampleInAir (Nat.iter 10 (moveSample 1400 (1 # 20)) (mkSample 3 100 0 0 200)) = true
  /\ sampleInAir (Nat.iter 11 (moveSample 1400 (1 # 20)) (mkSample 3 100 0 0 200)) <> true.
Proof.
  split.
  - apply (falling_particle_follows_free_fall 1400 (1 # 20) (mkSample 3 100 0 0 200) 9);
      try discriminate. reflexivity.
  - intro H.
    apply (falling_particle_follows_free_fall 1400 (1 # 20) (mkSample 3 100 0 0 200) 10)
      in H; try discriminate.
Defined.

Lemma emitLoop_pairs (s : Engine) (now : Q) (cs : list Z) :
  forall (inflight : list Z) (flashes : list PopFlash) (parts : list SampleParticle),
    exists (newF : list PopFlash) (newP : list SampleParticle),
      emitLoop s now cs inflight flashes parts = (flashes ++ newF, parts ++ newP)
      /\ map sp_col newP = cs
      /\ Forall2 (fun f p =>
                    pf_col f = sp_col p /\ pf_y f = sp_y p
                    /\ pf_until f = (now + 160)%Q /\ sp_vy p = 0%Q
                    /\ sp_x p = colCenter s (sp_col p))
                 newF newP.
Proof.
  induction cs as [|c r IH]; intros inflight flashes parts; cbn [emitLoop].
  - exists [], []. rewrite !app_nil_r. repeat split. constructor.
  - unfold emitOne. cbv zeta.
    match goal with |- context [emitLoop s now r ?i (flashes ++ [?f]) (parts ++ [?p])] =>
      destruct (IH i (flashes ++ [f]) (parts ++ [p])) as (nF & nP & E & C & F);
      exists (f :: nF), (p :: nP) end.
    rewrite E, <- !app_assoc. split; [reflexivity|].
    split; [cbn; now rewrite C|].
    constructor; [|exact F]. repeat split.
Qed.

Lemma tickEmission_pairs (sqrt : Q -> Q) (now : Q) (s : Engine) :
  exists (newF : list PopFlash) (newP : list SampleParticle),
    popFlashes (tickEmission sqrt now s) = popFlashes s ++ newF
    /\ sampleParticles (tickEmission sqrt now s) = sampleParticles s ++ newP
    /\ Forall2 (fun f p =>
                  pf_col f = sp_col p /\ pf_y f = sp_y p
                  /\ pf_until f = (now + 160)%Q /\ sp_vy p = 0%Q
                  /\ sp_x p = colCenter s (sp_col p))
               newF newP.
Proof.
  unfold tickEmission. destruct (emissionPlan s) as [p|] eqn:P.
  2:{ exists [], []. rewrite !app_nil_r. repeat split. constructor. }
  cbv zeta.
  match goal with |- context [if nlt (Num 0) ?t then _ else _] =>
    destruct (nlt (Num 0) t) end.
  - match goal with |- context [emitLoop ?a ?b ?c ?d ?e ?f] =>
      destruct (emitLoop_pairs a b c d e f) as (nF & nP & E & _ & F) end.
    rewrite E. exists nF, nP.
    cbn [emissionPlan set_emissionPlan].
    match goal with |- context [if ?c then _ else _] => destruct c end;
      (split; [reflexivity|]; split; [reflexivity | exact F]).
  - exists [], []. rewrite !app_nil_r. rewrite P.
    match goal with |- context [if ?c then _ else _] => destruct c end;
      repeat split; constructor.
Qed.

(** X14. Population flashes.  Every particle released by a tick comes
    with one flash on its population column, at the height the particle
    starts from, that expires 160 ms after the tick; the particle starts
    at rest at the centre of its column.  At the end of the tick every
    flash whose expiry time is not after [now] has been removed, in
    particular every flash is gone after a tick 160 ms or more later
    than the one that created it. *)
Theorem tick_flashes_released_columns :
  forall (sqrt : Q -> Q) (dt now : Q) (s : Engine),
    exists (newF : list PopFlash) (newP : list SampleParticle),
      popFlashes (tick sqrt dt now s)
      = List.filter (fun f => Qltb now (pf_until f)) (popFlashes s) ++ newF
      /\ sampleParticles (tickEmission sqrt now s) = sampleParticles s ++ newP
      /\ Forall2 (fun f p =>
                    pf_col f = sp_col p /\ pf_y f = sp_y p
                    /\ pf_until f = (now + 160)%Q /\ sp_vy p = 0%Q
                    /\ sp_x p = colCenter s (sp_col p))
                 newF newP
      /\ Forall (fun f => (now < pf_until f)%Q) (popFlashes (tick sqrt dt now s)).
Proof.
  intros sqrt dt now s.
  destruct (tickEmission_pairs sqrt now s) as (nF & nP & EF & EP & F).
  destruct (tick_flashes_spec sqrt dt now s) as [T _].
  exists nF, nP.
  assert (K : List.filter (fun f => Qltb now (pf_until f)) nF = nF).
  { clear - F. induction F as [|f p nF nP (_ & _ & U & _) _ IH]; [reflexivity|].
    cbn. rewrite IH.
    assert (Qltb now (pf_until f) = true) as ->; [|reflexivity].
    apply Qltb_true. rewrite U. lra. }
  split; [rewrite T, EF, List.filter_app, K; reflexivity|].
  split; [exact EP|]. split; [exact F|].
  rewrite T. apply List.Forall_forall. intros f Hf.
  apply List.filter_In in Hf. destruct Hf as [_ Hf]. now apply Qltb_true.
Qed.

(** X15. The gather animation lasts exactly [gatherDur].  While a
    gather with a target is running and [gatherDur] is positive, a tick
    before [gatherStart + gatherDur] keeps the gather running, creates
    no statistic particle and puts every gather particle on the segment
    from its start to the target, at the elapsed fraction of the
    duration; a tick at or after that time ends the gather: the gather
    particles, the target and the remembered sample are dropped and one
    statistic particle, at rest at the target height, is added for the
    target bin.  Neither case writes a histogram. *)
Theorem gather_lasts_gatherDur :
  forall (sqrt : Q -> Q) (now : Q) (s : Engine) (gt : GatherTarget),
    gathering s = true -> gatherTarget s = Some gt -> (0 < gatherDur s)%Q ->
    let s' := tickGather sqrt now s in
    let t := Qmax 0 (Qmin 1 ((now - gatherStart s) / gatherDur s)) in
    (midCounts s', botCounts s') = (midCounts s, botCounts s)
    /\ ((now < gatherStart s + gatherDur s)%Q ->
        gathering s' = true
        /\ gatherTarget s' = Some gt
        /\ statParticles s' = statParticles s
        /\ gatherParticles s'
           = map (fun gp =>
                    mkGather (gp_sx gp) (gp_sy gp)
                      (nadd (Num (gp_sx gp))
                            (nmul (nsub (gt_x gt) (Num (gp_sx gp))) (Num t)))
                      (Num (gp_sy gp + (gt_y gt - gp_sy gp) * t)))
                 (gatherParticles s)
        /\ (t < 1)%Q)
    /\ ((gatherStart s + gatherDur s <= now)%Q ->
        gathering s' = false
        /\ gatherTarget s' = None
        /\ gatherParticles s' = []
        /\ lastGatheringSample s' = None
        /\ exists p : StatParticle,
             statParticles s' = statParticles s ++ [p]
             /\ st_bin p = gt_bin gt /\ st_y p = gt_y gt /\ st_vy p = 0%Q).
Proof.
  intros sqrt now s gt G T Hd s' t. subst s'.
  assert (Ez : Qeq_bool (gatherDur s) 0 = false).
  { destruct (Qeq_bool _ 0) eqn:Q0; [|reflexivity].
    apply Qeq_bool_eq in Q0. lra. }
  assert (Ct : clamp (ndiv (Num (now - gatherStart s)) (Num (gatherDur s)))
                     (Num 0) (Num 1) = Num t).
  { unfold ndiv. rewrite Ez. apply clamp_finite. }
  set (y := ((now - gatherStart s) / gatherDur s)%Q) in *.
  assert (Y : (1 <= y)%Q <-> (gatherStart s + gatherDur s <= now)%Q).
  { subst y. split; intro H.
    - assert (E : ((now - gatherStart s) / gatherDur s * gatherDur s
                   == now - gatherStart s)%Q) by (field; lra).
      assert (1 * gatherDur s <= (now - gatherStart s) / gatherDur s * gatherDur s)%Q
        by (apply Qmult_le_compat_r; lra).
      revert H0 E. generalize ((now - gatherStart s) / gatherDur s * gatherDur s)%Q.
      intros z H0 E. clear - H0 E. lra.
    - apply Qle_shift_div_l; [exact Hd|]. clear - H. lra. }
  assert (Tt : (1 <= t)%Q <-> (1 <= y)%Q).
  { subst t. destruct (Qmin_spec 1 y) as (N1 & N2 & N3).
    destruct (Qmax_spec 0 (Qmin 1 y)) as (X1 & X2 & X3).
    clearbody y. clear - N1 N2 N3 X1 X2 X3.
    split; intro H.
    - destruct X3 as [X|X]; rewrite X in *; [lra|].
      destruct N3 as [N|N]; rewrite N in *; lra.
    - destruct N3 as [N|N]; rewrite N in *; lra. }
  unfold tickGather. rewrite G, T. cbv zeta. rewrite !Ct.
  change (nle (Num 1) (Num t)) with (Qle_bool 1 t).
  destruct (Qle_bool 1 t) eqn:C.
  - apply Qle_bool_true in C. split; [reflexivity|]. split.
    + intro H. apply Tt, Y in C. clear - C H. lra.
    + intros _. repeat (split; [reflexivity|]).
      eexists. split; [reflexivity|]. repeat split.
  - apply Qle_bool_false in C. split; [reflexivity|]. split.
    + intros _. cbn [gathering gatherTarget statParticles gatherParticles
                     set_gatherParticles].
      rewrite G, T. repeat (split; [reflexivity|]). exact C.
    + intro H. apply Y, Tt in H. clear - C H. lra.
Qed.

Lemma gather_lasts_gatherDur_witness :
  let s := set_gatherTarget (Some (mkTarget (Num 100) 400 (Num 7)))
             (set_gathering true (newEngine true)) in
  gathering (tickGather sqrtQ 100 s) = true
  /\ gathering (tickGather sqrtQ 260 s) = false.
Proof.
  intro s. split.
  - apply (gather_lasts_gatherDur sqrtQ 100 s (mkTarget (Num 100) 400 (Num 7)));
      reflexivity.
  - apply (gather_lasts_gatherDur sqrtQ 260 s (mkTarget (Num 100) 400 (Num 7)));
      reflexivity || discriminate.
Defined.

Lemma stacks_length {A : Type} (w : list Z) (f : Z -> nat -> A) (cs : list Z) :
  Forall (fun x => 0 <= x) w ->
  forall t0 : Z,
    t0 + Z.of_nat (length (flat_map
                     (fun c => map (f c) (seq 0 (Z.to_nat (ta_get0 w c)))) cs))
    = fold_left (fun t c => t + ta_get0 w c) cs t0.
Proof.
  intro Hw. induction cs as [|c r IH]; intro t0; cbn [flat_map fold_left].
  - cbn. lia.
  - rewrite <- IH, length_app, length_map, length_seq.
    pose proof (ta_get0_nonneg w c Hw). lia.
Qed.

(** X16. [calculateWithGather] moves the tray into the gather exactly
    once.  Without a current sample it changes nothing.  In every case
    the engine it returns has no current sample, so a second call changes
    nothing and the next sampling request starts its sample at once,
    with no timer.  When there is a current sample, every particle
    counted in the sample histogram becomes one gather particle, placed
    at rest at the centre of its column (for a histogram of [COLS]
    non-negative cells). *)
Theorem calculateWithGather_gathers_once :
  forall (sqrt : Q -> Q) (now : Q) (s : Engine),
    let s' := calculateWithGather sqrt now s in
    (lastSample s = [] -> hasSampleInMid s = false -> s' = s)
    /\ lastSample s' = []
    /\ hasSampleInMid s' = false
    /\ (forall now' : Q, calculateWithGather sqrt now' s' = s')
    /\ (forall (n : nat) (dropMs now' : Q),
          drawSampleWithAutoCalculate sqrt n dropMs now' s'
          = (startSample n dropMs now' s', None))
    /\ (nonemptyb (lastSample s) || hasSampleInMid s = true ->
        Forall (fun gp =>
                  gp_x gp = Num (gp_sx gp) /\ gp_y gp = Num (gp_sy gp)
                  /\ exists c : Z, colOk c /\ gp_sx gp = colCenter s c)
               (gatherParticles s')
        /\ (length (midCounts s) = Z.to_nat COLS ->
            Forall (fun x => 0 <= x) (midCounts s) ->
            Z.of_nat (length (gatherParticles s')) = sumZ (midCounts s))).
Proof.
  intros sqrt now s s'.
  assert (A : lastSample s' = [] /\ hasSampleInMid s' = false).
  { subst s'. unfold calculateWithGather.
    destruct (lastSample s) as [|x r] eqn:L; cbn [nonemptyb negb andb].
    - destruct (hasSampleInMid s) eqn:H; cbn [negb].
      + split; reflexivity.
      + split; assumption.
    - split; reflexivity. }
  destruct A as [A1 A2].
  assert (N : forall now' : Q, calculateWithGather sqrt now' s' = s').
  { intro now'. unfold calculateWithGather at 1. now rewrite A1, A2. }
  split.
  { intros L H. subst s'. unfold calculateWithGather. now rewrite L, H. }
  split; [exact A1|]. split; [exact A2|]. split; [exact N|].
  split.
  { intros n dropMs now'. unfold drawSampleWithAutoCalculate.
    now rewrite A1, A2. }
  intro C. subst s'. unfold calculateWithGather.
  rewrite <- negb_orb, C. cbn [negb]. cbv zeta.
  cbn [gatherParticles set_lastSample set_gatherStart set_gathering
       set_gatherTarget set_midCounts set_gatherParticles
       set_lastGatheringSample midCounts BOX_MID_Y marginY H_TOP H_MID].
  split.
  - apply Forall_flat_map. eapply List.Forall_impl; [|exact colRange_ok].
    intros c Hc. cbv beta. apply List.Forall_map. apply List.Forall_forall.
    intros r _. cbn [gp_x gp_y gp_sx gp_sy]. split; [reflexivity|].
    split; [reflexivity|]. exists c. split; [exact Hc | reflexivity].
  - intros Len Hn.
    pose proof (stacks_length (midCounts s)
                  (fun c r =>
                     mkGather (colCenter s c)
                       (marginY s + H_TOP s + H_MID s - 16
                        - inject_Z (Z.of_nat r) * BOX_MID_Y s - BOX_MID_Y s / 2)
                       (Num (colCenter s c))
                       (Num (marginY s + H_TOP s + H_MID s - 16
                             - inject_Z (Z.of_nat r) * BOX_MID_Y s
                             - BOX_MID_Y s / 2)))
                  colRange Hn 0) as S.
    rewrite (botTotal_sumZ _ Len) in S. rewrite <- S. cbv beta. lia.
Qed.

Lemma calculateWithGather_gathers_once_witness :
  let s := set_midCounts (<[3%nat := 2]> (zeros COLS)) (newEngine true) in
  Z.of_nat (length (gatherParticles (calculateWithGather sqrtQ 0 s))) = 2
  /\ calculateWithGather sqrtQ 0 (newEngine true) = newEngine true.
Proof.
  intro s. split.
  - destruct (calculateWithGather_gathers_once sqrtQ 0 s) as (_ & _ & _ & _ & _ & H).
    destruct H as [_ H]; [reflexivity|].
    apply H; [reflexivity|]. repeat constructor; discriminate.
  - apply (calculateWithGather_gathers_once sqrtQ 0 (newEngine true)); reflexivity.
Defined.

(** X17. The reset button ([clearTray] then [resetExperiment]) empties
    both the sample histogram and the sampling distribution, drops the
    current sample, its particles, the emission plan and the gather, and
    hides the sample-statistic and sampling-mean lines.  It keeps the
    population, the generator state (the seed is not applied again), the
    statistic, the threshold and the speed, and it leaves population
    flashes and the gather target in place.  Afterwards only flashes can
    still animate and a sampling request starts its sample at once. *)
Theorem reset_clears_sample_and_distribution :
  forall (sqrt : Q -> Q) (s : Engine),
    let s' := onResetClick sqrt s in
    (midCounts s', botCounts s', lastSample s', sampleParticles s',
     statParticles s', emissionPlan s', gathering s', gatherParticles s',
     needsRedraw s')
    = (zeros COLS, zeros STAT_BINS, [], [], [], None, false, [], true)
    /\ (popCounts s', rng s', statistic s', threshold s', speed s',
        popFlashes s', gatherTarget s', lastGatheringSample s')
       = (popCounts s, rng s, statistic s, threshold s, speed s,
          popFlashes s, gatherTarget s, lastGatheringSample s)
    /\ line_visible (sampleStat (lines s')) = false
    /\ line_visible (samplingMean (lines s')) = false
    /\ hasActiveAnimations s' = nonemptyb (popFlashes s)
    /\ (forall (n : nat) (dropMs now : Q),
          drawSampleWithAutoCalculate sqrt n dropMs now s'
          = (startSample n dropMs now s', None)).
Proof.
  intros sqrt s s'.
  assert (A : (midCounts s', botCounts s', lastSample s', sampleParticles s',
               statParticles s', emissionPlan s', gathering s', gatherParticles s',
               needsRedraw s')
              = (zeros COLS, zeros STAT_BINS, [], [], [], None, false, [], true))
    by reflexivity.
  assert (B : (popCounts s', rng s', statistic s', threshold s', speed s',
               popFlashes s', gatherTarget s', lastGatheringSample s')
              = (popCounts s, rng s, statistic s, threshold s, speed s,
                 popFlashes s, gatherTarget s, lastGatheringSample s))
    by reflexivity.
  assert (C : line_visible (sampleStat (lines s')) = false) by reflexivity.
  assert (D : line_visible (samplingMean (lines s')) = false) by reflexivity.
  assert (H : hasSampleInMid s' = false) by reflexivity.
  clearbody s'.
  split; [exact A|]. split; [exact B|]. split; [exact C|]. split; [exact D|].
  injection A as _ _ A3 A4 A5 A6 A7 A8 _. injection B as _ _ _ _ _ B6 _ _.
  split.
  - unfold hasActiveAnimations. rewrite A4, A5, A6, A7, A8, B6.
    destruct (popFlashes s); reflexivity.
  - intros n dropMs now. unfold drawSampleWithAutoCalculate.
    rewrite A3, H. reflexivity.
Qed.

Lemma invalid_size (n : Z) :
  n < 2 \/ 1000 < n -> valid (validateSampleSize (Num (inject_Z n))) = false.
Proof.
  intro H. unfold validateSampleSize, nlt.
  destruct (Qltb (inject_Z n) 2) eqn:A; [reflexivity|].
  destruct (Qltb 1000 (inject_Z n)) eqn:B; [reflexivity|].
  apply Qltb_false in A, B.
  change 2%Q with (inject_Z 2) in A. change 1000%Q with (inject_Z 1000) in B.
  rewrite <- Zle_Qle in A, B. lia.
Qed.

Lemma valid_size (n : Z) :
  2 <= n <= 1000 -> valid (validateSampleSize (Num (inject_Z n))) = true.
Proof.
  intro H. unfold validateSampleSize, nlt.
  assert (A : Qltb (inject_Z n) 2 = false).
  { apply Qltb_false. change 2%Q with (inject_Z 2). rewrite <- Zle_Qle. lia. }
  assert (B : Qltb 1000 (inject_Z n) = false).
  { apply Qltb_false. change 1000%Q with (inject_Z 1000). rewrite <- Zle_Qle. lia. }
  now rewrite A, B.
Qed.

(** X18. The draw button and the repeat-1000 button act only on a valid
    sample size.  For a size below 2 or above 1000 their click handlers
    leave the engine exactly as it is and schedule nothing; for a size
    from 2 to 1000 the draw button issues the sampling request with a
    drop time of 1200 ms and the repeat-1000 button runs the 1000 turbo
    repetitions. *)
Theorem sampling_buttons_check_size :
  forall (sqrt : Q -> Q) (n : Z) (now : Q) (s : Engine),
    (n < 2 \/ 1000 < n ->
     onDrawSampleClick sqrt n now s = (s, None)
     /\ onRepeat1000Click sqrt n s = s)
    /\ (2 <= n <= 1000 ->
        onDrawSampleClick sqrt n now s
        = drawSampleWithAutoCalculate sqrt (Z.to_nat n) 1200 now s
        /\ onRepeat1000Click sqrt n s = handleRepeatTurbo sqrt (Z.to_nat n) s).
Proof.
  intros sqrt n now s. unfold onDrawSampleClick, onRepeat1000Click. split; intro H.
  - rewrite (invalid_size n H). split; reflexivity.
  - rewrite (valid_size n H). split; reflexivity.
Qed.

Lemma sampling_buttons_check_size_witness :
  onRepeat1000Click sqrtQ 1 flatEngine = flatEngine
  /\ onDrawSampleClick sqrtQ 30 0 flatEngine
     = drawSampleWithAutoCalculate sqrtQ 30 1200 0 flatEngine.
Proof.
  split.
  - exact (proj2 (proj1 (sampling_buttons_check_size sqrtQ 1 0 flatEngine)
                    (or_introl eq_refl))).
  - refine (proj1 (proj2 (sampling_buttons_check_size sqrtQ 30 0 flatEngine) _)).
    split; discriminate.
Defined.

Lemma turboStep_empty (sqrt : Q -> Q) (s : Engine) :
  botCounts (turboStep sqrt O s) = botCounts s
  /\ rng (turboStep sqrt O s) = rng s.
Proof.
  unfold turboStep. rewrite sampleN_result. cbn [rngStream map Nat.iter].
  cbv zeta. change (computeStat sqrt (set_rng (rng s) s) []) with NaN.
  split; reflexivity.
Qed.

(** X19. [handleRepeatTurbo] counts nothing for samples of size 0: the
    statistic of an empty sample is NaN, its bin is NaN, and the write
    at that index is no write.  The 1000 repetitions leave the sampling
    distribution and the generator state as they were (only the lines
    are recomputed and the dirty flag is set). *)
Theorem handleRepeatTurbo_empty_samples :
  forall (sqrt : Q -> Q) (s : Engine),
    let s' := handleRepeatTurbo sqrt O s in
    botCounts s' = botCounts s
    /\ rng s' = rng s
    /\ needsRedraw s' = true
    /\ (midCounts s', popCounts s', sampleParticles s', statParticles s',
        emissionPlan s', lastSample s')
       = (midCounts s, popCounts s, sampleParticles s, statParticles s,
          emissionPlan s, lastSample s).
Proof.
  intros sqrt s s'.
  assert (I : forall k : nat,
             botCounts (Nat.iter k (turboStep sqrt O) s) = botCounts s
             /\ rng (Nat.iter k (turboStep sqrt O) s) = rng s).
  { induction k as [|k [IH1 IH2]]; [split; reflexivity|].
    rewrite Nat.iter_succ.
    destruct (turboStep_empty sqrt (Nat.iter k (turboStep sqrt O) s)) as [A B].
    rewrite A, B. split; assumption. }
  subst s'. unfold handleRepeatTurbo.
  pose proof (I 1000%nat) as I1000.
  pose proof (turbo_iter_frame sqrt O s 1000) as F.
  revert I1000 F. generalize (Nat.iter 1000 (turboStep sqrt O) s).
  intros it [I1 I2] F. cbv zeta in F.
  split; [exact I1|]. split; [exact I2|]. split; [reflexivity|].
  exact (f_equal (fun t =>
                    match t with
                    | (a, b, c, d, _, _, _, _, e, f) => (a, b, c, d, e, f)
                    end) F).
Qed.

(** X20. Every column index the engine carries stays inside the
    histograms.  From a newly constructed engine, after any sequence of
    engine operations, each followed by a [draw], and then any run of
    sampling requests, timer callbacks and animation frames, the engine
    is well formed: the three histograms still have [COLS] cells, so
    every read at a column from 0 to [COLS - 1] finds a cell, and every
    particle in the air carries such a column. *)
Theorem engine_states_stay_wellFormed :
  forall (sqrt exp log : Q -> Q) (hasCtx : bool) (acts : list Action)
         (ts : list Timer) (es : list Event),
    let s0 :=
      fold_left (fun s a => fst (draw (perform sqrt exp log a s)))
                acts (newEngine hasCtx) in
    let s := engine (run sqrt (mkWorld s0 ts) es) in
    wellFormed s
    /\ (forall c : Z,
          colOk c ->
          exists v1 v2 v3 : Z,
            ta_get (popCounts s) c = Some v1
            /\ ta_get (midCounts s) c = Some v2
            /\ ta_get (botCounts s) c = Some v3)
    /\ Forall (fun p => exists v : Z, ta_get (midCounts s) (sp_col p) = Some v)
              (sampleParticles s).
Proof.
  intros sqrt exp log hasCtx acts ts es s0 s.
  assert (W0 : wellFormed s0).
  { subst s0. generalize (newEngine_wellFormed hasCtx).
    generalize (newEngine hasCtx). induction acts as [|a r IH]; intros e W;
      cbn [fold_left]; [exact W|].
    apply IH. now apply draw_wellFormed, perform_wellFormed. }
  assert (W : wellFormed s).
  { subst s. now apply run_wellFormed. }
  clearbody s. clear - W.
  assert (G : forall (a : list Z) (c : Z),
             length a = Z.to_nat COLS -> colOk c -> exists v, ta_get a c = Some v).
  { intros a c L Hc. unfold ta_get. unfold colOk, COLS in *.
    destruct (Z.ltb_spec c 0); [lia|].
    apply lookup_lt_is_Some. rewrite L. lia. }
  split; [exact W|]. destruct W as (Lp & Lm & Lb & Hs & _).
  split.
  - intros c Hc.
    destruct (G _ c Lp Hc) as [v1 E1]. destruct (G _ c Lm Hc) as [v2 E2].
    destruct (G _ c Lb Hc) as [v3 E3]. now exists v1, v2, v3.
  - rewrite List.Forall_map in Hs. eapply List.Forall_impl; [|exact Hs].
    intros p Hp. now apply G.
Qed.

Lemma engine_states_stay_wellFormed_witness :
  exists v : Z,
    ta_get (midCounts
              (engine (run sqrtQ
                         (mkWorld
                            (fold_left
                               (fun s a => fst (draw (perform sqrtQ expQ logQ a s)))
                               [AApplyGenerator GenUniform] (newEngine true))
                            [])
                         [EvDrawSample 30 1200 0; EvFrame (1 # 20) 50])))
           7
    = Some v.
Proof.
  destruct (engine_states_stay_wellFormed sqrtQ expQ logQ true
              [AApplyGenerator GenUniform] []
              [EvDrawSample 30 1200 0; EvFrame (1 # 20) 50]) as (_ & H & _).
  destruct (H 7) as (v1 & v2 & v3 & E1 & E2 & E3).
  - unfold colOk, COLS. lia.
  - exists v2. exact E2.
Defined.

(** X21. [applyGenerator] replaces the whole population by a
    preset that depends on the generator name alone, not on earlier
    edits: [COLS] cells, each a 16-bit count, all equal to 20 for the
    uniform preset and for an unknown name.  It sets the dirty flag and
    leaves the current sample, both other histograms, all particles and
    the generator of random numbers as they are. *)
Theorem applyGenerator_replaces_population :
  forall (sqrt exp log : Q -> Q) (name : Generator) (s : Engine),
    let s' := applyGenerator sqrt exp log name s in
    length (popCounts s') = Z.to_nat COLS
    /\ Forall (fun v => 0 <= v <= 65535) (popCounts s')
    /\ (forall s0 : Engine,
          popCounts (applyGenerator sqrt exp log name s0) = popCounts s')
    /\ (name = GenUniform \/ name = GenOther ->
        popCounts s' = repeat 20 (Z.to_nat COLS))
    /\ needsRedraw s' = true
    /\ (midCounts s', botCounts s', lastSample s', sampleParticles s',
        statParticles s', emissionPlan s', gathering s', rng s')
       = (midCounts s, botCounts s, lastSample s, sampleParticles s,
          statParticles s, emissionPlan s, gathering s, rng s).
Proof.
  intros sqrt exp log name s s'. subst s'. unfold applyGenerator.
  cbn [popCounts set_needsRedraw].
  assert (P : forall e : Engine, forall l : list Z,
             popCounts (updateLines sqrt (set_popCounts l e)) = l) by reflexivity.
  rewrite P.
  split; [now rewrite length_map, colRange_length|].
  split.
  { apply List.Forall_map. apply List.Forall_forall. intros c _.
    unfold toUint16.
    pose proof (Z.mod_pos_bound
                  (Z.max 0 (Qround_half_up (genWeight exp log name (colValue c) * 20)))
                  65536 ltac:(lia)). lia. }
  split; [intro s0; now rewrite P|].
  split.
  { intros [-> | ->]; reflexivity. }
  split; reflexivity.
Qed.

Lemma applyGenerator_replaces_population_witness :
  popCounts flatEngine = repeat 20 (Z.to_nat COLS).
Proof.
  refine (proj1 (proj2 (proj2 (proj2
            (applyGenerator_replaces_population sqrtQ expQ logQ GenUniform
               (newEngine true))))) _).
  left. reflexivity.
Defined.

(** X22. A line label is anchored 8 pixels beside its line, to the
    right of it with left alignment or to the left of it with right
    alignment, and for a line at a finite position in a grid at least 76
    wide it keeps 30 pixels of room inside the grid: a left-aligned
    label starts at most at [gridX0 + gridW - 30] and a right-aligned
    one ends at least at [gridX0 + 30].  The parameter line's label is
    left-aligned whenever that fits. *)
Theorem getSmartLabelPosition_keeps_room :
  forall (s : Engine) (value : option num) (x : Q) (visible : bool)
         (lineType : LineType),
    (76 <= gridW s)%Q ->
    let line := mkLine value (Some (Num x)) visible in
    let p := getSmartLabelPosition s line lineType in
    (lp_align p = AlignLeft ->
     lp_x p = Num (x + 8) /\ (x + 8 <= gridX0 s + gridW s - 30)%Q)
    /\ (lp_align p = AlignRight ->
        lp_x p = Num (x + - 8) /\ (gridX0 s + 30 <= x + - 8)%Q)
    /\ (lineType = LtParameter ->
        (lp_align p = AlignLeft <-> (x + 8 <= gridX0 s + gridW s - 30)%Q)).
Proof.
  intros s value x visible lineType Hw line p. subst p line.
  unfold getSmartLabelPosition. cbv zeta.
  cbn [line_x line_value numOfNull default from_option].
  change (nadd (Num x) (Num 8)) with (Num (x + 8)).
  change (nsub (Num x) (Num 8)) with (Num (x + - 8)).
  match goal with
  | |- context [match lp_align ?q with AlignLeft => _ | AlignRight => _ end] =>
      set (pos0 := q)
  end.
  assert (C : pos0 = mkLabel (Num (x + 8)) AlignLeft
              \/ pos0 = mkLabel (Num (x + - 8)) AlignRight).
  { subst pos0. destruct lineType; [now left| |];
      (destruct (line_visible (parameter (lines s))); [|now left]);
      match goal with |- context [if ?c then _ else _] => destruct c end;
      [now left | now right | now left | now right]. }
  assert (P : lineType = LtParameter -> pos0 = mkLabel (Num (x + 8)) AlignLeft).
  { intros ->. reflexivity. }
  clearbody pos0.
  assert (R : forall a b : Q, nlt (Num a) (Num b) = Qltb a b) by reflexivity.
  revert Hw. generalize (gridX0 s), (gridW s). intros g0 gw Hw.
  destruct C as [-> | ->]; cbn [lp_align lp_x]; rewrite R.
  - destruct (Qltb (g0 + gw - 30) (x + 8)) eqn:E; cbn [lp_align lp_x].
    + apply Qltb_true in E. split; [discriminate|]. split.
      * intros _. split; [reflexivity | lra].
      * intros _. split; [discriminate | intro; lra].
    + apply Qltb_false in E. split.
      * intros _. split; [reflexivity | exact E].
      * split; [discriminate|]. intros _. split; [intros _; exact E | reflexivity].
  - destruct (Qltb (x + - 8) (g0 + 30)) eqn:E; cbn [lp_align lp_x].
    + apply Qltb_true in E. split.
      * intros _. split; [reflexivity | lra].
      * split; [discriminate|]. intro H. specialize (P H). discriminate.
    + apply Qltb_false in E. split; [discriminate|]. split.
      * intros _. split; [reflexivity | exact E].
      * intro H. specialize (P H). discriminate.
Qed.

Lemma getSmartLabelPosition_keeps_room_witness :
  lp_align (getSmartLabelPosition flatEngine
              (mkLine (Some (Num (1 # 2))) (Some (Num 900)) true) LtSample)
  = AlignRight
  /\ (gridX0 flatEngine + 30 <= 900 + - 8)%Q.
Proof.
  split; [reflexivity|].
  refine (proj2 (proj1 (proj2
     (getSmartLabelPosition_keeps_room flatEngine (Some (Num (1 # 2))) 900 true
        LtSample _)) _)).
  - discriminate.
  - reflexivity.
Defined.

Lemma toUint32_period (t k : Z) : toUint32 (t + 4294967296 * k) = toUint32 t.
Proof.
  unfold toUint32. rewrite (Z.mul_comm 4294967296 k). apply Z_mod_plus_full.
Qed.

Lemma toInt32_period (t k : Z) : toInt32 (t + 4294967296 * k) = toInt32 t.
Proof.
  unfold toInt32.
  replace (t + 4294967296 * k + 2147483648)
    with (t + 2147483648 + k * 4294967296) by lia.
  now rewrite Z_mod_plus_full.
Qed.

Lemma rng_output_period (t k : Z) :
  rng_output (t + 4294967296 * k) = rng_output t.
Proof.
  unfold rng_output, xor32, or32, ushr.
  now rewrite !toInt32_period, !toUint32_period.
Qed.

Lemma rngStream_period (n : nat) :
  forall t k : Z,
    0 <= t -> 0 <= t + 4294967296 * k ->
    t + Z.of_nat n * 1831565813 < 2 ^ 53 ->
    t + 4294967296 * k + Z.of_nat n * 1831565813 < 2 ^ 53 ->
    rngStream n (t + 4294967296 * k) = rngStream n t.
Proof.
  induction n as [|n IH]; intros t k T0 K0 T1 K1; cbn [rngStream];
    [reflexivity|].
  unfold rng_call, rng_advance. cbv zeta.
  rewrite !roundToDouble_exact by lia.
  replace (t + 4294967296 * k + 1831565813)
    with (t + 1831565813 + 4294967296 * k) by lia.
  rewrite rng_output_period, IH by lia. reflexivity.
Qed.

(** X23. The generator works modulo 2^32 while its closure variable is
    exact.  [rngMulberry32] reduces its seed to an unsigned 32-bit
    number, so seeds that differ by a multiple of 2^32 give the same
    generator; every output is a multiple of 2^-32 in [0, 1); an output
    depends on the closure variable only modulo 2^32; and as long as the
    closure variable stays below 2^53 over the [n] calls (where the
    additions are exact), the stream of [n] outputs from a state is the
    stream from that state shifted by a multiple of 2^32, in particular
    from that state reduced modulo 2^32. *)
Theorem rngMulberry32_works_modulo_2_32 :
  (forall seed k : Z,
      rngMulberry32 (seed + 4294967296 * k) = rngMulberry32 seed
      /\ 0 <= rngMulberry32 seed < 4294967296
      /\ (0 <= seed < 4294967296 -> rngMulberry32 seed = seed))
  /\ (forall t : Z,
        exists m : Z,
          0 <= m < 4294967296
          /\ rng_output t = (inject_Z m / 4294967296)%Q)
  /\ (forall t k : Z, rng_output (t + 4294967296 * k) = rng_output t)
  /\ (forall (n : nat) (t k : Z),
        0 <= t -> 0 <= t + 4294967296 * k ->
        t + Z.of_nat n * 1831565813 < 2 ^ 53 ->
        t + 4294967296 * k + Z.of_nat n * 1831565813 < 2 ^ 53 ->
        rngStream n (t + 4294967296 * k) = rngStream n t)
  /\ (forall (n : nat) (t : Z),
        0 <= t -> t + Z.of_nat n * 1831565813 < 2 ^ 53 ->
        rngStream n (toUint32 t) = rngStream n t).
Proof.
  split.
  { intros seed k. unfold rngMulberry32, ushr. rewrite toUint32_period.
    rewrite !Z.shiftr_0_r. unfold toUint32.
    split; [reflexivity|].
    split; [apply Z.mod_pos_bound; lia|].
    intro H. now apply Z.mod_small. }
  split.
  { intro t. unfold rng_output. cbv zeta.
    eexists. split; [|reflexivity]. apply ushr0_range. }
  split; [exact rng_output_period|].
  split; [intros n t k; apply rngStream_period|].
  intros n t T0 T1. unfold toUint32.
  pose proof (Z.div_mod t 4294967296 ltac:(lia)) as E.
  pose proof (Z.mod_pos_bound t 4294967296 ltac:(lia)) as M.
  assert (Q0 : 0 <= t / 4294967296) by (apply Z.div_pos; lia).
  rewrite E at 2. rewrite Z.add_comm. symmetry.
  apply rngStream_period; nia.
Qed.

Lemma rngMulberry32_works_modulo_2_32_witness :
  rngMulberry32 1234 = 1234
  /\ rngStream 3 (toUint32 4294968530) = rngStream 3 4294968530.
Proof.
  split.
  - refine (proj2 (proj2 (proj1 rngMulberry32_works_modulo_2_32 1234 0)) _).
    split; [discriminate | reflexivity].
  - refine (proj2 (proj2 (proj2 (proj2 rngMulberry32_works_modulo_2_32)))
              3%nat 4294968530 _ _).
    + discriminate.
    + reflexivity.
Defined.

Lemma Qfloor_between (y : Q) (c : Z) :
  (inject_Z c <= y)%Q -> (y < inject_Z (c + 1))%Q -> Qfloor y = c.
Proof.
  intros L U.
  assert (A : c <= Qfloor y).
  { rewrite <- (Qfloor_Z c). now apply Qfloor_resp_le. }
  assert (B : Qfloor y < c + 1).
  { rewrite Zlt_Qlt. eapply Qle_lt_trans; [apply Qfloor_le | exact U]. }
  lia.
Qed.

(** X24. The pointer column is the column drawn under the pointer.  For
    a positive column width, a pointer between the left edges of columns
    [c] and [c + 1] is mapped to column [c]; in particular the centre of
    a column is mapped to that column.  A pointer left of the grid is
    mapped to column 0 and one right of it to the last column. *)
Theorem populationCol_inverts_colLeft :
  forall (s : Engine) (c : Z) (x : Q),
    (0 < BOX s)%Q ->
    (colOk c ->
     ((colLeft s c <= x)%Q -> (x < colLeft s (c + 1))%Q ->
      populationCol s x = Num (inject_Z c))
     /\ populationCol s (colCenter s c) = Num (inject_Z c))
    /\ ((x < gridX0 s)%Q -> populationCol s x = Num 0)
    /\ ((colLeft s COLS <= x)%Q -> populationCol s x = Num (inject_Z (COLS - 1))).
Proof.
  intros s c x HB.
  assert (In : forall (k : Z) (z : Q),
             (colLeft s k <= z)%Q -> (inject_Z k <= (z - gridX0 s) / BOX s)%Q).
  { intros k z H. unfold colLeft in H. apply Qle_shift_div_l; [exact HB|].
    revert H. generalize (inject_Z k * BOX s)%Q. intros m H. clear - H. lra. }
  assert (Up : forall (k : Z) (z : Q),
             (z < colLeft s k)%Q -> ((z - gridX0 s) / BOX s < inject_Z k)%Q).
  { intros k z H. unfold colLeft in H. apply Qlt_shift_div_r; [exact HB|].
    revert H. generalize (inject_Z k * BOX s)%Q. intros m H. clear - H. lra. }
  assert (Main : forall z : Q, colOk c ->
             (colLeft s c <= z)%Q -> (z < colLeft s (c + 1))%Q ->
             populationCol s z = Num (inject_Z c)).
  { intros z Hc L U. rewrite (populationCol_valid s z HB).
    rewrite (Qfloor_between _ c (In c z L) (Up (c + 1) z U)).
    unfold colOk, COLS in Hc. unfold clampZ, COLS. do 2 f_equal. lia. }
  split; [|split].
  - intro Hc. split; [now apply Main|].
    apply Main; [exact Hc| |]; unfold colCenter, colLeft.
    + assert (0 <= BOX s / 2)%Q by (apply Qle_shift_div_l; lra).
      revert H. generalize (BOX s / 2)%Q, (inject_Z c * BOX s)%Q, (gridX0 s).
      intros h m g H. clear - H. lra.
    + rewrite inject_Z_plus. change (inject_Z 1) with 1%Q.
      assert (E : ((inject_Z c + 1) * BOX s == inject_Z c * BOX s + BOX s)%Q) by ring.
      assert (H : (BOX s / 2 < BOX s)%Q).
      { apply Qlt_shift_div_r; [reflexivity|]. lra. }
      revert E H HB. generalize ((inject_Z c + 1) * BOX s)%Q, (BOX s / 2)%Q,
        (inject_Z c * BOX s)%Q, (gridX0 s), (BOX s).
      intros a h m g b E H HB. clear - E H HB. lra.
  - intro H. rewrite (populationCol_valid s x HB).
    assert (F : Qfloor ((x - gridX0 s) / BOX s) < 0).
    { rewrite Zlt_Qlt. eapply Qle_lt_trans; [apply Qfloor_le|].
      apply Qlt_shift_div_r; [exact HB|]. change (inject_Z 0) with 0%Q.
      clear - H. lra. }
    replace (clampZ (Qfloor ((x - gridX0 s) / BOX s)) 0 (COLS - 1)) with 0;
      [reflexivity | unfold clampZ, COLS; lia].
  - intro H. rewrite (populationCol_valid s x HB).
    assert (F : COLS <= Qfloor ((x - gridX0 s) / BOX s)).
    { rewrite <- (Qfloor_Z COLS). apply Qfloor_resp_le. now apply In. }
    unfold clampZ, COLS in *. do 2 f_equal. lia.
Qed.

Lemma populationCol_inverts_colLeft_witness :
  populationCol flatEngine (colCenter flatEngine 7) = Num (inject_Z 7).
Proof.
  refine (proj2 (proj1 (populationCol_inverts_colLeft flatEngine 7 0 _) _)).
  - reflexivity.
  - unfold colOk, COLS. lia.
Defined.

Lemma tick_keeps_ctx (sqrt : Q -> Q) (dt now : Q) (s : Engine) :
  ctx (tick sqrt dt now s) = ctx s.
Proof.
  unfold tick. cbv zeta.
  set (s1 := tickEmission sqrt now s).
  assert (E1 : ctx s1 = ctx s).
  { subst s1. unfold tickEmission. destruct (emissionPlan s) as [p|] eqn:P;
      [|reflexivity]. cbv zeta.
    match goal with |- context [if nlt (Num 0) ?t then _ else _] =>
      destruct (nlt (Num 0) t) end.
    - match goal with |- context [emitLoop ?a ?b ?c ?d ?e ?f] =>
        destruct (emitLoop a b c d e f) as [fl parts] end.
      cbn [emissionPlan set_emissionPlan].
      match goal with |- context [if ?c then _ else _] => destruct c end;
        reflexivity.
    - rewrite P.
      match goal with |- context [if ?c then _ else _] => destruct c end;
        reflexivity. }
  destruct (tickSamples_shape sqrt (gravity s) dt s1) as (P & M & L & E2).
  set (s2 := tickSamples sqrt (gravity s) dt s1) in *.
  assert (E3 : ctx (tickGather sqrt now s2) = ctx s2).
  { unfold tickGather. destruct (gathering s2); [|reflexivity].
    destruct (gatherTarget s2); [|reflexivity]. cbv zeta.
    match goal with |- context [if ?c then _ else _] => destruct c end;
      reflexivity. }
  set (s3 := tickGather sqrt now s2) in *.
  destruct (tickStats_shape sqrt (gravity s) dt s3) as (P' & B & L' & E4).
  set (s4 := tickStats sqrt (gravity s) dt s3) in *.
  assert (F : ctx s4 = ctx s).
  { rewrite E4. cbn [ctx set_statParticles set_lines set_botCounts].
    rewrite E3, E2. exact E1. }
  match goal with |- context [if ?c then _ else _] => destruct c end;
    cbn [ctx set_needsRedraw tickFlashes set_popFlashes]; exact F.
Qed.

(** X25. One turn of the frame loop.  With nothing animating and the
    dirty flag clear, a frame changes nothing and draws nothing.  With a
    drawing context the dirty flag is clear after every frame, and a
    frame is drawn whenever the engine was dirty or animating before
    the frame; without a context nothing is ever drawn. *)
Theorem animate_frame_contract :
  forall (sqrt : Q -> Q) (dt now : Q) (s : Engine),
    (hasActiveAnimations s = false -> needsRedraw s = false ->
     animate sqrt dt now s = (s, []))
    /\ (ctx s = true -> needsRedraw (fst (animate sqrt dt now s)) = false)
    /\ (ctx s = true ->
        needsRedraw s = true \/ hasActiveAnimations s = true ->
        snd (animate sqrt dt now s) <> [])
    /\ (ctx s = false -> snd (animate sqrt dt now s) = []).
Proof.
  intros sqrt dt now s.
  pose proof (tick_keeps_ctx sqrt dt now s) as C.
  destruct (tick_flag sqrt dt now s) as [F1 F2].
  unfold animate. cbv zeta.
  split.
  { intros H N. rewrite (tick_idle sqrt dt now s H), N, H. reflexivity. }
  set (s1 := tick sqrt dt now s) in *. clearbody s1.
  split.
  { intro Hc. rewrite <- C in Hc. unfold draw. rewrite Hc.
    destruct (needsRedraw s1) eqn:N; cbn [orb negb fst]; [reflexivity|].
    destruct (hasActiveAnimations s1); exact N. }
  split.
  { intros Hc [H|H].
    - rewrite (F1 H). cbn [orb]. unfold draw. rewrite C, Hc, (F1 H).
      cbn. discriminate.
    - rewrite (F2 H). cbn [orb]. unfold draw. rewrite C, Hc, (F2 H).
      cbn. discriminate. }
  intro Hc. unfold draw. rewrite C, Hc. cbn [negb orb].
  destruct (needsRedraw s1 || hasActiveAnimations s1); reflexivity.
Qed.

Lemma animate_frame_contract_witness :
  snd (animate sqrtQ (1 # 20) 50 busyEngine) <> []
  /\ animate sqrtQ (1 # 20) 50 readyEngine = (readyEngine, []).
Proof.
  split.
  - refine (proj1 (proj2 (proj2
               (animate_frame_contract sqrtQ (1 # 20) 50 busyEngine))) _ _).
    + reflexivity.
    + right. reflexivity.
  - refine (proj1 (animate_frame_contract sqrtQ (1 # 20) 50 readyEngine) _ _);
      reflexivity.
Defined.
